(** * StrategyResolver: loading a strategy and merging its attributes

    A shallow embedding of [freqtrade/resolvers/strategy_resolver.py].

    Python objects are modelled by what the resolver observes of them:
    - a value is one of the JSON-like shapes that a configuration or an
      attribute of a strategy holds ([value]); floats are binary64
      numbers, strings are ASCII texts;
    - a strategy instance is its class (name, class-level attributes, the
      argument lists of the three inspected methods) together with its
      instance dictionary ([IStrategy]); a property of the class is
      read-only and is given by the outcome of its getter, which does not
      depend on what the resolver assigns; an instance is truthy;
    - the configuration is a dictionary with string keys, owned by the
      caller and mutated in place: it lives in the state of the monad [M],
      next to the log, the files written and the temporary directories
      created; the strategy is created during the call and is passed from
      step to step;
    - exceptions are results of kind [Err]; the state at the moment of the
      exception is kept;
    - what the module imports ([freqtrade.constants], [IResolver], the
      decoder, [mkdtemp]) and what the machine answers (the limits of its
      file system, a write outside the directory just made) is a
      parameter, the class [Imports]. *)

From Stdlib Require Import ZArith List String Ascii Bool Lia.
From Stdlib Require Import Floats.SpecFloat.
From Stdlib Require Import Sorting.Sorted.
From stdpp Require Import base option gmap strings.

Import ListNotations.
Local Open Scope string_scope.
Local Open Scope Z_scope.
Set Warnings "-register-all".

(** ** Values and exceptions *)

(** Python floats are IEEE 754 binary64 numbers: [spec_float] with
    precision 53 and [emax = 1024]. *)
Definition prec64 : Z := 53.
Definition emax64 : Z := 1024.

Inductive value : Type :=
| VNone
| VBool (b : bool)
| VInt (z : Z)
| VFloat (f : spec_float)
| VStr (s : string)
| VList (l : list value)
| VDict (d : list (value * value)).

(** The exceptions the resolver raises itself or lets through. *)
Inductive exn : Type :=
| OperationalException (msg : string)
| ImportError (msg : string)
| AttributeError
| TypeError
| ValueError
| OverflowError
| OSError
| FileNotFoundError
| IsADirectoryError
| PermissionError.

Inductive result (A : Type) : Type :=
| Ok (a : A)
| Err (e : exn).
Arguments Ok {A} a.
Arguments Err {A} e.

Definition result_bind {A B} (f : A → result B) (r : result A) : result B :=
  match r with
  | Ok a => f a
  | Err e => Err e
  end.

#[global] Instance result_ret : MRet result := @Ok.
#[global] Instance result_mbind : MBind result := @result_bind.

Definition is_None (v : value) : bool :=
  match v with VNone => true | _ => false end.

(** [bool(v)]: Python truthiness. *)
Definition truthy (v : value) : bool :=
  match v with
  | VNone => false
  | VBool b => b
  | VInt z => negb (z =? 0)
  | VFloat (S754_zero _) => false
  | VFloat _ => true
  | VStr s => negb (String.eqb s "")
  | VList l => match l with [] => false | _ => true end
  | VDict d => match d with [] => false | _ => true end
  end.

(** ** Strings *)

Module PyStr.

(** The blanks that [int()] and [float()] skip around a numeral: space,
    [\t], [\n], [\v], [\f] and [\r]. *)
Definition is_space (c : ascii) : bool :=
  let n := N_of_ascii c in
  ((9 <=? n) && (n <=? 13) || (n =? 32))%N.

Fixpoint lstrip (cs : list ascii) : list ascii :=
  match cs with
  | c :: cs' => if is_space c then lstrip cs' else cs
  | [] => []
  end.

Definition strip (cs : list ascii) : list ascii :=
  rev (lstrip (rev (lstrip cs))).

(** [sep in s] for a one-character separator. *)
Fixpoint contains_char (sep : ascii) (s : string) : bool :=
  match s with
  | EmptyString => false
  | String c s' => if Ascii.eqb c sep then true else contains_char sep s'
  end.

Fixpoint count_char (sep : ascii) (s : string) : nat :=
  match s with
  | EmptyString => O
  | String c s' => (if Ascii.eqb c sep then 1 else 0) + count_char sep s'
  end.

(** [s.split(sep)] for a one-character separator: the pieces between
    the separators, empty pieces included. *)
Fixpoint split (sep : ascii) (s : string) : list string :=
  match s with
  | EmptyString => [EmptyString]
  | String c s' =>
      if Ascii.eqb c sep then EmptyString :: split sep s'
      else match split sep s' with
           | p :: ps => String c p :: ps
           | [] => [String c EmptyString]
           end
  end.

(** [sub in s] for strings. *)
Fixpoint is_prefix (p s : string) : bool :=
  match p, s with
  | EmptyString, _ => true
  | String a p', String b s' => Ascii.eqb a b && is_prefix p' s'
  | String _ _, EmptyString => false
  end.

Fixpoint contains (sub s : string) : bool :=
  is_prefix sub s ||
  match s with
  | EmptyString => false
  | String _ s' => contains sub s'
  end.

End PyStr.

(** ** Numerals: [int(x)] and [float(x)] *)

Module PyNum.

Definition digit_val (c : ascii) : option Z :=
  let n := N_of_ascii c in
  if ((48 <=? n) && (n <=? 57))%N then Some (Z.of_N n - 48) else None.

Definition is_underscore (c : ascii) : bool := Ascii.eqb c "_"%char.

(** The tail of a digit part: digits, each optionally preceded by one
    underscore.  Returns the accumulated number, the number of digits
    read and the unread rest. *)
Fixpoint digits_tail (acc : Z) (n : nat) (cs : list ascii) : Z * nat * list ascii :=
  match cs with
  | [] => (acc, n, [])
  | c :: cs' =>
      match digit_val c with
      | Some d => digits_tail (10 * acc + d) (S n) cs'
      | None =>
          if is_underscore c then
            match cs' with
            | c2 :: cs'' =>
                match digit_val c2 with
                | Some d => digits_tail (10 * acc + d) (S n) cs''
                | None => (acc, n, cs)
                end
            | [] => (acc, n, cs)
            end
          else (acc, n, cs)
      end
  end.

(** A digit part: at least one digit. *)
Definition digitpart (cs : list ascii) : option (Z * nat * list ascii) :=
  match cs with
  | c :: cs' =>
      match digit_val c with
      | Some d => Some (digits_tail d 1 cs')
      | None => None
      end
  | [] => None
  end.

(** An optional sign; [true] is minus. *)
Definition sign (cs : list ascii) : bool * list ascii :=
  match cs with
  | "-"%char :: cs' => (true, cs')
  | "+"%char :: cs' => (false, cs')
  | _ => (false, cs)
  end.

(** [int(s)] in base 10. *)
Definition int_of_string (s : string) : option Z :=
  let '(neg, cs) := sign (PyStr.strip (list_ascii_of_string s)) in
  match digitpart cs with
  | Some (z, _, []) => Some (if neg then - z else z)
  | _ => None
  end.

(** Truncation of a float towards zero, [None] for infinities and NaN. *)
Definition trunc (f : spec_float) : option Z :=
  match f with
  | S754_zero _ => Some 0
  | S754_finite s m e =>
      let a := if 0 <=? e then Z.shiftl (Zpos m) e else Z.shiftr (Zpos m) (- e) in
      Some (if s then - a else a)
  | _ => None
  end.

(** The binary64 number nearest to an integer (ties to even). *)
Definition float_of_Z (z : Z) : spec_float :=
  binary_normalize prec64 emax64 z 0 false.

(** The binary64 number nearest to [(-1)^s * m * 10^e]. *)
Definition float_of_decimal (s : bool) (m : Z) (e : Z) : spec_float :=
  match m with
  | Zpos p =>
      if 0 <=? e then
        binary_normalize prec64 emax64 (if s then - (m * 10 ^ e) else m * 10 ^ e) 0 s
      else
        match 10 ^ (- e) with
        | Zpos q => SFdiv prec64 emax64 (S754_finite s p 0) (S754_finite false q 0)
        | _ => S754_nan
        end
  | _ => S754_zero s
  end.

Definition lower (c : ascii) : ascii :=
  let n := N_of_ascii c in
  if ((65 <=? n) && (n <=? 90))%N then ascii_of_N (n + 32) else c.

Definition word_is (w : string) (cs : list ascii) : bool :=
  String.eqb (string_of_list_ascii (map lower cs)) w.

(** The exponent of a decimal literal: nothing, or [e], a sign and a
    digit part, up to the end of the string. *)
Definition exponent (cs : list ascii) : option Z :=
  match cs with
  | [] => Some 0
  | c :: cs' =>
      if Ascii.eqb (lower c) "e"%char then
        let '(neg, cs'') := sign cs' in
        match digitpart cs'' with
        | Some (z, _, []) => Some (if neg then - z else z)
        | _ => None
        end
      else None
  end.

(** A decimal literal [digits [. [digits]] [exponent]] or
    [. digits [exponent]], as mantissa and power of ten. *)
Definition decimal (cs : list ascii) : option (Z * Z) :=
  match digitpart cs with
  | Some (i, _, "."%char :: rest) =>
      match digitpart rest with
      | Some (fr, n, rest') =>
          match digits_tail i 0 rest with
          | (m, _, _) => e ← exponent rest'; Some (m, e - Z.of_nat n)
          end
      | None => e ← exponent rest; Some (i, e)
      end
  | Some (i, _, rest) => e ← exponent rest; Some (i, e)
  | None =>
      match cs with
      | "."%char :: rest =>
          match digitpart rest with
          | Some (fr, n, rest') => e ← exponent rest'; Some (fr, e - Z.of_nat n)
          | None => None
          end
      | _ => None
      end
  end.

(** [float(s)]. *)
Definition float_of_string (s : string) : option spec_float :=
  let '(neg, cs) := sign (PyStr.strip (list_ascii_of_string s)) in
  if word_is "inf" cs || word_is "infinity" cs then Some (S754_infinity neg)
  else if word_is "nan" cs then Some S754_nan
  else '(m, e) ← decimal cs; Some (float_of_decimal neg m e).

End PyNum.

(** [int(v)] as the dictionary comprehension applies it to a key. *)
Definition py_int (v : value) : result Z :=
  match v with
  | VInt z => Ok z
  | VBool b => Ok (if b then 1 else 0)
  | VStr s => match PyNum.int_of_string s with Some z => Ok z | None => Err ValueError end
  | VFloat f =>
      match PyNum.trunc f with
      | Some z => Ok z
      | None => Err (match f with S754_nan => ValueError | _ => OverflowError end)
      end
  | VNone | VList _ | VDict _ => Err TypeError
  end.

(** [float(v)]. *)
Definition py_float (v : value) : result spec_float :=
  match v with
  | VFloat f => Ok f
  | VInt z =>
      match PyNum.float_of_Z z with
      | S754_infinity _ => Err OverflowError
      | f => Ok f
      end
  | VBool b => Ok (PyNum.float_of_Z (if b then 1 else 0))
  | VStr s => match PyNum.float_of_string s with Some f => Ok f | None => Err ValueError end
  | VNone | VList _ | VDict _ => Err TypeError
  end.

(** ** Containers *)

(** [d[k]] for a string key [k] of a dictionary given as its items in
    insertion order; keys of a Python dictionary are pairwise distinct, so
    the first hit is the only one. *)
Fixpoint dict_lookup (k : string) (d : list (value * value)) : option value :=
  match d with
  | [] => None
  | (VStr k', v) :: d' => if String.eqb k' k then Some v else dict_lookup k d'
  | _ :: d' => dict_lookup k d'
  end.

(** The bound method [d.get]: attribute lookup fails on anything that is
    not a dictionary. *)
Definition py_get (d : value) : result (string → value → value) :=
  match d with
  | VDict items => Ok (λ k default, match dict_lookup k items with Some v => v | None => default end)
  | _ => Err AttributeError
  end.

Definition is_str (k : string) (v : value) : bool :=
  match v with VStr s => String.eqb s k | _ => false end.

(** [k in c] for a string [k]. *)
Definition py_contains (k : string) (c : value) : result bool :=
  match c with
  | VDict items => Ok (match dict_lookup k items with Some _ => true | None => false end)
  | VList l => Ok (existsb (is_str k) l)
  | VStr s => Ok (PyStr.contains k s)
  | VNone | VBool _ | VInt _ | VFloat _ => Err TypeError
  end.

(** [d.items()]. *)
Definition py_items (d : value) : result (list (value * value)) :=
  match d with
  | VDict items => Ok items
  | _ => Err AttributeError
  end.

(** [d[k] = v] on a dictionary with integer keys: an existing key keeps
    its place and takes the new value, a new key goes to the end. *)
Fixpoint int_dict_set (k : Z) (v : value) (d : list (Z * value)) : list (Z * value) :=
  match d with
  | [] => [(k, v)]
  | (k', v') :: d' => if k' =? k then (k', v) :: d' else (k', v') :: int_dict_set k v d'
  end.

(** [{int(key): value for (key, value) in items}], built left to right. *)
Fixpoint int_key_dict (items : list (value * value)) (acc : list (Z * value))
  : result (list (Z * value)) :=
  match items with
  | [] => Ok acc
  | (key, v) :: rest =>
      match py_int key with
      | Ok k => int_key_dict rest (int_dict_set k v acc)
      | Err e => Err e
      end
  end.

(** [sorted(items, key=lambda t: t[0])]: a stable sort on the key. *)
Fixpoint insert_by_key (x : Z * value) (l : list (Z * value)) : list (Z * value) :=
  match l with
  | [] => [x]
  | y :: l' => if x.1 <=? y.1 then x :: l else y :: insert_by_key x l'
  end.

Definition sorted_by_key (l : list (Z * value)) : list (Z * value) :=
  foldr insert_by_key [] l.

(** [dict(pairs)] for pairs with integer keys. *)
Definition int_dict (pairs : list (Z * value)) : value :=
  VDict (map (λ kv, (VInt kv.1, kv.2)) (foldl (λ d kv, int_dict_set kv.1 kv.2 d) [] pairs)).

(** ** Strategy objects *)

(** A name bound in the class of a strategy: a plain class attribute or a
    read-only property, given by the outcome of its getter.  The getter is
    taken not to depend on the attributes the resolver assigns. *)
Inductive class_attr : Type :=
| ClassValue (v : value)
| Property (fget : result value).

Record pyclass : Type := {
  __name__ : string;
  class_dict : gmap string class_attr;
  (** [getfullargspec(m).args] of the three inspected methods, [self]
      included. *)
  populate_indicators_args : list string;
  populate_buy_trend_args : list string;
  populate_sell_trend_args : list string
}.

Record IStrategy : Type := {
  __class__ : pyclass;
  __dict__ : gmap string value
}.

(** [getattr(strategy, a)]: a property of the class first, then the
    instance dictionary, then a plain class attribute. *)
Definition getattr (s : IStrategy) (a : string) : result value :=
  match class_dict (__class__ s) !! a with
  | Some (Property fget) => fget
  | other =>
      match __dict__ s !! a with
      | Some v => Ok v
      | None =>
          match other with
          | Some (ClassValue v) => Ok v
          | _ => Err AttributeError
          end
      end
  end.

(** [hasattr(strategy, a)] turns [AttributeError], and only it, into
    [False]. *)
Definition hasattr (s : IStrategy) (a : string) : result bool :=
  match getattr s a with
  | Ok _ => Ok true
  | Err AttributeError => Ok false
  | Err e => Err e
  end.

(** [setattr(strategy, a, v)]: a read-only property refuses the
    assignment, anything else lands in the instance dictionary. *)
Definition setattr (s : IStrategy) (a : string) (v : value) : result IStrategy :=
  match class_dict (__class__ s) !! a with
  | Some (Property _) => Err AttributeError
  | _ => Ok {| __class__ := __class__ s; __dict__ := <[a := v]> (__dict__ s) |}
  end.

(** [isinstance(getattr(type(strategy), a, None), property)]. *)
Definition is_property (s : IStrategy) (a : string) : bool :=
  match class_dict (__class__ s) !! a with
  | Some (Property _) => true
  | _ => false
  end.

(** ** State, log and the monad of the resolver *)

Inductive log_record : Type :=
| INFO_loading_base64
| WARNING_deprecated_ticker_interval
| INFO_override (attribute : string) (v : value)
| INFO_using (attribute : string) (v : value).

(** What lies outside the two objects: the log, the files written (path to
    text) and the temporary directories created, oldest first. *)
Record world : Type := {
  log : list log_record;
  files : gmap string string;
  tempdirs : list string
}.

Record state : Type := {
  config : gmap string value;
  outside : world
}.

Definition M (A : Type) : Type := state → result A * state.

Definition ret {A} (a : A) : M A := λ st, (Ok a, st).
Definition raise {A} (e : exn) : M A := λ st, (Err e, st).
Definition bind {A B} (m : M A) (f : A → M B) : M B :=
  λ st, match m st with
        | (Ok a, st') => f a st'
        | (Err e, st') => (Err e, st')
        end.
Definition lift {A} (r : result A) : M A :=
  λ st, (r, st).

(** The notations [x ← m; k] and [m;; k] of stdpp are used for [M]. *)
#[global] Instance M_ret : MRet M := @ret.
#[global] Instance M_bind : MBind M := λ A B f m, bind m f.

Definition get_config : M (gmap string value) := λ st, (Ok (config st), st).

Definition get_files : M (gmap string string) := λ st, (Ok (files (outside st)), st).

(** [config[k] = v]. *)
Definition set_config (k : string) (v : value) : M unit :=
  λ st, (Ok tt, {| config := <[k := v]> (config st); outside := outside st |}).

Definition on_world (f : world → world) : M unit :=
  λ st, (Ok tt, {| config := config st; outside := f (outside st) |}).

Definition logger (r : log_record) : M unit :=
  on_world (λ w, {| log := log w ++ [r]; files := files w; tempdirs := tempdirs w |}).

(** The components of a name as [pathlib] parses it: empty components
    and [.] are dropped, [..] is kept. *)
Definition path_parts (name : string) : list string :=
  List.filter (λ c, negb (String.eqb c "" || String.eqb c ".")) (PyStr.split "/" name).

Fixpoint leading_slashes (name : string) : nat :=
  match name with
  | String c rest => if Ascii.eqb c "/" then S (leading_slashes rest) else 0
  | EmptyString => 0
  end.

(** The root of a name: none for a relative name, [//] for exactly two
    leading slashes, [/] for any other number of them. *)
Definition path_root (name : string) : string :=
  match leading_slashes name with
  | 0%nat => ""
  | 2%nat => "//"
  | _ => "/"
  end.

Fixpoint join_parts (dir : string) (components : list string) : string :=
  match components with
  | [] => dir
  | c :: rest => join_parts (dir ++ "/" ++ c) rest
  end.

(** [str(Path(dir).joinpath(name))] for a directory in normal form: the
    components of a relative name follow the directory, an absolute name
    replaces it. *)
Definition joinpath (dir name : string) : string :=
  if String.eqb (path_root name) "" then join_parts dir (path_parts name)
  else match path_parts name with
       | [] => path_root name
       | c :: rest => join_parts (path_root name ++ c) rest
       end.

(** A name that leads out of the directory it is joined to: an absolute
    name, or one whose first component is [..]. *)
Definition leaves_directory (name : string) : bool :=
  negb (String.eqb (path_root name) "")
  || match path_parts name with
     | c :: _ => String.eqb c ".."
     | [] => false
     end.

(** [path.touch()] in a directory that exists: creates an empty file
    unless the path exists. *)
Definition touch (path : string) : M unit :=
  on_world (λ w, {| log := log w;
                    files := match files w !! path with
                             | Some _ => files w
                             | None => <[path := ""]> (files w)
                             end;
                    tempdirs := tempdirs w |}).

(** ** What the resolver imports

    The constants of [freqtrade.constants], the two methods inherited from
    [IResolver], the library calls whose result depends on the machine
    and the answers of its file system are not part of the module: the
    resolver is parametrised by them. *)
Class Imports : Type := {
  REQUIRED_ORDERTYPES : list string;
  REQUIRED_ORDERTIF : list string;
  USERPATH_STRATEGIES : string;
  (** [IResolver.build_search_paths(config, user_subdir, extra_dir)] *)
  build_search_paths : gmap string value → string → value → list string;
  (** [IResolver._load_object(paths, object_name, add_source, kwargs)]:
      the instance found on the paths, given the files present, or
      nothing. *)
  _load_object : gmap string string → list string → string → gmap string value → option IStrategy;
  (** [IResolver._load_object] for an [object_name] that is not a
      string. *)
  _load_object_other : gmap string string → list string → value → gmap string value
                       → option IStrategy;
  (** [tempfile.mkdtemp(suffix, prefix)]: the path of the new directory,
      given the ones created before; the directory is new, empty and the
      caller's own. *)
  mkdtemp : string → string → list string → string;
  (** [urlsafe_b64decode(s).decode('utf-8')] *)
  urlsafe_b64decode_utf8 : string → result string;
  (** The longest file name and the length no path reaches, in bytes
      ([NAME_MAX] and [PATH_MAX] of the file system). *)
  NAME_MAX : nat;
  PATH_MAX : nat;
  (** [open(path, "w")] for a path that leads out of the new directory:
      the exception of the machine, or none when it opens the file. *)
  open_elsewhere : string → option exn;
  (** [str(x)] for a value that is not a string. *)
  py_str : value → string
}.

(** ** Files *)

Section Files.

Context `{Imports}.

(** [open(dir.joinpath(name), "w")] for a directory that [mkdtemp] has
    just made; [None] when the file is opened.  A null byte is refused
    before the machine is asked; a path that leads out of the directory
    is the machine's to answer; a path or a component that is too long
    is refused; the directory itself cannot be written; a file directly
    in the directory is created; a file further below is not, for the new
    directory has no sub-directory. *)
Definition open_for_writing (dir name : string) : option exn :=
  let path := joinpath dir name in
  if PyStr.contains_char "000" path then Some ValueError
  else if leaves_directory name then open_elsewhere path
  else if (PATH_MAX <=? String.length path)%nat then Some OSError
  else match path_parts name with
       | [] => Some IsADirectoryError
       | c :: rest =>
           if (NAME_MAX <? String.length c)%nat then Some OSError
           else match rest with
                | [] => None
                | _ :: _ => Some FileNotFoundError
                end
       end.

(** [dir.joinpath(name).write_text(text)] creates or overwrites the file
    when it can be opened. *)
Definition write_text (dir name text : string) : M unit :=
  match open_for_writing dir name with
  | Some e => raise e
  | None =>
      on_world (λ w, {| log := log w;
                        files := <[joinpath dir name := text]> (files w);
                        tempdirs := tempdirs w |})
  end.

End Files.

(** ** The resolver *)

Section StrategyResolver.

Context `{Imports}.

(** The catalog of [load_strategy]: attribute name and default. *)
Definition attributes : list (string * value) :=
  [ ("minimal_roi",                     VDict [(VStr "0", VFloat (PyNum.float_of_Z 10))]);
    ("timeframe",                       VNone);
    ("stoploss",                        VNone);
    ("trailing_stop",                   VNone);
    ("trailing_stop_positive",          VNone);
    ("trailing_stop_positive_offset",   VFloat (S754_zero false));
    ("trailing_only_offset_is_reached", VNone);
    ("use_custom_stoploss",             VNone);
    ("process_only_new_candles",        VNone);
    ("order_types",                     VNone);
    ("order_time_in_force",             VNone);
    ("stake_currency",                  VNone);
    ("stake_amount",                    VNone);
    ("protections",                     VNone);
    ("startup_candle_count",            VNone);
    ("unfilledtimeout",                 VNone);
    ("use_sell_signal",                 VBool true);
    ("sell_profit_only",                VBool false);
    ("ignore_roi_if_buy_signal",        VBool false);
    ("sell_profit_offset",              VFloat (S754_zero false));
    ("disable_dataframe_checks",        VBool false);
    ("ignore_buying_expired_candle_after", VInt 0) ].

(** [_override_attribute_helper(strategy, config, attribute, default)];
    [config] is the dictionary of the state. *)
Definition _override_attribute_helper
    (strategy : IStrategy) (attribute : string) (default : value) : M IStrategy :=
  cfg ← get_config;
  match cfg !! attribute, is_property strategy attribute with
  | Some v, false =>
      strategy ← lift (setattr strategy attribute v);
      logger (INFO_override attribute v);;
      mret strategy
  | _, _ =>
      has ← lift (hasattr strategy attribute);
      if has : bool then
        val ← lift (getattr strategy attribute);
        (if is_None val then mret tt else set_config attribute val);;
        mret strategy
      else if negb (is_None default) then
        strategy ← lift (setattr strategy attribute default);
        set_config attribute default;;
        mret strategy
      else mret strategy
  end.

(** [_normalize_attributes(strategy)] *)
Definition _normalize_attributes (strategy : IStrategy) : result IStrategy :=
  has ← hasattr strategy "timeframe";
  strategy ←
    (if has : bool then
       tf ← getattr strategy "timeframe";
       setattr strategy "ticker_interval" tf
     else Ok strategy);
  has ← hasattr strategy "minimal_roi";
  strategy ←
    (if has : bool then
       roi ← getattr strategy "minimal_roi";
       items ← py_items roi;
       d ← int_key_dict items [];
       setattr strategy "minimal_roi" (int_dict (sorted_by_key d))
     else Ok strategy);
  has ← hasattr strategy "stoploss";
  if has : bool then
    sl ← getattr strategy "stoploss";
    f ← py_float sl;
    setattr strategy "stoploss" (VFloat f)
  else Ok strategy.

(** [all(k in strategy.<attr> for k in keys)]: the attribute is read
    once per key and the first miss ends the scan. *)
Fixpoint all_in (strategy : IStrategy) (attr : string) (keys : list string) : result bool :=
  match keys with
  | [] => Ok true
  | k :: keys' =>
      mapping ← getattr strategy attr;
      found ← py_contains k mapping;
      if found : bool then all_in strategy attr keys' else Ok false
  end.

(** [_strategy_sanity_validations(strategy)] *)
Definition _strategy_sanity_validations (strategy : IStrategy) : result unit :=
  complete ← all_in strategy "order_types" REQUIRED_ORDERTYPES;
  if negb complete then
    Err (ImportError ("Impossible to load Strategy '" ++ __name__ (__class__ strategy)
                      ++ "'. Order-types mapping is incomplete."))
  else
    complete ← all_in strategy "order_time_in_force" REQUIRED_ORDERTIF;
    if negb complete then
      Err (ImportError ("Impossible to load Strategy '" ++ __name__ (__class__ strategy)
                        ++ "'. Order-time-in-force mapping is incomplete."))
    else Ok tt.

(** [Path(tempfile.mkdtemp(suffix, prefix))] *)
Definition make_tempdir (suffix prefix : string) : M string :=
  λ st,
    let w := outside st in
    let temp := mkdtemp suffix prefix (tempdirs w) in
    (Ok temp,
     {| config := config st;
        outside := {| log := log w; files := files w;
                      tempdirs := (tempdirs w ++ [temp])%list |} |}).

(** Lines 180 to 194 of [_load_strategy]: a name with a colon may carry
    the source of the strategy.  Returns the name to look for and the
    search path. *)
Definition encoded_strategy (strategy_name : string) (abs_paths : list string)
  : M (string * list string) :=
  if PyStr.contains_char ":" strategy_name then
    logger INFO_loading_base64;;
    let strat := PyStr.split ":" strategy_name in
    if (length strat =? 2)%nat then
      match strat with
      | strat_0 :: strat_1 :: _ =>
          temp ← make_tempdir "freq" "strategy";
          let name := strat_0 ++ ".py" in
          text ← lift (urlsafe_b64decode_utf8 strat_1);
          write_text temp name text;;
          touch (joinpath temp "__init__.py");;
          mret (strat_0, temp :: abs_paths)
      | _ => mret (strategy_name, abs_paths)
      end
    else mret (strategy_name, abs_paths)
  else mret (strategy_name, abs_paths).

Definition fun_len (args : list string) : value := VInt (Z.of_nat (length args)).

(** [any(x == 2 for x in lens)] *)
Definition any_is_2 (lens : list value) : bool :=
  existsb (λ x, match x with VInt 2 => true | _ => false end) lens.

(** Lines 203 to 214 of [_load_strategy]: what is done to the object the
    loader found. *)
Definition infer_interface_version (strategy : IStrategy) : result IStrategy :=
  let c := __class__ strategy in
  strategy ← setattr strategy "_populate_fun_len" (fun_len (populate_indicators_args c));
  strategy ← setattr strategy "_buy_fun_len" (fun_len (populate_buy_trend_args c));
  strategy ← setattr strategy "_sell_fun_len" (fun_len (populate_sell_trend_args c));
  l1 ← getattr strategy "_populate_fun_len";
  l2 ← getattr strategy "_buy_fun_len";
  l3 ← getattr strategy "_sell_fun_len";
  if any_is_2 [l1; l2; l3] then setattr strategy "INTERFACE_VERSION" (VInt 1)
  else Ok strategy.

Definition not_found (strategy_name : string) : exn :=
  OperationalException
    ("Impossible to load Strategy '" ++ strategy_name
     ++ "'. This class does not exist or contains Python code errors.").

(** [_load_strategy(strategy_name, config, extra_dir)] for a name that
    is a string, as the annotation has it. *)
Definition _load_strategy (strategy_name : string) (extra_dir : value) : M IStrategy :=
  cfg ← get_config;
  let abs_paths := build_search_paths cfg USERPATH_STRATEGIES extra_dir in
  '(strategy_name, abs_paths) ← encoded_strategy strategy_name abs_paths;
  present ← get_files;
  cfg ← get_config;
  match _load_object present abs_paths strategy_name cfg with
  | Some strategy => lift (infer_interface_version strategy)
  | None => raise (not_found strategy_name)
  end.

(** Lines 176 to 219 of [_load_strategy] for a name that is not a
    string: the annotation is not enforced, and [load_strategy] passes
    what the configuration holds.  [":" in strategy_name] fails on a
    number; on a list or a dictionary it is a membership test, and when
    it holds the next line fails, for neither has [split]; otherwise the
    loader is asked for the name as it is. *)
Definition _load_strategy_other (strategy_name : value) (extra_dir : value) : M IStrategy :=
  cfg ← get_config;
  let abs_paths := build_search_paths cfg USERPATH_STRATEGIES extra_dir in
  has_colon ← lift (py_contains ":" strategy_name);
  (if has_colon : bool then
     logger INFO_loading_base64;;
     raise AttributeError
   else mret tt);;
  present ← get_files;
  cfg ← get_config;
  match _load_object_other present abs_paths strategy_name cfg with
  | Some strategy => lift (infer_interface_version strategy)
  | None => raise (not_found (py_str strategy_name))
  end.

(** Lines 48 to 54 of [load_strategy]. *)
Definition ticker_interval_compat (strategy : IStrategy) : M IStrategy :=
  has_ticker_interval ← lift (hasattr strategy "ticker_interval");
  lacks_timeframe ←
    (if has_ticker_interval : bool then
       has_timeframe ← lift (hasattr strategy "timeframe");
       mret (negb has_timeframe)
     else mret false);
  if lacks_timeframe : bool then
    cfg ← get_config;
    match cfg !! "timeframe" with
    | None =>
        logger WARNING_deprecated_ticker_interval;;
        ticker_interval ← lift (getattr strategy "ticker_interval");
        lift (setattr strategy "timeframe" ticker_interval)
    | Some _ => mret strategy
    end
  else mret strategy.

(** [strategy.<attr> = source.get(key, strategy.<attr>)] *)
Definition set_from (source : value) (key attr : string) (strategy : IStrategy)
  : result IStrategy :=
  get ← py_get source;
  current ← getattr strategy attr;
  setattr strategy attr (get key current).

(** Lines 56 to 69 of [load_strategy]: parameters from a hyperopt
    results file. *)
Definition params_from_file (strategy : IStrategy) : result IStrategy :=
  p ← getattr strategy "_ft_params_from_file";
  if truthy p then
    params ← getattr strategy "_ft_params_from_file";
    strategy ← set_from params "roi" "minimal_roi" strategy;
    get ← py_get params;
    strategy ← set_from (get "stoploss" (VDict [])) "stoploss" "stoploss" strategy;
    get ← py_get params;
    let trailing := get "trailing" (VDict []) in
    strategy ← set_from trailing "trailing_stop" "trailing_stop" strategy;
    strategy ← set_from trailing "trailing_stop_positive" "trailing_stop_positive" strategy;
    strategy ← set_from trailing "trailing_stop_positive_offset"
                        "trailing_stop_positive_offset" strategy;
    set_from trailing "trailing_only_offset_is_reached"
             "trailing_only_offset_is_reached" strategy
  else Ok strategy.

(** Lines 97 to 99: the override pass over a catalog. *)
Fixpoint override_attributes (attrs : list (string * value)) (strategy : IStrategy)
  : M IStrategy :=
  match attrs with
  | [] => mret strategy
  | (attribute, default) :: attrs' =>
      strategy ← _override_attribute_helper strategy attribute default;
      override_attributes attrs' strategy
  end.

(** Lines 102 to 104: the second loop, for the combined output. *)
Fixpoint log_attributes (attrs : list (string * value)) : M unit :=
  match attrs with
  | [] => mret tt
  | (attribute, _) :: attrs' =>
      cfg ← get_config;
      match cfg !! attribute with
      | Some v => logger (INFO_using attribute v)
      | None => mret tt
      end;;
      log_attributes attrs'
  end.

(** Lines 48 to 109 of [load_strategy]: what is done to the strategy once
    loaded. *)
Definition resolve_loaded (strategy : IStrategy) : M IStrategy :=
  strategy ← ticker_interval_compat strategy;
  strategy ← lift (params_from_file strategy);
  strategy ← override_attributes attributes strategy;
  log_attributes attributes;;
  strategy ← lift (_normalize_attributes strategy);
  lift (_strategy_sanity_validations strategy);;
  mret strategy.

Definition no_strategy_set : string :=
  "No strategy set. Please use `--strategy` to specify the strategy class to use.".

(** Lines 43 to 46 of [load_strategy]: [_load_strategy] is called with
    the name that the configuration holds, a string or not. *)
Definition loaded (strategy_name : value) (extra_dir : value) : M IStrategy :=
  match strategy_name with
  | VStr strategy_name => _load_strategy strategy_name extra_dir
  | _ => _load_strategy_other strategy_name extra_dir
  end.

(** The body of [load_strategy] on the dictionary [config or {}]. *)
Definition load_strategy_body : M IStrategy :=
  cfg ← get_config;
  match cfg !! "strategy" with
  | Some v =>
      if truthy v then
        let extra_dir := default VNone (cfg !! "strategy_path") in
        strategy ← loaded v extra_dir;
        resolve_loaded strategy
      else raise (OperationalException no_strategy_set)
  | None => raise (OperationalException no_strategy_set)
  end.

(** [load_strategy(config)]: [config] is a dictionary or [None]; the
    result comes with the dictionary as resolution leaves it. *)
Definition load_strategy (config : option (gmap string value)) (w : world)
  : result IStrategy * state :=
  load_strategy_body {| config := default ∅ config; outside := w |}.

End StrategyResolver.

(** ** Notions used in the statements *)

Implicit Types (a b name attribute : string) (s strategy : IStrategy) (v default : value).
Implicit Types (st : state) (cfg : gmap string value).

Definition with_log (r : log_record) (st : state) : state :=
  {| config := config st;
     outside := {| log := (log (outside st) ++ [r])%list;
                   files := files (outside st);
                   tempdirs := tempdirs (outside st) |} |}.

Definition params_attributes : list string :=
  [ "minimal_roi"; "stoploss"; "trailing_stop"; "trailing_stop_positive";
    "trailing_stop_positive_offset"; "trailing_only_offset_is_reached" ].

Definition trailing_attributes : list string :=
  [ "trailing_stop"; "trailing_stop_positive";
    "trailing_stop_positive_offset"; "trailing_only_offset_is_reached" ].

(** [d[key]] when [d] is a dictionary that has the key. *)
Definition entry_of (d : value) (key : string) : option value :=
  match d with
  | VDict items => dict_lookup key items
  | _ => None
  end.

(** The entry that the record of a results file holds for an attribute:
    [roi] for [minimal_roi], [stoploss] within [stoploss] for [stoploss],
    the name of the attribute within [trailing] for the four attributes
    of the trailing stop.  An empty record is not looked at. *)
Definition file_entry (params : value) (name : string) : option value :=
  if truthy params then
    if String.eqb name "minimal_roi" then entry_of params "roi"
    else if String.eqb name "stoploss" then
      entry_of params "stoploss" ≫= λ stoploss, entry_of stoploss "stoploss"
    else if bool_decide (name ∈ trailing_attributes) then
      entry_of params "trailing" ≫= λ trailing, entry_of trailing name
    else None
  else None.

(** The shape of the three assignments of [_normalize_attributes]:
    [if hasattr(s, src): s.dst = f(s.src)]. *)
Definition assign_if_present (src dst : string) (f : value → result value) s
  : result IStrategy :=
  has ← hasattr s src;
  if has : bool then
    v ← getattr s src;
    v' ← f v;
    setattr s dst v'
  else Ok s.

Definition roi_normal_form (roi : value) : result value :=
  items ← py_items roi;
  d ← int_key_dict items [];
  Ok (int_dict (sorted_by_key d)).

Definition stoploss_normal_form (sl : value) : result value :=
  f ← py_float sl;
  Ok (VFloat f).

(** What normalisation makes of the value of an attribute. *)
Definition normal_form (name : string) (v : value) : result value :=
  if String.eqb name "minimal_roi" then roi_normal_form v
  else if String.eqb name "stoploss" then stoploss_normal_form v
  else Ok v.

Definition has_key (d : list (value * value)) (k : string) : bool :=
  match dict_lookup k d with Some _ => true | None => false end.

(** A required key that the mapping lacks. *)
Definition missing_key (required : list string) (d : list (value * value)) : Prop :=
  ∃ k, k ∈ required ∧ dict_lookup k d = None.

Definition incomplete (s : IStrategy) (what : string) : exn :=
  ImportError ("Impossible to load Strategy '" ++ __name__ (__class__ s)
               ++ "'. " ++ what ++ " mapping is incomplete.").

(** A file name that a new directory [dir] takes: one component, no null
    byte in the path, within the limits of the file system. *)
Definition plain_file_name `{Imports} (dir file : string) : bool :=
  negb (PyStr.contains_char "/" file)
  && negb (PyStr.contains_char "000" (dir ++ "/" ++ file))
  && (String.length file <=? NAME_MAX)%nat
  && (String.length (dir ++ "/" ++ file) <? PATH_MAX)%nat.

(** The state once a source has been written: the directory, the module
    and the package marker (which the module is, for the name
    [__init__]). *)
Definition materialized (temp name text : string) (st : state) : state :=
  let w := outside st in
  let written := <[joinpath temp (name ++ ".py") := text]> (files w) in
  {| config := config st;
     outside := {| log := log w;
                   files := match written !! joinpath temp "__init__.py" with
                            | Some _ => written
                            | None => <[joinpath temp "__init__.py" := ""]> written
                            end;
                   tempdirs := (tempdirs w ++ [temp])%list |} |}.

(** The state when decoding or writing fails: the directory stays
    behind. *)
Definition with_tempdir (temp : string) (st : state) : state :=
  {| config := config st;
     outside := {| log := log (outside st); files := files (outside st);
                   tempdirs := (tempdirs (outside st) ++ [temp])%list |} |}.

(** Lines 48 to 106 of [load_strategy]: resolution up to validation. *)
Definition before_validation (strategy : IStrategy) : M IStrategy :=
  strategy ← ticker_interval_compat strategy;
  strategy ← lift (params_from_file strategy);
  strategy ← override_attributes attributes strategy;
  log_attributes attributes;;
  lift (_normalize_attributes strategy).

(** Two declared parameters: the old convention [(self, dataframe)]. *)
Definition two_args (args : list string) : bool := (length args =? 2)%nat.

Definition legacy_signature (c : pyclass) : bool :=
  two_args (populate_indicators_args c)
  || two_args (populate_buy_trend_args c)
  || two_args (populate_sell_trend_args c).

(** [a in config]. *)
Definition configured (st : state) (a : string) : bool :=
  match config st !! a with Some _ => true | None => false end.

(** What a run of the resolver leaves: an attribute of the strategy it
    returns, an entry of the configuration, the strategy itself. *)
Definition resolved_attr (r : result IStrategy * state) (a : string) : result value :=
  match r.1 with Ok s => getattr s a | Err e => Err e end.

Definition resolved_config (r : result IStrategy * state) (a : string) : option value :=
  config r.2 !! a.

Definition strategy_of (r : result IStrategy * state) (otherwise : IStrategy) : IStrategy :=
  match r.1 with Ok s => s | Err _ => otherwise end.

(** ** Notions used for the further properties *)

(** What a run may do to the state when it is confined to the entries
    [names] of the configuration: other entries keep their value, no entry
    disappears, no file is written, no directory is made, and the log only
    grows at its end. *)
Definition touches_only (names : list string) (st st' : state) : Prop :=
  (∀ b, b ∉ names → config st' !! b = config st !! b)
  ∧ (∀ k, is_Some (config st !! k) → is_Some (config st' !! k))
  ∧ files (outside st') = files (outside st)
  ∧ tempdirs (outside st') = tempdirs (outside st)
  ∧ ∃ l, log (outside st') = (log (outside st) ++ l)%list.

(** Every run of [m], failed or not, relates the states by [R]. *)
Definition every_run {A} (R : state → state → Prop) (m : M A) : Prop :=
  ∀ st r st', m st = (r, st') → R st st'.

(** The records of the second loop, for a configuration. *)
Definition using_records (cfg : gmap string value) (attrs : list (string * value))
  : list log_record :=
  omap (λ ad, INFO_using ad.1 <$> cfg !! ad.1) attrs.

(** The notices of the override pass, for a strategy and a configuration. *)
Definition override_records (s : IStrategy) (cfg : gmap string value)
    (attrs : list (string * value)) : list log_record :=
  omap (λ ad, if is_property s ad.1 then None else INFO_override ad.1 <$> cfg !! ad.1) attrs.

(** [d.get(k)] for a dictionary with integer keys. *)
Fixpoint int_dict_get (k : Z) (d : list (Z * value)) : option value :=
  match d with
  | [] => None
  | (k', v) :: d' => if k' =? k then Some v else int_dict_get k d'
  end.

(** The value of the last item whose key converts to [k], starting from
    [found]. *)
Definition last_for (k : Z) (found : option value) (items : list (value * value))
  : option value :=
  foldl (λ found kv, match py_int kv.1 with
                     | Ok k' => if k' =? k then Some kv.2 else found
                     | Err _ => found
                     end) found items.

(** A run of assignments [s.attr = source.get(key, s.attr)], given as
    triples of source, key and attribute. *)
Fixpoint set_all (assignments : list (value * string * string)) (s : IStrategy)
  : result IStrategy :=
  match assignments with
  | [] => Ok s
  | (source, key, attr) :: rest => s' ← set_from source key attr s; set_all rest s'
  end.


(** ** Sample strategies and imports, for the examples *)

Module Sample.

(** The constants as [freqtrade.constants] has them, a loader that knows
    its strategies by name, fixed answers for the library calls, the
    limits of a Linux file system, and a machine that lets nothing be
    written outside the new directory. *)
Definition imports (known : string → option IStrategy)
    (decode : string → result string) : Imports :=
  {| REQUIRED_ORDERTYPES := ["buy"; "sell"; "stoploss"; "stoploss_on_exchange"];
     REQUIRED_ORDERTIF := ["buy"; "sell"];
     USERPATH_STRATEGIES := "strategies";
     build_search_paths := λ _ user_subdir extra_dir,
       app (match extra_dir with VStr d => [d] | _ => [] end)
           ["user_data/" ++ user_subdir];
     _load_object := λ _ _ object_name _, known object_name;
     _load_object_other := λ _ _ _ _, None;
     mkdtemp := λ suffix prefix made,
       "/tmp/" ++ prefix ++ String (ascii_of_nat (97 + length made)) "" ++ suffix;
     urlsafe_b64decode_utf8 := decode;
     NAME_MAX := 255;
     PATH_MAX := 4096;
     open_elsewhere := λ _, Some PermissionError;
     py_str := λ _, "<object>" |}.

Definition no_decode : string → result string := λ _, Err ValueError.

Definition known_as (name : string) (s : IStrategy) : string → option IStrategy :=
  λ n, if String.eqb n name then Some s else None.

Definition order_types : value :=
  VDict [ (VStr "buy", VStr "limit"); (VStr "sell", VStr "limit");
          (VStr "stoploss", VStr "limit"); (VStr "stoploss_on_exchange", VBool false) ].

Definition order_time_in_force : value :=
  VDict [ (VStr "buy", VStr "gtc"); (VStr "sell", VStr "gtc") ].

Definition float_0_10 : spec_float := S754_finite false 7205759403792794 (-56).
Definition float_0_05 : spec_float := S754_finite false 7205759403792794 (-57).
Definition float_0_5 : spec_float := S754_finite false 4503599627370496 (-53).

(** A class in the current convention: three parameters everywhere. *)
Definition strategy_class (attrs : list (string * class_attr)) : pyclass :=
  {| __name__ := "SampleStrategy";
     class_dict := list_to_map attrs;
     populate_indicators_args := ["self"; "dataframe"; "metadata"];
     populate_buy_trend_args := ["self"; "dataframe"; "metadata"];
     populate_sell_trend_args := ["self"; "dataframe"; "metadata"] |}.

(** The class attributes of the samples, [timeframe] apart. *)
Definition common_attrs : list (string * class_attr) :=
  [ ("INTERFACE_VERSION", ClassValue (VInt 2));
    ("_ft_params_from_file", ClassValue (VDict []));
    ("minimal_roi", ClassValue (VDict [(VStr "0", VFloat float_0_10)]));
    ("stoploss", ClassValue (VFloat (S754_finite true 7205759403792794 (-56))));
    ("trailing_stop", ClassValue (VBool false));
    ("trailing_stop_positive", ClassValue VNone);
    ("trailing_stop_positive_offset", ClassValue (VFloat (S754_zero false)));
    ("trailing_only_offset_is_reached", ClassValue (VBool false));
    ("order_types", ClassValue order_types);
    ("order_time_in_force", ClassValue order_time_in_force) ].

Definition base_attrs : list (string * class_attr) :=
  ("timeframe", ClassValue (VStr "5m")) :: common_attrs.

(** A strategy of the old days: [ticker_interval] and no [timeframe]. *)
Definition legacy_attrs : list (string * class_attr) :=
  ("ticker_interval", ClassValue (VStr "5m")) :: common_attrs.

Definition instance (attrs : list (string * class_attr)) : IStrategy :=
  {| __class__ := strategy_class attrs; __dict__ := ∅ |}.

Definition nothing_outside : world := {| log := []; files := ∅; tempdirs := [] |}.

Definition minimal_roi_20_0 : value :=
  VDict [(VStr "20", VFloat float_0_05); (VStr "0", VFloat float_0_10)].

(** [{"strategy": "SampleStrategy"}] and more entries. *)
Definition config_with (entries : list (string * value)) : gmap string value :=
  list_to_map (("strategy", VStr "SampleStrategy") :: entries).

Definition imports_for (s : IStrategy) : Imports :=
  imports (known_as "SampleStrategy" s) no_decode.

(** Resolution of the one strategy the loader knows. *)
Definition resolve (s : IStrategy) (entries : list (string * value))
  : result IStrategy * state :=
  @load_strategy (imports_for s) (Some (config_with entries)) nothing_outside.

Definition initially (entries : list (string * value)) : state :=
  {| config := config_with entries; outside := nothing_outside |}.

(** Lines 48 to 109 on a strategy as loaded. *)
Definition resolve_as_loaded (s : IStrategy) (entries : list (string * value))
  : result IStrategy * state :=
  @resolve_loaded (imports_for s) s (initially entries).

(** A strategy that sets [use_sell_signal = None]. *)
Definition unset_sell_signal : IStrategy :=
  instance (("use_sell_signal", ClassValue VNone) :: base_attrs).

(** A strategy with [minimal_roi = {"0": 0.10}] that carries
    [{"roi": {"0": 0.5}}] from a results file. *)
Definition with_roi_from_file : IStrategy :=
  instance (("_ft_params_from_file",
             ClassValue (VDict [(VStr "roi", VDict [(VStr "0", VFloat float_0_5)])]))
            :: base_attrs).

Definition normalized (s : IStrategy) : IStrategy :=
  match _normalize_attributes s with Ok s' => s' | Err _ => s end.

(** A strategy whose [order_types] has no [stoploss_on_exchange]. *)
Definition lacking_stoploss_on_exchange : IStrategy :=
  instance (("order_types",
             ClassValue (VDict [ (VStr "buy", VStr "limit"); (VStr "sell", VStr "limit");
                                 (VStr "stoploss", VStr "limit") ]))
            :: base_attrs).

(** A strategy whose [populate_indicators] is written in the old
    convention. *)
Definition old_populate_indicators : IStrategy :=
  {| __class__ :=
       {| __name__ := "SampleStrategy";
          class_dict := list_to_map base_attrs;
          populate_indicators_args := ["self"; "dataframe"];
          populate_buy_trend_args := ["self"; "dataframe"; "metadata"];
          populate_sell_trend_args := ["self"; "dataframe"; "metadata"] |};
     __dict__ := ∅ |}.

Definition cooldown : value :=
  VList [VDict [(VStr "method", VStr "CooldownPeriod")]].

(** A strategy whose [protections] is a property. *)
Definition with_protections_property : IStrategy :=
  instance (("protections", Property (Ok cooldown)) :: base_attrs).

(** A strategy with [ticker_interval = "5m"] and no [timeframe]. *)
Definition legacy : IStrategy := instance legacy_attrs.

(** A strategy without [order_types]. *)
Definition without_order_types : IStrategy :=
  instance [ ("INTERFACE_VERSION", ClassValue (VInt 2));
             ("_ft_params_from_file", ClassValue (VDict []));
             ("order_time_in_force", ClassValue order_time_in_force) ].

(** A strategy that carries a full record from a results file. *)
Definition with_params_from_file : IStrategy :=
  instance (("_ft_params_from_file",
             ClassValue (VDict [ (VStr "roi", VDict [(VStr "0", VFloat float_0_5)]);
                                 (VStr "stoploss", VDict [(VStr "stoploss", VFloat float_0_05)]);
                                 (VStr "trailing", VDict [(VStr "trailing_stop", VBool true)]) ]))
            :: base_attrs).

(** Imports with a loader that finds nothing and a decoder that answers
    [pass]. *)
Definition imports_nothing_found : Imports := imports (λ _, None) (λ _, Ok "pass").

End Sample.

(** * Properties *)

(** ** Conversions on small inputs *)

Example py_int_of_strings :
  py_int (VStr "20") = Ok 20 ∧ py_int (VStr " +2_0 ") = Ok 20 ∧ py_int (VStr "-7") = Ok (-7)
  ∧ py_int (VStr "2__0") = Err ValueError ∧ py_int (VStr "") = Err ValueError
  ∧ py_int (VStr "0x10") = Err ValueError ∧ py_int VNone = Err TypeError.
Proof. by vm_compute. Qed.

Example py_int_of_numbers :
  py_int (VBool true) = Ok 1
  ∧ py_int (VFloat (PyNum.float_of_decimal true 15 (-1))) = Ok (-1)
  ∧ py_int (VFloat S754_nan) = Err ValueError
  ∧ py_int (VFloat (S754_infinity false)) = Err OverflowError.
Proof. by vm_compute. Qed.

Example py_float_of_strings :
  py_float (VStr "0.10") = Ok Sample.float_0_10
  ∧ py_float (VStr "0.05") = Ok Sample.float_0_05
  ∧ py_float (VStr ".5") = Ok Sample.float_0_5
  ∧ py_float (VStr "5e-1") = Ok Sample.float_0_5
  ∧ py_float (VStr "10.0") = Ok (PyNum.float_of_Z 10)
  ∧ py_float (VStr "-inf") = Ok (S754_infinity true)
  ∧ py_float (VStr "1e400") = Ok (S754_infinity false)
  ∧ py_float (VStr "2.5e-324") = Ok (S754_finite false 1 (-1074))
  ∧ py_float (VStr "1e") = Err ValueError
  ∧ py_float (VStr "1_.5") = Err ValueError.
Proof. by vm_compute. Qed.

Example py_float_of_numbers :
  py_float (VInt 9007199254740993) = Ok (S754_finite false 4503599627370496 1)
  ∧ py_float (VInt (10 ^ 400)) = Err OverflowError
  ∧ py_float (VBool false) = Ok (S754_zero false)
  ∧ py_float VNone = Err TypeError.
Proof. by vm_compute. Qed.

Example split_on_colon :
  PyStr.split ":" "a:b" = ["a"; "b"] ∧ PyStr.split ":" "abc" = ["abc"]
  ∧ PyStr.split ":" ":" = [""; ""] ∧ PyStr.split ":" "a:b:c" = ["a"; "b"; "c"].
Proof. by vm_compute. Qed.

Example sorted_roi :
  roi_normal_form Sample.minimal_roi_20_0
  = Ok (VDict [(VInt 0, VFloat Sample.float_0_10); (VInt 20, VFloat Sample.float_0_05)])
  ∧ roi_normal_form (VDict [(VStr "0", VInt 1); (VInt 0, VInt 2); (VStr "-5", VInt 3)])
    = Ok (VDict [(VInt (-5), VInt 3); (VInt 0, VInt 2)]).
Proof. by vm_compute. Qed.

(** ** The two monads *)

Lemma result_bind_Ok {A B} (f : A → result B) (r : result A) (y : B) :
  r ≫= f = Ok y → ∃ x, r = Ok x ∧ f x = Ok y.
Proof. destruct r as [x|e]; [ eauto | discriminate ]. Qed.

Lemma M_bind_Ok {A B} (m : M A) (f : A → M B) (st st' : state) (y : B) :
  (m ≫= f) st = (Ok y, st') → ∃ x st1, m st = (Ok x, st1) ∧ f x st1 = (Ok y, st').
Proof.
  unfold mbind, M_bind, bind. destruct (m st) as [[x|e] st1]; [ eauto | discriminate ].
Qed.

Lemma lift_Ok {A} (r : result A) (st st' : state) (x : A) :
  lift r st = (Ok x, st') → r = Ok x ∧ st' = st.
Proof. unfold lift. intros [= -> ->]. done. Qed.

Lemma mret_Ok {A} (x y : A) (st st' : state) :
  (mret x : M A) st = (Ok y, st') → y = x ∧ st' = st.
Proof. unfold mret, M_ret, ret. intros [= -> ->]. done. Qed.

(** Takes a successful run apart, one bind at a time. *)
Ltac inv_run H :=
  repeat match type of H with
    | (_ ≫= _) _ = (Ok _, _) =>
        let a := fresh "a" in let st := fresh "st" in let H1 := fresh "Hrun" in
        apply M_bind_Ok in H as (a & st & H1 & H);
        try (apply lift_Ok in H1 as [H1 ->])
    | _ ≫= _ = Ok _ =>
        let a := fresh "a" in let H1 := fresh "Hres" in
        apply result_bind_Ok in H as (a & H1 & H)
    | lift _ _ = (Ok _, _) => apply lift_Ok in H as [H ->]
    | mret _ _ = (Ok _, _) => apply mret_Ok in H as [-> ->]
    end.

(** Membership in a list that is written out. *)
Ltac in_list :=
  solve [ repeat first [ apply list_elem_of_here | apply list_elem_of_further ] ].

(** ** Attribute access *)

(** Two objects of one class that agree on the instance entry of [a]
    answer alike for [a]. *)
Definition same_attr (a : string) (s s' : IStrategy) : Prop :=
  __class__ s' = __class__ s ∧ __dict__ s' !! a = __dict__ s !! a.

Lemma same_attr_refl a s : same_attr a s s.
Proof. done. Qed.

Lemma same_attr_trans a s1 s2 s3 :
  same_attr a s1 s2 → same_attr a s2 s3 → same_attr a s1 s3.
Proof. intros [? ?] [? ?]. split; congruence. Qed.

Lemma same_attr_getattr a s s' : same_attr a s s' → getattr s' a = getattr s a.
Proof. intros [Hc Hd]. unfold getattr. by rewrite Hc, Hd. Qed.

Lemma same_attr_hasattr a s s' : same_attr a s s' → hasattr s' a = hasattr s a.
Proof. intros Hs. unfold hasattr. by rewrite (same_attr_getattr _ _ _ Hs). Qed.

Lemma same_attr_is_property a b s s' :
  __class__ s' = __class__ s → is_property s' b = is_property s b.
Proof. intros Hc. unfold is_property. by rewrite Hc. Qed.

Lemma setattr_Ok s a v s' :
  setattr s a v = Ok s' →
  is_property s a = false ∧ __class__ s' = __class__ s ∧ __dict__ s' = <[a := v]> (__dict__ s).
Proof.
  unfold setattr, is_property.
  destruct (class_dict (__class__ s) !! a) as [[?|?]|]; intros [= <-]; done.
Qed.

Lemma setattr_same_attr s a v s' b :
  setattr s a v = Ok s' → a ≠ b → same_attr b s s'.
Proof.
  intros (_ & Hc & Hd)%setattr_Ok Hne. split; [ done | ].
  rewrite Hd. by apply lookup_insert_ne.
Qed.

Lemma setattr_getattr s a v s' : setattr s a v = Ok s' → getattr s' a = Ok v.
Proof.
  intros (Hp & Hc & Hd)%setattr_Ok. unfold getattr, is_property in *.
  rewrite Hc, Hd, lookup_insert_eq.
  destruct (class_dict (__class__ s) !! a) as [[?|?]|]; done.
Qed.

Lemma not_property_setattr s a v :
  is_property s a = false → ∃ s', setattr s a v = Ok s'.
Proof.
  unfold is_property, setattr.
  destruct (class_dict (__class__ s) !! a) as [[?|?]|]; intros; eauto; discriminate.
Qed.

Lemma hasattr_true s a : hasattr s a = Ok true ↔ ∃ v, getattr s a = Ok v.
Proof.
  unfold hasattr. destruct (getattr s a) as [v|[]]; split; intros; eauto;
    try discriminate; destruct H as [? [=]].
Qed.

Lemma hasattr_false s a : hasattr s a = Ok false ↔ getattr s a = Err AttributeError.
Proof.
  unfold hasattr. destruct (getattr s a) as [v|[]]; split; intros; done.
Qed.

(** A property answers with its getter, whatever the instance holds. *)
Lemma getattr_property s a fget :
  class_dict (__class__ s) !! a = Some (Property fget) → getattr s a = fget.
Proof. unfold getattr. by intros ->. Qed.

Lemma value_None_cases v : v = VNone ∨ v ≠ VNone.
Proof. destruct v; auto. Qed.

Lemma exn_AttributeError_cases (e : exn) : e = AttributeError ∨ e ≠ AttributeError.
Proof. destruct e; auto. Qed.

(** ** One step of the override pass *)

(** The first branch: the configuration holds the name and the class has
    no property of that name. *)
Lemma helper_from_config s a default st v :
  config st !! a = Some v → is_property s a = false →
  ∃ s' st', _override_attribute_helper s a default st = (Ok s', st')
            ∧ setattr s a v = Ok s'
            ∧ config st' = config st
            ∧ log (outside st') = (log (outside st) ++ [INFO_override a v])%list.
Proof.
  intros Hcfg Hprop.
  destruct (not_property_setattr s a v Hprop) as [s' Hset].
  exists s'. eexists. unfold _override_attribute_helper, get_config.
  unfold mbind, M_bind, bind, lift. simpl. rewrite Hcfg, Hprop, Hset. simpl.
  repeat split; reflexivity.
Qed.

(** Outside the first branch the step is decided by what the instance
    exposes. *)
Lemma helper_not_from_config s a default st :
  config st !! a = None ∨ is_property s a = true →
  _override_attribute_helper s a default st =
    (has ← lift (hasattr s a);
     if has : bool then
       val ← lift (getattr s a);
       (if is_None val then mret tt else set_config a val);;
       mret s
     else if negb (is_None default) then
       s' ← lift (setattr s a default);
       set_config a default;;
       mret s'
     else mret s) st.
Proof.
  intros Hcase. unfold _override_attribute_helper at 1, get_config.
  unfold mbind at 1, M_bind at 1, bind at 1.
  destruct Hcase as [-> | ->]; [ reflexivity | ].
  by destruct (config st !! a).
Qed.

(** The second branch with a value: it is copied into the configuration. *)
Lemma helper_publish s a default st v :
  config st !! a = None ∨ is_property s a = true →
  getattr s a = Ok v → v ≠ VNone →
  _override_attribute_helper s a default st =
    (Ok s, {| config := <[a := v]> (config st); outside := outside st |}).
Proof.
  intros Hcase Hget Hv. rewrite helper_not_from_config by done.
  unfold hasattr, mbind, M_bind, bind, lift, set_config, mret, M_ret, ret.
  rewrite Hget. by destruct v.
Qed.

(** The second branch with [None]: nothing happens, the default is not
    consulted. *)
Lemma helper_explicit_None s a default st :
  config st !! a = None ∨ is_property s a = true →
  getattr s a = Ok VNone →
  _override_attribute_helper s a default st = (Ok s, st).
Proof.
  intros Hcase Hget. rewrite helper_not_from_config by done.
  unfold hasattr, mbind, M_bind, bind, lift, set_config, mret, M_ret, ret.
  by rewrite Hget.
Qed.

(** The third branch: a default that is not [None] goes to both. *)
Lemma helper_default s a default st s' st' :
  config st !! a = None ∨ is_property s a = true →
  hasattr s a = Ok false → default ≠ VNone →
  _override_attribute_helper s a default st = (Ok s', st') →
  setattr s a default = Ok s'
  ∧ st' = {| config := <[a := default]> (config st); outside := outside st |}.
Proof.
  intros Hcase Hhas Hd. rewrite helper_not_from_config by done.
  unfold mbind, M_bind, bind, lift, set_config, mret, M_ret, ret.
  rewrite Hhas. destruct default; try done; simpl;
    destruct (setattr s a _) as [s2|e]; intros [= <- <-]; done.
Qed.

(** No source at all: the attribute stays absent on both. *)
Lemma helper_absent s a st :
  config st !! a = None ∨ is_property s a = true →
  hasattr s a = Ok false →
  _override_attribute_helper s a VNone st = (Ok s, st).
Proof.
  intros Hcase Hhas. rewrite helper_not_from_config by done.
  unfold mbind, M_bind, bind, lift, set_config, mret, M_ret, ret.
  by rewrite Hhas.
Qed.

(** Every successful step is one of the four above. *)
Lemma helper_Ok s a default st s' st' :
  _override_attribute_helper s a default st = (Ok s', st') →
  (∃ v, config st !! a = Some v ∧ is_property s a = false
        ∧ setattr s a v = Ok s' ∧ config st' = config st)
  ∨ ((config st !! a = None ∨ is_property s a = true)
     ∧ ((∃ v, getattr s a = Ok v ∧ v ≠ VNone ∧ s' = s
              ∧ config st' = <[a := v]> (config st))
        ∨ (getattr s a = Ok VNone ∧ s' = s ∧ st' = st)
        ∨ (hasattr s a = Ok false ∧ default ≠ VNone ∧ setattr s a default = Ok s'
           ∧ config st' = <[a := default]> (config st))
        ∨ (hasattr s a = Ok false ∧ default = VNone ∧ s' = s ∧ st' = st))).
Proof.
  intros Hrun.
  assert (Hcases : (∃ v, config st !! a = Some v ∧ is_property s a = false)
                   ∨ (config st !! a = None ∨ is_property s a = true)).
  { destruct (config st !! a) as [v|]; [ | auto ].
    destruct (is_property s a); eauto. }
  destruct Hcases as [(v & Hcfg & Hprop) | Hcase].
  - left. exists v.
    destruct (helper_from_config s a default st v Hcfg Hprop)
      as (s2 & st2 & Hrun2 & Hset & Hc & _).
    rewrite Hrun in Hrun2. injection Hrun2 as <- <-. done.
  - right. split; [ done | ].
    destruct (getattr s a) as [v|e] eqn:Hget.
    + destruct (value_None_cases v) as [-> | Hv].
      * rewrite helper_explicit_None in Hrun by done.
        injection Hrun as <- <-. right. left. done.
      * rewrite (helper_publish _ _ _ _ v) in Hrun by done.
        injection Hrun as <- <-. left. exists v. done.
    + assert (Hhas : hasattr s a = match e with AttributeError => Ok false | _ => Err e end).
      { unfold hasattr. rewrite Hget. by destruct e. }
      destruct (exn_AttributeError_cases e) as [-> | He].
      * destruct (value_None_cases default) as [-> | Hd].
        -- rewrite helper_absent in Hrun by done. injection Hrun as <- <-.
           right. right. right. done.
        -- destruct (helper_default _ _ _ _ _ _ Hcase Hhas Hd Hrun) as [Hset ->].
           right. right. left. done.
      * rewrite helper_not_from_config in Hrun by done.
        unfold mbind, M_bind, bind, lift in Hrun. rewrite Hhas in Hrun.
        by destruct e.
Qed.

(** A step leaves every other name alone, on the object and in the
    configuration, and never changes the class. *)
Lemma helper_frame s a default st s' st' b :
  _override_attribute_helper s a default st = (Ok s', st') →
  a ≠ b →
  same_attr b s s' ∧ config st' !! b = config st !! b.
Proof.
  intros Hrun Hne.
  destruct (helper_Ok _ _ _ _ _ _ Hrun)
    as [(v & _ & _ & Hset & ->)
       | (_ & [(v & _ & _ & -> & ->) | [(_ & -> & ->) | [(_ & _ & Hset & ->) | (_ & _ & -> & ->)]]])].
  - split; [ by eapply setattr_same_attr | done ].
  - split; [ done | by apply lookup_insert_ne ].
  - done.
  - split; [ by eapply setattr_same_attr | by apply lookup_insert_ne ].
  - done.
Qed.

Lemma helper_class s a default st s' st' :
  _override_attribute_helper s a default st = (Ok s', st') →
  __class__ s' = __class__ s.
Proof.
  intros Hrun.
  destruct (helper_Ok _ _ _ _ _ _ Hrun)
    as [(v & _ & _ & Hset & _)
       | (_ & [(v & _ & _ & -> & _) | [(_ & -> & _) | [(_ & _ & Hset & _) | (_ & _ & -> & _)]]])];
    try done; by apply setattr_Ok in Hset as (_ & ? & _).
Qed.

(** ** The override pass *)

Lemma override_attributes_cons attribute default attrs s st :
  override_attributes ((attribute, default) :: attrs) s st =
    (s' ← _override_attribute_helper s attribute default;
     override_attributes attrs s') st.
Proof. reflexivity. Qed.

(** The pass leaves alone a name that is not in the catalog. *)
Lemma override_attributes_frame attrs s st s' st' b :
  b ∉ attrs.*1 →
  override_attributes attrs s st = (Ok s', st') →
  same_attr b s s' ∧ config st' !! b = config st !! b.
Proof.
  revert s st. induction attrs as [|[a d] attrs IH]; intros s st Hb Hrun.
  - apply mret_Ok in Hrun as [-> ->]. done.
  - rewrite override_attributes_cons in Hrun.
    apply M_bind_Ok in Hrun as (s1 & st1 & Hstep & Hrun).
    rewrite fmap_cons in Hb. apply not_elem_of_cons in Hb as [Hne Hb].
    simpl in Hne.
    destruct (helper_frame _ _ _ _ _ _ b Hstep) as [Hs1 Hc1]; [ done | ].
    destruct (IH _ _ Hb Hrun) as [Hs2 Hc2].
    split; [ by eapply same_attr_trans | by rewrite Hc2, Hc1 ].
Qed.

Lemma override_attributes_class attrs s st s' st' :
  override_attributes attrs s st = (Ok s', st') → __class__ s' = __class__ s.
Proof.
  revert s st. induction attrs as [|[a d] attrs IH]; intros s st Hrun.
  - apply mret_Ok in Hrun as [-> ->]. done.
  - rewrite override_attributes_cons in Hrun.
    apply M_bind_Ok in Hrun as (s1 & st1 & Hstep & Hrun).
    rewrite (IH _ _ Hrun). by eapply helper_class.
Qed.

(** With pairwise distinct names, what the pass does to a name of the
    catalog is what its own step does: the steps before and after leave
    the name alone. *)
Lemma override_attributes_focus attrs s st s' st' a default :
  NoDup attrs.*1 → (a, default) ∈ attrs →
  override_attributes attrs s st = (Ok s', st') →
  ∃ s1 st1 s2 st2,
    same_attr a s s1 ∧ config st1 !! a = config st !! a
    ∧ _override_attribute_helper s1 a default st1 = (Ok s2, st2)
    ∧ same_attr a s2 s' ∧ config st' !! a = config st2 !! a.
Proof.
  revert s st. induction attrs as [|[a0 d0] attrs IH]; intros s st Hnd Hin Hrun.
  - by apply elem_of_nil in Hin.
  - rewrite override_attributes_cons in Hrun.
    apply M_bind_Ok in Hrun as (s1 & st1 & Hstep & Hrun).
    rewrite fmap_cons in Hnd. apply NoDup_cons in Hnd as [Hfresh Hnd]. simpl in Hfresh.
    apply elem_of_cons in Hin as [[= <- <-] | Hin].
    + destruct (override_attributes_frame _ _ _ _ _ a Hfresh Hrun) as [Hs Hc].
      exists s, st, s1, st1. done.
    + assert (Hne : a0 ≠ a).
      { intros ->. apply Hfresh. apply list_elem_of_fmap. by exists (a, default). }
      destruct (helper_frame _ _ _ _ _ _ a Hstep Hne) as [Hs1 Hc1].
      destruct (IH _ _ Hnd Hin Hrun) as (s2 & st2 & s3 & st3 & Hs2 & Hc2 & Hstep2 & Hs3 & Hc3).
      exists s2, st2, s3, st3.
      split; [ by eapply same_attr_trans | ].
      split; [ by rewrite Hc2, Hc1 | done ].
Qed.

Lemma attributes_NoDup : NoDup attributes.*1.
Proof. apply (bool_decide_unpack _). by vm_compute. Qed.

(** ** The compatibility pass on [timeframe] *)

(** The pass acts in one combination: [ticker_interval] exposed,
    [timeframe] not exposed, no [timeframe] in the configuration. *)
Lemma ticker_interval_compat_acts s st v :
  getattr s "ticker_interval" = Ok v →
  hasattr s "timeframe" = Ok false →
  config st !! "timeframe" = None →
  ticker_interval_compat s st =
    (setattr s "timeframe" v, with_log WARNING_deprecated_ticker_interval st).
Proof.
  intros Hti Htf Hcfg. unfold ticker_interval_compat, hasattr.
  unfold mbind, M_bind, bind, lift, get_config, logger, on_world, mret, M_ret, ret.
  rewrite Hti. fold (hasattr s "timeframe"). rewrite Htf. simpl.
  rewrite Hcfg. reflexivity.
Qed.

Lemma ticker_interval_compat_no_ticker_interval s st :
  hasattr s "ticker_interval" = Ok false → ticker_interval_compat s st = (Ok s, st).
Proof.
  intros Hti. unfold ticker_interval_compat.
  unfold mbind, M_bind, bind, lift, mret, M_ret, ret. by rewrite Hti.
Qed.

Lemma ticker_interval_compat_has_timeframe s st :
  hasattr s "ticker_interval" = Ok true → hasattr s "timeframe" = Ok true →
  ticker_interval_compat s st = (Ok s, st).
Proof.
  intros Hti Htf. unfold ticker_interval_compat.
  unfold mbind, M_bind, bind, lift, mret, M_ret, ret. by rewrite Hti, Htf.
Qed.

Lemma ticker_interval_compat_configured s st v :
  hasattr s "ticker_interval" = Ok true → hasattr s "timeframe" = Ok false →
  config st !! "timeframe" = Some v →
  ticker_interval_compat s st = (Ok s, st).
Proof.
  intros Hti Htf Hcfg. unfold ticker_interval_compat.
  unfold mbind, M_bind, bind, lift, mret, M_ret, ret, get_config.
  rewrite Hti, Htf. simpl. by rewrite Hcfg.
Qed.

(** Every successful run: nothing happened, or [timeframe] was not exposed
    and has been assigned.  The configuration is never touched. *)
Lemma ticker_interval_compat_Ok s st s' st' :
  ticker_interval_compat s st = (Ok s', st') →
  config st' = config st
  ∧ (s' = s ∨ (hasattr s "timeframe" = Ok false ∧ ∃ v, setattr s "timeframe" v = Ok s')).
Proof.
  intros Hrun.
  destruct (hasattr s "ticker_interval") as [[]|e] eqn:Hti.
  - destruct (hasattr s "timeframe") as [[]|e] eqn:Htf.
    + rewrite ticker_interval_compat_has_timeframe in Hrun by done.
      injection Hrun as <- <-. auto.
    + destruct (config st !! "timeframe") as [v|] eqn:Hcfg.
      * rewrite (ticker_interval_compat_configured _ _ v) in Hrun by done.
        injection Hrun as <- <-. auto.
      * apply hasattr_true in Hti as [v Hti].
        rewrite (ticker_interval_compat_acts _ _ v) in Hrun by done.
        injection Hrun as Hset <-. split; [ done | right; eauto ].
    + unfold ticker_interval_compat, mbind, M_bind, bind, lift in Hrun.
      rewrite Hti, Htf in Hrun. discriminate.
  - rewrite ticker_interval_compat_no_ticker_interval in Hrun by done.
    injection Hrun as <- <-. auto.
  - unfold ticker_interval_compat, mbind, M_bind, bind, lift in Hrun.
    rewrite Hti in Hrun. discriminate.
Qed.

(** An attribute the instance does not expose stays as it is, unless it is
    [timeframe]; an exposed one stays as it is in any case. *)
Lemma ticker_interval_compat_frame s st s' st' b :
  ticker_interval_compat s st = (Ok s', st') →
  b ≠ "timeframe" ∨ hasattr s b = Ok true →
  same_attr b s s'.
Proof.
  intros (_ & [-> | (Htf & v & Hset)])%ticker_interval_compat_Ok Hb; [ done | ].
  destruct Hb as [Hb | Hb].
  - eapply setattr_same_attr; [ done | congruence ].
  - destruct (String.eqb_spec b "timeframe") as [-> | Hne].
    + congruence.
    + eapply setattr_same_attr; [ done | congruence ].
Qed.

(** ** Parameters from a results file *)

Lemma set_from_Ok source key attr s s' :
  set_from source key attr s = Ok s' →
  ∃ v, hasattr s attr = Ok true ∧ setattr s attr v = Ok s'.
Proof.
  unfold set_from. intros Hrun. inv_run Hrun.
  eexists. split; [ | done ]. apply hasattr_true. eauto.
Qed.

(** Assigning to an exposed attribute: an attribute that was not exposed,
    or that has another name, is not touched. *)
Lemma set_from_frame source key attr s s' b :
  set_from source key attr s = Ok s' →
  b ≠ attr ∨ hasattr s b = Ok false →
  same_attr b s s'.
Proof.
  intros (v & Hhas & Hset)%set_from_Ok Hb.
  eapply setattr_same_attr; [ done | ].
  destruct Hb as [Hb | Hb]; congruence.
Qed.

Lemma params_from_file_frame s s' b :
  params_from_file s = Ok s' →
  b ∉ params_attributes ∨ hasattr s b = Ok false →
  same_attr b s s'.
Proof.
  unfold params_from_file. intros Hrun Hb. inv_run Hrun.
  destruct (truthy a); [ | by injection Hrun as <- ].
  inv_run Hrun.
  assert (Hchain : ∀ src key attr s1 s2,
            attr ∈ params_attributes →
            set_from src key attr s1 = Ok s2 →
            same_attr b s s1 → same_attr b s s2).
  { intros src key attr s1 s2 Hattr Hs Hsame.
    eapply same_attr_trans; [ done | ].
    eapply set_from_frame; [ done | ].
    destruct Hb as [Hb | Hb].
    - left. intros ->. done.
    - right. by rewrite (same_attr_hasattr _ _ _ Hsame). }
  eapply Hchain; [ | exact Hrun | ]; [ in_list | ].
  eapply Hchain; [ | exact Hres7 | ]; [ in_list | ].
  eapply Hchain; [ | exact Hres6 | ]; [ in_list | ].
  eapply Hchain; [ | exact Hres5 | ]; [ in_list | ].
  eapply Hchain; [ | exact Hres3 | ]; [ in_list | ].
  eapply Hchain; [ | exact Hres1 | ]; [ in_list | ].
  done.
Qed.

(** Without a record there is nothing to apply. *)
Lemma params_from_file_none s p :
  getattr s "_ft_params_from_file" = Ok p → truthy p = false →
  params_from_file s = Ok s.
Proof. intros Hp Ht. unfold params_from_file. rewrite Hp. simpl. by rewrite Ht. Qed.

Lemma set_from_inv source key attr s s' :
  set_from source key attr s = Ok s' →
  ∃ get current, py_get source = Ok get ∧ getattr s attr = Ok current
                 ∧ setattr s attr (get key current) = Ok s'.
Proof. unfold set_from. intros Hrun. inv_run Hrun. eauto. Qed.

Lemma set_all_frame (assignments : list (value * string * string)) s s' b :
  set_all assignments s = Ok s' → b ∉ assignments.*2 → same_attr b s s'.
Proof.
  revert s. induction assignments as [|[[src key] attr] rest IH]; intros s Hrun Hb.
  - by injection Hrun as <-.
  - simpl in Hrun. inv_run Hrun. rewrite fmap_cons in Hb.
    apply not_elem_of_cons in Hb as [Hne Hb]. simpl in Hne.
    eapply same_attr_trans; [ | by eapply IH ].
    eapply set_from_frame; [ done | by left ].
Qed.

(** Each assignment of a run over distinct attributes reads the
    attribute as it was at the start and its result lasts to the end. *)
Lemma set_all_values (assignments : list (value * string * string)) s s' source key attr :
  NoDup assignments.*2 →
  set_all assignments s = Ok s' →
  (source, key, attr) ∈ assignments →
  ∃ get current, py_get source = Ok get ∧ getattr s attr = Ok current
                 ∧ is_property s attr = false
                 ∧ getattr s' attr = Ok (get key current).
Proof.
  revert s. induction assignments as [|[[src0 key0] attr0] rest IH]; intros s Hnd Hrun Hin.
  - by apply elem_of_nil in Hin.
  - simpl in Hrun. inv_run Hrun. rename a into s1.
    rewrite fmap_cons in Hnd. apply NoDup_cons in Hnd as [Hfresh Hnd]. simpl in Hfresh.
    apply elem_of_cons in Hin as [[= <- <- <-] | Hin].
    + apply set_from_inv in Hres as (get & current & Hget & Hcur & Hset).
      exists get, current. split_and!; [ done | done | by apply setattr_Ok in Hset as (? & _) | ].
      rewrite (same_attr_getattr _ _ _ (set_all_frame _ _ _ _ Hrun Hfresh)).
      by eapply setattr_getattr.
    + destruct (IH _ Hnd Hrun Hin) as (get & current & Hget & Hcur & Hprop & Hfinal).
      assert (Hne : attr0 ≠ attr).
      { intros ->. apply Hfresh. apply list_elem_of_fmap. by exists (source, key, attr). }
      assert (Hsame : same_attr attr s s1).
      { eapply set_from_frame; [ done | left; congruence ]. }
      exists get, current. split_and!; [ done | | | done ].
      * by rewrite <- (same_attr_getattr _ _ _ Hsame).
      * unfold is_property in *. destruct Hsame as [<- _]. done.
Qed.

Lemma params_from_file_set_all s params get :
  getattr s "_ft_params_from_file" = Ok params → truthy params = true →
  py_get params = Ok get →
  params_from_file s =
    set_all [ (params, "roi", "minimal_roi");
              (get "stoploss" (VDict []), "stoploss", "stoploss");
              (get "trailing" (VDict []), "trailing_stop", "trailing_stop");
              (get "trailing" (VDict []), "trailing_stop_positive", "trailing_stop_positive");
              (get "trailing" (VDict []), "trailing_stop_positive_offset",
               "trailing_stop_positive_offset");
              (get "trailing" (VDict []), "trailing_only_offset_is_reached",
               "trailing_only_offset_is_reached") ] s.
Proof.
  intros Hp Ht Hget. unfold params_from_file. rewrite Hp. simpl. rewrite Ht.
  destruct (set_from params "roi" "minimal_roi" s) as [s1|]; simpl; [ | done ].
  rewrite Hget. simpl.
  destruct (set_from _ "stoploss" "stoploss" s1) as [s2|]; simpl; [ | done ].
  destruct (set_from _ "trailing_stop" "trailing_stop" s2) as [s3|]; simpl; [ | done ].
  destruct (set_from _ "trailing_stop_positive" "trailing_stop_positive" s3) as [s4|];
    simpl; [ | done ].
  destruct (set_from _ "trailing_stop_positive_offset" _ s4) as [s5|]; simpl; [ | done ].
  by destruct (set_from _ "trailing_only_offset_is_reached" _ s5).
Qed.

Lemma py_get_entry d get key current :
  py_get d = Ok get → get key current = default current (entry_of d key).
Proof. destruct d; try discriminate. intros [= <-]. done. Qed.

Lemma file_entry_other params name : name ∉ params_attributes → file_entry params name = None.
Proof.
  intros Hnot. unfold file_entry. destruct (truthy params); [ | done ].
  destruct (String.eqb name "minimal_roi") eqn:Hroi.
  { apply String.eqb_eq in Hroi as ->. destruct Hnot. in_list. }
  destruct (String.eqb name "stoploss") eqn:Hsl.
  { apply String.eqb_eq in Hsl as ->. destruct Hnot. in_list. }
  case_bool_decide as Htr; [ | done ].
  destruct Hnot. unfold trailing_attributes in Htr. unfold params_attributes.
  by do 2 apply list_elem_of_further.
Qed.

(** What the overlay leaves in an attribute that the strategy exposes:
    the entry of the record for it, and the value it had when there is
    none. *)
Lemma params_from_file_value s s' name v :
  params_from_file s = Ok s' →
  getattr s name = Ok v →
  ∃ params, getattr s "_ft_params_from_file" = Ok params
            ∧ getattr s' name = Ok (default v (file_entry params name)).
Proof.
  intros Hrun Hget.
  destruct (getattr s "_ft_params_from_file") as [params|e] eqn:Hp;
    [ | unfold params_from_file in Hrun; rewrite Hp in Hrun; discriminate ].
  exists params. split; [ done | ].
  destruct (decide (name ∈ params_attributes)) as [Hin | Hnot].
  2:{ rewrite file_entry_other by done. simpl. rewrite <- Hget.
      apply same_attr_getattr. eapply params_from_file_frame; [ done | by left ]. }
  destruct (truthy params) eqn:Htruthy.
  2:{ rewrite (params_from_file_none _ _ Hp Htruthy) in Hrun. injection Hrun as <-.
      unfold file_entry. by rewrite Htruthy. }
  destruct (py_get params) as [get|e] eqn:Hpy.
  2:{ unfold params_from_file in Hrun. rewrite Hp in Hrun. simpl in Hrun.
      rewrite Htruthy in Hrun. simpl in Hrun. unfold set_from in Hrun.
      rewrite Hpy in Hrun. discriminate. }
  rewrite (params_from_file_set_all _ _ _ Hp Htruthy Hpy) in Hrun.
  match type of Hrun with set_all ?l _ = _ => set (assignments := l) in * end.
  assert (Hnd : NoDup assignments.*2) by (apply (bool_decide_unpack _); by vm_compute).
  assert (Hone : ∀ source key, (source, key, name) ∈ assignments →
            getattr s' name = Ok (default v (entry_of source key))).
  { intros source key Hmem.
    destruct (set_all_values _ _ _ _ _ _ Hnd Hrun Hmem)
      as (get' & current & Hget' & Hcur & _ & Hfinal).
    rewrite Hfinal, (py_get_entry _ _ _ _ Hget'). congruence. }
  assert (Hsub : ∀ key, entry_of params key ≫= (λ d, entry_of d name)
                        = entry_of (get key (VDict [])) name).
  { intros key. rewrite (py_get_entry _ _ _ _ Hpy).
    by destruct (entry_of params key). }
  unfold file_entry. rewrite Htruthy. unfold params_attributes in Hin.
  repeat (apply elem_of_cons in Hin as [-> | Hin]); [ .. | by apply elem_of_nil in Hin ];
    cbn [String.eqb Ascii.eqb Bool.eqb]; rewrite ?bool_decide_eq_true_2 by in_list;
    rewrite ?Hsub; apply Hone; subst assignments; in_list.
Qed.

(** ** The second loop *)

Lemma log_attributes_Ok attrs st :
  ∃ st', log_attributes attrs st = (Ok tt, st')
         ∧ config st' = config st
         ∧ files (outside st') = files (outside st)
         ∧ tempdirs (outside st') = tempdirs (outside st).
Proof.
  revert st. induction attrs as [|[a d] attrs IH]; intros st.
  - by exists st.
  - simpl. unfold mbind, M_bind, bind, get_config.
    destruct (config st !! a) as [v|]; simpl;
      match goal with
      | |- context [log_attributes attrs ?st1] =>
          destruct (IH st1) as (st' & -> & ? & ? & ?); by exists st'
      end.
Qed.

(** ** Rebuilding [minimal_roi] *)

Implicit Types (d acc : list (Z * value)) (items : list (value * value)).

Lemma int_dict_set_keys k v d :
  (int_dict_set k v d).*1 = if bool_decide (k ∈ d.*1) then d.*1 else (d.*1 ++ [k])%list.
Proof.
  induction d as [|[k' v'] d IH]; [ done | ]. cbn [int_dict_set].
  destruct (Z.eqb_spec k' k) as [-> | Hne]; rewrite !fmap_cons; cbn [fst].
  - rewrite bool_decide_eq_true_2 by apply list_elem_of_here. done.
  - rewrite IH. destruct (bool_decide_reflect (k ∈ d.*1)) as [Hin | Hin].
    + rewrite bool_decide_eq_true_2; [ done | by apply list_elem_of_further ].
    + rewrite bool_decide_eq_false_2; [ done | ].
      intros [?|?]%elem_of_cons; congruence.
Qed.

Lemma int_dict_set_NoDup k v d : NoDup d.*1 → NoDup (int_dict_set k v d).*1.
Proof.
  intros Hnd. rewrite int_dict_set_keys. case_bool_decide; [ done | ].
  apply NoDup_app. split_and!; [ done | | apply NoDup_singleton ].
  intros x Hx ->%list_elem_of_singleton. done.
Qed.

Lemma int_dict_set_fresh k v d : k ∉ d.*1 → int_dict_set k v d = (d ++ [(k, v)])%list.
Proof.
  induction d as [|[k' v'] d IH]; [ done | ]. simpl.
  intros [Hne Hin]%not_elem_of_cons.
  destruct (Z.eqb_spec k' k); [ congruence | ]. by rewrite IH.
Qed.

Lemma int_dict_set_elem k v d k' v' :
  (k', v') ∈ int_dict_set k v d → (k', v') = (k, v) ∨ (k', v') ∈ d.
Proof.
  induction d as [|[k0 v0] d IH]; simpl.
  - intros ->%list_elem_of_singleton. by left.
  - destruct (Z.eqb_spec k0 k) as [-> | Hne].
    + intros [-> | Hin]%elem_of_cons; [ by left | right; by apply list_elem_of_further ].
    + intros [-> | Hin]%elem_of_cons; [ right; apply list_elem_of_here | ].
      destruct (IH Hin); [ by left | right; by apply list_elem_of_further ].
Qed.

(** What the comprehension builds: distinct integer keys, each the
    conversion of a key of the source with the value of such a key, and no
    key of the source left out. *)
Lemma int_key_dict_Ok items acc d :
  int_key_dict items acc = Ok d →
  NoDup acc.*1 →
  NoDup d.*1
  ∧ (∀ k v, (k, v) ∈ d → (k, v) ∈ acc ∨ ∃ key, (key, v) ∈ items ∧ py_int key = Ok k)
  ∧ (∀ k, k ∈ acc.*1 → k ∈ d.*1)
  ∧ (∀ key v, (key, v) ∈ items → ∃ k, py_int key = Ok k ∧ k ∈ d.*1).
Proof.
  revert acc. induction items as [|[key v] items IH]; intros acc Hrun Hnd.
  - injection Hrun as <-.
    split_and!; [ done | by left | done | intros ?? []%elem_of_nil ].
  - simpl in Hrun. destruct (py_int key) as [k|e] eqn:Hk; [ | discriminate ].
    destruct (IH _ Hrun (int_dict_set_NoDup k v acc Hnd)) as (Hnd' & Hsrc & Hacc & Hall).
    assert (Hk_in : k ∈ (int_dict_set k v acc).*1).
    { rewrite int_dict_set_keys. case_bool_decide; [ done | ].
      apply elem_of_app. right. apply list_elem_of_here. }
    split_and!; [ done | | | ].
    + intros k' v' Hin. destruct (Hsrc _ _ Hin) as [Hset | (key' & Hin' & Hint)].
      * destruct (int_dict_set_elem _ _ _ _ _ Hset) as [[= -> ->] | ?]; [ | by left ].
        right. exists key. split; [ apply list_elem_of_here | done ].
      * right. exists key'. split; [ by apply list_elem_of_further | done ].
    + intros k' Hin. apply Hacc. rewrite int_dict_set_keys.
      case_bool_decide; [ done | ]. apply elem_of_app. by left.
    + intros key' v' [[= -> ->] | Hin]%elem_of_cons.
      * exists k. split; [ done | by apply Hacc ].
      * by eapply Hall.
Qed.

Lemma insert_by_key_Permutation x l : insert_by_key x l ≡ₚ x :: l.
Proof.
  induction l as [|y l IH]; [ done | ]. simpl.
  destruct (x.1 <=? y.1); [ done | ]. rewrite IH. apply Permutation_swap.
Qed.

Lemma sorted_by_key_Permutation l : sorted_by_key l ≡ₚ l.
Proof.
  induction l as [|x l IH]; [ done | ]. simpl.
  rewrite insert_by_key_Permutation. by rewrite IH.
Qed.

Lemma insert_by_key_sorted x l :
  StronglySorted Z.le l.*1 → StronglySorted Z.le (insert_by_key x l).*1.
Proof.
  induction l as [|y l IH]; intros Hs.
  - simpl. repeat constructor.
  - simpl. apply StronglySorted_inv in Hs as [Hs Hy].
    destruct (Z.leb_spec x.1 y.1) as [Hle | Hgt].
    + simpl. constructor; [ by constructor | ].
      constructor; [ done | ]. eapply Forall_impl; [ exact Hy | ]. simpl. lia.
    + simpl. constructor; [ by apply IH | ].
      assert (Hperm : (insert_by_key x l).*1 ≡ₚ x.1 :: l.*1).
      { by rewrite insert_by_key_Permutation. }
      rewrite Hperm. constructor; [ lia | done ].
Qed.

Lemma sorted_by_key_sorted l : StronglySorted Z.le (sorted_by_key l).*1.
Proof.
  induction l as [|x l IH]; [ constructor | ]. simpl. by apply insert_by_key_sorted.
Qed.

Lemma sorted_NoDup_strict (ks : list Z) :
  StronglySorted Z.le ks → NoDup ks → StronglySorted Z.lt ks.
Proof.
  induction ks as [|k ks IH]; [ constructor | ].
  intros [Hs Hk]%StronglySorted_inv [Hfresh Hnd]%NoDup_cons.
  constructor; [ by apply IH | ].
  rewrite Forall_forall in Hk |- *. intros k' Hin.
  assert (k ≤ k') by (apply Hk; done).
  assert (k ≠ k') by (intros ->; by apply Hfresh).
  lia.
Qed.

(** [dict(pairs)] keeps pairs with distinct keys as they come. *)
Lemma foldl_int_dict_set acc d :
  NoDup (acc.*1 ++ d.*1) →
  foldl (λ d kv, int_dict_set kv.1 kv.2 d) acc d = (acc ++ d)%list.
Proof.
  revert acc. induction d as [|[k v] d IH]; intros acc Hnd; simpl.
  - by rewrite app_nil_r.
  - rewrite int_dict_set_fresh.
    + rewrite IH; [ by rewrite <- app_assoc | ].
      rewrite fmap_app. simpl. by rewrite <- app_assoc.
    + apply NoDup_app in Hnd as (_ & Hdisj & _). intros Hin.
      apply (Hdisj k Hin). apply list_elem_of_here.
Qed.

Lemma int_dict_NoDup d :
  NoDup d.*1 → int_dict d = VDict (map (λ kv, (VInt kv.1, kv.2)) d).
Proof. intros Hnd. unfold int_dict. by rewrite foldl_int_dict_set. Qed.

(** ** Normalisation *)

Lemma _normalize_attributes_steps s :
  _normalize_attributes s =
    (s ← assign_if_present "timeframe" "ticker_interval" Ok s;
     s ← assign_if_present "minimal_roi" "minimal_roi" roi_normal_form s;
     assign_if_present "stoploss" "stoploss" stoploss_normal_form s).
Proof.
  unfold _normalize_attributes, assign_if_present, roi_normal_form, stoploss_normal_form.
  destruct (hasattr s "timeframe") as [[]|]; simpl; [ | | done ].
  - destruct (getattr s "timeframe") as [tf|]; simpl; [ | done ].
    destruct (setattr s "ticker_interval" tf) as [s1|]; simpl; [ | done ].
    destruct (hasattr s1 "minimal_roi") as [[]|]; simpl; [ | | done ].
    + destruct (getattr s1 "minimal_roi") as [roi|]; simpl; [ | done ].
      destruct (py_items roi) as [items|]; simpl; [ | done ].
      destruct (int_key_dict items []) as [d|]; simpl; [ | done ].
      destruct (setattr s1 "minimal_roi" _) as [s2|]; simpl; [ | done ].
      destruct (hasattr s2 "stoploss") as [[]|]; simpl; try done.
      destruct (getattr s2 "stoploss") as [sl|]; simpl; [ | done ].
      by destruct (py_float sl).
    + destruct (hasattr s1 "stoploss") as [[]|]; simpl; try done.
      destruct (getattr s1 "stoploss") as [sl|]; simpl; [ | done ].
      by destruct (py_float sl).
  - destruct (hasattr s "minimal_roi") as [[]|]; simpl; [ | | done ].
    + destruct (getattr s "minimal_roi") as [roi|]; simpl; [ | done ].
      destruct (py_items roi) as [items|]; simpl; [ | done ].
      destruct (int_key_dict items []) as [d|]; simpl; [ | done ].
      destruct (setattr s "minimal_roi" _) as [s2|]; simpl; [ | done ].
      destruct (hasattr s2 "stoploss") as [[]|]; simpl; try done.
      destruct (getattr s2 "stoploss") as [sl|]; simpl; [ | done ].
      by destruct (py_float sl).
    + destruct (hasattr s "stoploss") as [[]|]; simpl; try done.
      destruct (getattr s "stoploss") as [sl|]; simpl; [ | done ].
      by destruct (py_float sl).
Qed.

Lemma assign_if_present_Ok src dst f s s' :
  assign_if_present src dst f s = Ok s' →
  (hasattr s src = Ok false ∧ s' = s)
  ∨ (∃ v v', getattr s src = Ok v ∧ f v = Ok v' ∧ setattr s dst v' = Ok s').
Proof.
  unfold assign_if_present. intros Hrun. inv_run Hrun.
  destruct a.
  - inv_run Hrun. right. eauto.
  - injection Hrun as <-. by left.
Qed.

Lemma assign_if_present_frame src dst f s s' b :
  assign_if_present src dst f s = Ok s' → b ≠ dst → same_attr b s s'.
Proof.
  intros [[_ ->] | (v & v' & _ & _ & Hset)]%assign_if_present_Ok Hne; [ done | ].
  eapply setattr_same_attr; [ done | congruence ].
Qed.

Lemma assign_if_present_value a f s s' v :
  assign_if_present a a f s = Ok s' → getattr s a = Ok v →
  ∃ v', f v = Ok v' ∧ getattr s' a = Ok v'.
Proof.
  intros [[Hhas ->] | (v0 & v' & Hget & Hf & Hset)]%assign_if_present_Ok Hv.
  - apply hasattr_false in Hhas. congruence.
  - exists v'. split; [ congruence | by eapply setattr_getattr ].
Qed.

Lemma assign_if_present_absent a f s s' :
  assign_if_present a a f s = Ok s' → hasattr s a = Ok false → s' = s.
Proof.
  intros [[Hhas ->] | (v0 & v' & Hget & Hf & Hset)]%assign_if_present_Ok Hv; [ done | ].
  apply hasattr_false in Hv. congruence.
Qed.

(** After a successful normalisation an attribute other than
    [ticker_interval] holds the normal form of what it held. *)
Lemma _normalize_attributes_value s s' name v :
  _normalize_attributes s = Ok s' → name ≠ "ticker_interval" →
  getattr s name = Ok v →
  ∃ v', normal_form name v = Ok v' ∧ getattr s' name = Ok v'.
Proof.
  rewrite _normalize_attributes_steps. intros Hrun Hname Hget. inv_run Hrun.
  pose proof (assign_if_present_frame _ _ _ _ _ name Hres Hname) as H1.
  rewrite <- (same_attr_getattr _ _ _ H1) in Hget.
  unfold normal_form.
  destruct (String.eqb_spec name "minimal_roi") as [-> | Hroi].
  - destruct (assign_if_present_value _ _ _ _ _ Hres0 Hget) as (v' & Hf & Hget').
    exists v'. split; [ done | ].
    rewrite <- Hget'. apply same_attr_getattr.
    by eapply assign_if_present_frame.
  - pose proof (assign_if_present_frame _ _ _ _ _ name Hres0 Hroi) as H2.
    rewrite <- (same_attr_getattr _ _ _ H2) in Hget.
    destruct (String.eqb_spec name "stoploss") as [-> | Hsl].
    + by eapply assign_if_present_value.
    + exists v. split; [ done | ].
      rewrite <- Hget. apply same_attr_getattr. by eapply assign_if_present_frame.
Qed.

(** An attribute other than [ticker_interval] that is not exposed before
    normalisation is untouched by it. *)
Lemma _normalize_attributes_absent s s' name :
  _normalize_attributes s = Ok s' → name ≠ "ticker_interval" →
  hasattr s name = Ok false → same_attr name s s'.
Proof.
  rewrite _normalize_attributes_steps. intros Hrun Hname Hhas. inv_run Hrun.
  pose proof (assign_if_present_frame _ _ _ _ _ name Hres Hname) as H1.
  rewrite <- (same_attr_hasattr _ _ _ H1) in Hhas.
  assert (H2 : same_attr name a a0).
  { destruct (String.eqb_spec name "minimal_roi") as [-> | Hroi].
    - by rewrite (assign_if_present_absent _ _ _ _ Hres0 Hhas).
    - by eapply assign_if_present_frame. }
  rewrite <- (same_attr_hasattr _ _ _ H2) in Hhas.
  assert (H3 : same_attr name a0 s').
  { destruct (String.eqb_spec name "stoploss") as [-> | Hsl].
    - by rewrite (assign_if_present_absent _ _ _ _ Hrun Hhas).
    - by eapply assign_if_present_frame. }
  eauto using same_attr_trans.
Qed.

Lemma _normalize_attributes_class s s' :
  _normalize_attributes s = Ok s' → __class__ s' = __class__ s.
Proof.
  rewrite _normalize_attributes_steps. intros Hrun. inv_run Hrun.
  pose proof (assign_if_present_frame _ _ _ _ _ "" Hres) as [H1 _]; [ done | ].
  pose proof (assign_if_present_frame _ _ _ _ _ "" Hres0) as [H2 _]; [ done | ].
  pose proof (assign_if_present_frame _ _ _ _ _ "" Hrun) as [H3 _]; [ done | ].
  congruence.
Qed.

(** The comprehension goes through when every key converts. *)
Lemma int_key_dict_succeeds items acc :
  Forall (λ kv, ∃ k, py_int kv.1 = Ok k) items → ∃ d, int_key_dict items acc = Ok d.
Proof.
  intros Hall. revert acc. induction Hall as [|[key x] items [k Hk] _ IH]; intros acc.
  - by exists acc.
  - simpl in *. rewrite Hk. apply IH.
Qed.

Lemma assign_if_present_succeeds src dst f s v v' :
  getattr s src = Ok v → f v = Ok v' → is_property s dst = false →
  ∃ s', assign_if_present src dst f s = Ok s' ∧ setattr s dst v' = Ok s'.
Proof.
  intros Hget Hf Hprop. destruct (not_property_setattr s dst v' Hprop) as [s' Hset].
  exists s'. split; [ | done ].
  unfold assign_if_present, hasattr. rewrite Hget. simpl. rewrite Hf. simpl. done.
Qed.

(** Normalisation returns a strategy when [minimal_roi] is a dictionary
    whose keys all convert to integers, [stoploss] converts to a float,
    and none of the attributes it assigns is a property. *)
Lemma _normalize_attributes_succeeds s items sl f (has_timeframe : bool) :
  hasattr s "timeframe" = Ok has_timeframe →
  is_property s "ticker_interval" = false →
  is_property s "minimal_roi" = false →
  is_property s "stoploss" = false →
  getattr s "minimal_roi" = Ok (VDict items) →
  Forall (λ kv, ∃ k, py_int kv.1 = Ok k) items →
  getattr s "stoploss" = Ok sl →
  py_float sl = Ok f →
  ∃ s', _normalize_attributes s = Ok s'.
Proof.
  intros Htf Hp1 Hp2 Hp3 Hroi Hkeys Hsl Hf.
  rewrite _normalize_attributes_steps.
  assert (Hstep1 : ∃ s1, assign_if_present "timeframe" "ticker_interval" Ok s = Ok s1).
  { destruct has_timeframe.
    - apply hasattr_true in Htf as [tf Htf].
      destruct (assign_if_present_succeeds "timeframe" "ticker_interval" Ok s tf tf)
        as (s1 & Hs1 & _); eauto.
    - exists s. unfold assign_if_present. by rewrite Htf. }
  destruct Hstep1 as [s1 Hstep1]. rewrite Hstep1. simpl.
  pose proof (assign_if_present_frame _ _ _ _ _ "minimal_roi" Hstep1 ltac:(done)) as Hroi1.
  pose proof (assign_if_present_frame _ _ _ _ _ "stoploss" Hstep1 ltac:(done)) as Hsl1.
  destruct (int_key_dict_succeeds items [] Hkeys) as [d Hd].
  destruct (assign_if_present_succeeds "minimal_roi" "minimal_roi" roi_normal_form s1
              (VDict items) (int_dict (sorted_by_key d))) as (s2 & Hstep2 & _).
  { by rewrite (same_attr_getattr _ _ _ Hroi1). }
  { unfold roi_normal_form. simpl. by rewrite Hd. }
  { unfold is_property in *. destruct Hroi1 as [-> _]. done. }
  rewrite Hstep2. simpl.
  pose proof (assign_if_present_frame _ _ _ _ _ "stoploss" Hstep2 ltac:(done)) as Hsl2.
  destruct (assign_if_present_succeeds "stoploss" "stoploss" stoploss_normal_form s2
              sl (VFloat f)) as (s3 & Hstep3 & _).
  { by rewrite (same_attr_getattr _ _ _ Hsl2), (same_attr_getattr _ _ _ Hsl1). }
  { unfold stoploss_normal_form. by rewrite Hf. }
  { unfold is_property in *. destruct Hsl2 as [-> _], Hsl1 as [-> _]. done. }
  eauto.
Qed.

(** ** Validation *)

Lemma all_in_dict s attr (mapping : list (value * value)) (keys : list string) :
  getattr s attr = Ok (VDict mapping) →
  all_in s attr keys = Ok (forallb (has_key mapping) keys).
Proof.
  intros Hget. induction keys as [|k keys IH]; [ done | ].
  simpl. rewrite Hget. simpl. fold (has_key mapping k).
  destruct (has_key mapping k); [ exact IH | done ].
Qed.

Lemma forallb_has_key_false (required : list string) (m : list (value * value)) :
  forallb (has_key m) required = false ↔ missing_key required m.
Proof.
  unfold missing_key. induction required as [|k ks IH]; simpl.
  - split; [ done | ]. intros (k & []%elem_of_nil & _).
  - unfold has_key at 1. destruct (dict_lookup k m) as [v|] eqn:Hk; simpl.
    + rewrite IH. split.
      * intros (k' & Hin & Hnone). exists k'. split; [ by apply list_elem_of_further | done ].
      * intros (k' & [-> | Hin]%elem_of_cons & Hnone); [ congruence | eauto ].
    + split; [ | done ]. intros _. exists k. split; [ apply list_elem_of_here | done ].
Qed.

Lemma forallb_has_key_true (required : list string) (m : list (value * value)) :
  forallb (has_key m) required = true ↔ ¬ missing_key required m.
Proof.
  rewrite <- forallb_has_key_false. by destruct (forallb (has_key m) required).
Qed.

Section Validation.

Context `{Imports}.

(** Validation of a strategy whose two attributes are dictionaries. *)
Lemma _strategy_sanity_validations_dicts s (order_types order_time_in_force : list (value * value)) :
  getattr s "order_types" = Ok (VDict order_types) →
  getattr s "order_time_in_force" = Ok (VDict order_time_in_force) →
  _strategy_sanity_validations s =
    if negb (forallb (has_key order_types) REQUIRED_ORDERTYPES)
    then Err (incomplete s "Order-types")
    else if negb (forallb (has_key order_time_in_force) REQUIRED_ORDERTIF)
         then Err (incomplete s "Order-time-in-force")
         else Ok tt.
Proof.
  intros H1 H2. unfold _strategy_sanity_validations.
  rewrite (all_in_dict _ _ _ _ H1). simpl.
  destruct (forallb (has_key order_types) REQUIRED_ORDERTYPES); simpl; [ | done ].
  rewrite (all_in_dict _ _ _ _ H2). simpl.
  by destruct (forallb (has_key order_time_in_force) REQUIRED_ORDERTIF).
Qed.

(** ** Resolution, stage by stage *)

Lemma resolve_loaded_Ok s0 st0 s st :
  resolve_loaded s0 st0 = (Ok s, st) →
  ∃ s1 st1 s2 s3 st3,
    ticker_interval_compat s0 st0 = (Ok s1, st1)
    ∧ params_from_file s1 = Ok s2
    ∧ override_attributes attributes s2 st1 = (Ok s3, st3)
    ∧ config st = config st3
    ∧ _normalize_attributes s3 = Ok s
    ∧ _strategy_sanity_validations s = Ok tt.
Proof.
  unfold resolve_loaded. intros Hrun. inv_run Hrun.
  destruct (log_attributes_Ok attributes st2) as (st4 & Hlog & Hcfg & _).
  rewrite Hlog in Hrun3. injection Hrun3 as <- <-. destruct a4.
  exists a, st1, a0, a1, st2. done.
Qed.

Lemma attributes_not_ticker_interval name default :
  (name, default) ∈ attributes → name ≠ "ticker_interval".
Proof.
  intros Hin ->.
  assert (Hnot : "ticker_interval" ∉ attributes.*1) by (apply (bool_decide_unpack _); by vm_compute).
  apply Hnot. apply list_elem_of_fmap. by exists ("ticker_interval", default).
Qed.

End Validation.

(** ** Strategies given by their source *)

Lemma split_length sep str : length (PyStr.split sep str) = S (PyStr.count_char sep str).
Proof.
  induction str as [|c str IH]; [ done | ]. simpl.
  destruct (Ascii.eqb c sep); simpl; [ by rewrite IH | ].
  destruct (PyStr.split sep str); simpl in *; congruence.
Qed.

Lemma split_nonempty sep str : PyStr.split sep str ≠ [].
Proof.
  intros Heq. apply (f_equal length) in Heq. by rewrite split_length in Heq.
Qed.

Lemma split_one_part sep str part :
  PyStr.split sep str = [part] → str = part ∧ PyStr.contains_char sep part = false.
Proof.
  revert part. induction str as [|c str IH]; intros part; simpl.
  - by intros [= <-].
  - destruct (Ascii.eqb c sep) eqn:Hc.
    + intros [= _ Hrest]. by apply split_nonempty in Hrest.
    + destruct (PyStr.split sep str) as [|p ps] eqn:Hsplit; [ by apply split_nonempty in Hsplit | ].
      intros [= <- ->]. destruct (IH p eq_refl) as [-> Hno].
      split; [ done | ]. simpl. by rewrite Hc.
Qed.

Lemma split_two_parts sep str first second :
  PyStr.split sep str = [first; second] →
  str = first ++ String sep second
  ∧ PyStr.contains_char sep first = false
  ∧ PyStr.contains_char sep second = false.
Proof.
  revert first. induction str as [|c str IH]; intros first; simpl.
  - discriminate.
  - destruct (Ascii.eqb c sep) eqn:Hc.
    + intros [= <- Hrest]. apply Ascii.eqb_eq in Hc as ->.
      destruct (split_one_part _ _ _ Hrest) as [-> Hno]. done.
    + destruct (PyStr.split sep str) as [|p ps] eqn:Hsplit; [ by apply split_nonempty in Hsplit | ].
      intros [= <- ->]. destruct (IH p eq_refl) as (-> & Hp & Hsecond).
      split_and!; [ done | | done ]. simpl. by rewrite Hc.
Qed.

Lemma contains_char_count sep str :
  PyStr.contains_char sep str = negb (PyStr.count_char sep str =? 0)%nat.
Proof.
  induction str as [|c str IH]; [ done | ]. simpl.
  destruct (Ascii.eqb c sep); [ done | exact IH ].
Qed.

Lemma split_two_contains sep str first second :
  PyStr.split sep str = [first; second] → PyStr.contains_char sep str = true.
Proof.
  intros Hsplit. apply (f_equal length) in Hsplit. rewrite split_length in Hsplit.
  rewrite contains_char_count. simpl in Hsplit.
  by destruct (PyStr.count_char sep str).
Qed.

Lemma materialized_files temp name text st :
  files (outside (materialized temp name text st)) !! joinpath temp (name ++ ".py") = Some text
  ∧ is_Some (files (outside (materialized temp name text st)) !! joinpath temp "__init__.py").
Proof.
  unfold materialized. cbn [outside files].
  generalize (joinpath temp (name ++ ".py")) (joinpath temp "__init__.py").
  intros module marker.
  destruct (<[module := text]> (files (outside st)) !! marker) as [x|] eqn:Hmarker.
  - split; [ apply lookup_insert_eq | by rewrite Hmarker ].
  - split; [ | by rewrite lookup_insert_eq ].
    rewrite lookup_insert_ne; [ apply lookup_insert_eq | ].
    intros Heq. rewrite Heq, lookup_insert_eq in Hmarker. discriminate.
Qed.

Lemma split_of_two_parts sep first second :
  PyStr.contains_char sep first = false →
  PyStr.contains_char sep second = false →
  PyStr.split sep (first ++ String sep second) = [first; second].
Proof.
  intros Hfirst Hsecond. induction first as [|c first IH].
  - change ("" ++ String sep second) with (String sep second). simpl.
    rewrite Ascii.eqb_refl. f_equal. clear Hfirst.
    induction second as [|c second IH]; [ done | ]. simpl in *.
    destruct (Ascii.eqb c sep); [ done | ]. by rewrite IH.
  - change (String c first ++ String sep second) with (String c (first ++ String sep second)).
    simpl in *. destruct (Ascii.eqb c sep); [ done | ]. by rewrite IH.
Qed.

(** Splitting yields two parts exactly for the names [first:second] with
    no separator in either part. *)
Lemma split_two_parts_iff sep str first second :
  PyStr.split sep str = [first; second]
  ↔ str = first ++ String sep second
    ∧ PyStr.contains_char sep first = false
    ∧ PyStr.contains_char sep second = false.
Proof.
  split; [ apply split_two_parts | ].
  intros (-> & Hfirst & Hsecond). by apply split_of_two_parts.
Qed.

Lemma split_no_sep sep str : PyStr.contains_char sep str = false → PyStr.split sep str = [str].
Proof.
  induction str as [|c str IH]; [ done | ]. simpl.
  destruct (Ascii.eqb c sep); [ done | ]. intros Hno. by rewrite IH.
Qed.

Lemma string_app_cons (c : ascii) (s t : string) : String c s ++ t = String c (s ++ t).
Proof. done. Qed.

Lemma string_length_app (s t : string) :
  String.length (s ++ t) = (String.length s + String.length t)%nat.
Proof.
  induction s as [|c s IH]; [ done | ]. rewrite string_app_cons. simpl. by rewrite IH.
Qed.

Lemma string_app_inv_r (s t u : string) : s ++ u = t ++ u → s = t.
Proof.
  revert t. induction s as [|c s IH]; intros [|c' t] Heq.
  - done.
  - apply (f_equal String.length) in Heq. rewrite !string_length_app in Heq.
    simpl in Heq. lia.
  - apply (f_equal String.length) in Heq. rewrite !string_length_app in Heq.
    simpl in Heq. lia.
  - rewrite !string_app_cons in Heq. injection Heq as -> Heq. f_equal. by apply IH.
Qed.

Lemma contains_char_app sep (s t : string) :
  PyStr.contains_char sep (s ++ t) = PyStr.contains_char sep s || PyStr.contains_char sep t.
Proof.
  induction s as [|c s IH]; [ done | ]. rewrite string_app_cons. simpl.
  by destruct (Ascii.eqb c sep).
Qed.

(** ** Paths *)

(** A single component that is neither empty nor [.]: it is joined to the
    directory as it is. *)
Lemma joinpath_component dir file :
  PyStr.contains_char "/" file = false → file ≠ "" → file ≠ "." →
  path_root file = "" ∧ path_parts file = [file] ∧ joinpath dir file = dir ++ "/" ++ file.
Proof.
  intros Hno Hempty Hdot.
  assert (Hroot : path_root file = "").
  { unfold path_root. destruct file as [|c file]; [ done | ]. simpl in *.
    by destruct (Ascii.eqb c "/"). }
  assert (Hparts : path_parts file = [file]).
  { unfold path_parts. rewrite split_no_sep by done. simpl.
    apply String.eqb_neq in Hempty, Hdot. by rewrite Hempty, Hdot. }
  split_and!; [ done | done | ].
  unfold joinpath. by rewrite Hroot, Hparts.
Qed.

(** The module file of a name without a slash. *)
Lemma joinpath_module dir name :
  PyStr.contains_char "/" name = false →
  path_parts (name ++ ".py") = [name ++ ".py"]
  ∧ leaves_directory (name ++ ".py") = false
  ∧ joinpath dir (name ++ ".py") = dir ++ "/" ++ name ++ ".py".
Proof.
  intros Hno.
  assert (Hlen : (3 ≤ String.length (name ++ ".py"))%nat).
  { rewrite string_length_app. simpl. lia. }
  destruct (joinpath_component dir (name ++ ".py")) as (Hroot & Hparts & Hjoin).
  - rewrite contains_char_app, Hno. done.
  - intros Heq. rewrite Heq in Hlen. simpl in Hlen. lia.
  - intros Heq. rewrite Heq in Hlen. simpl in Hlen. lia.
  - split_and!; [ done | | done ].
    unfold leaves_directory. rewrite Hroot, Hparts. simpl.
    apply String.eqb_neq. intros Heq. rewrite Heq in Hlen. simpl in Hlen. lia.
Qed.

Lemma split_first sep first rest :
  PyStr.contains_char sep first = false →
  PyStr.split sep (first ++ String sep rest) = first :: PyStr.split sep rest.
Proof.
  intros Hfirst. induction first as [|c first IH].
  - change ("" ++ String sep rest) with (String sep rest). simpl. by rewrite Ascii.eqb_refl.
  - rewrite string_app_cons. simpl in *. destruct (Ascii.eqb c sep); [ done | ]. by rewrite IH.
Qed.

(** The last piece of a string that ends with a text without separator
    ends with that text. *)
Lemma split_last sep str ending :
  PyStr.contains_char sep ending = false →
  ∃ pieces piece, PyStr.split sep (str ++ ending) = (pieces ++ [piece +:+ ending])%list.
Proof.
  intros Hending. induction str as [|c str (pieces & piece & IH)].
  - exists [], "". by apply split_no_sep.
  - rewrite string_app_cons. simpl. rewrite IH. destruct (Ascii.eqb c sep).
    + by exists ("" :: pieces), piece.
    + destruct pieces as [|p pieces]; simpl.
      * by exists [], (String c piece).
      * by exists (String c p :: pieces), piece.
Qed.

(** A module name always has a last component. *)
Lemma path_parts_module name : path_parts (name ++ ".py") ≠ [].
Proof.
  unfold path_parts. destruct (split_last "/" name ".py" eq_refl) as (pieces & piece & ->).
  rewrite List.filter_app. simpl.
  assert (Hlen : (3 ≤ String.length (piece ++ ".py"))%nat).
  { rewrite string_length_app. simpl. lia. }
  assert (Hempty : String.eqb (piece ++ ".py") "" = false).
  { apply String.eqb_neq. intros Heq. rewrite Heq in Hlen. simpl in Hlen. lia. }
  assert (Hdot : String.eqb (piece ++ ".py") "." = false).
  { apply String.eqb_neq. intros Heq. rewrite Heq in Hlen. simpl in Hlen. lia. }
  rewrite Hempty, Hdot. simpl. by destruct (List.filter _ pieces).
Qed.

(** A name that starts with a component of its own and goes on after a
    slash. *)
Lemma path_parts_below sub rest :
  PyStr.contains_char "/" sub = false → sub ≠ "" → sub ≠ "." →
  path_root (sub ++ String "/" rest) = ""
  ∧ path_parts (sub ++ String "/" rest) = sub :: path_parts rest.
Proof.
  intros Hno Hempty Hdot. split.
  - unfold path_root. destruct sub as [|c sub]; [ done | ]. rewrite string_app_cons.
    simpl in *. by destruct (Ascii.eqb c "/").
  - unfold path_parts. rewrite split_first by done. simpl.
    apply String.eqb_neq in Hempty, Hdot. by rewrite Hempty, Hdot.
Qed.

Lemma string_app_assoc (s t u : string) : (s ++ t) ++ u = s ++ t ++ u.
Proof.
  induction s as [|c s IH]; [ done | ]. rewrite !string_app_cons. by rewrite IH.
Qed.

Lemma joinpath_marker dir : joinpath dir "__init__.py" = dir ++ "/__init__.py".
Proof. done. Qed.

(** The module is the marker for the name [__init__] only. *)
Lemma module_is_marker dir name :
  dir ++ "/" ++ name ++ ".py" = dir ++ "/__init__.py" → name = "__init__".
Proof.
  intros Heq. apply (inj (String.app dir)) in Heq.
  change ("/" ++ name ++ ".py") with (String "/" (name ++ ".py")) in Heq.
  change ("/__init__.py") with (String "/" ("__init__" ++ ".py")) in Heq.
  injection Heq as Heq. by apply string_app_inv_r in Heq.
Qed.

Section Loading.

Context `{Imports}.

Lemma encoded_strategy_plain nm paths st :
  PyStr.contains_char ":" nm = false →
  encoded_strategy nm paths st = (Ok (nm, paths), st).
Proof. intros Hc. unfold encoded_strategy. by rewrite Hc. Qed.

Lemma encoded_strategy_other_count nm paths st :
  PyStr.contains_char ":" nm = true →
  length (PyStr.split ":" nm) ≠ 2%nat →
  encoded_strategy nm paths st = (Ok (nm, paths), with_log INFO_loading_base64 st).
Proof.
  intros Hc Hlen. unfold encoded_strategy. rewrite Hc.
  apply Nat.eqb_neq in Hlen.
  unfold mbind, M_bind, bind, logger, on_world. simpl. by rewrite Hlen.
Qed.

Lemma encoded_strategy_two_parts nm paths st name payload :
  PyStr.contains_char ":" nm = true →
  PyStr.split ":" nm = [name; payload] →
  let st1 := with_log INFO_loading_base64 st in
  let temp := mkdtemp "freq" "strategy" (tempdirs (outside st)) in
  encoded_strategy nm paths st =
    match urlsafe_b64decode_utf8 payload with
    | Ok text =>
        match open_for_writing temp (name ++ ".py") with
        | None => (Ok (name, temp :: paths), materialized temp name text st1)
        | Some e => (Err e, with_tempdir temp st1)
        end
    | Err e => (Err e, with_tempdir temp st1)
    end.
Proof.
  intros Hc Hsplit. unfold encoded_strategy. rewrite Hc, Hsplit.
  unfold mbind, M_bind, bind, logger, on_world, make_tempdir, lift,
    write_text, touch, mret, M_ret, ret. cbn [length Nat.eqb outside tempdirs config].
  destruct (urlsafe_b64decode_utf8 payload) as [text|e]; [ | done ].
  by destruct (open_for_writing _ (name ++ ".py")).
Qed.

(** A plain file name is written: the module lands directly in the new
    directory. *)
Lemma open_for_writing_plain dir name :
  plain_file_name dir (name ++ ".py") = true →
  open_for_writing dir (name ++ ".py") = None
  ∧ joinpath dir (name ++ ".py") = dir ++ "/" ++ name ++ ".py".
Proof.
  unfold plain_file_name. intros Hplain.
  apply andb_prop in Hplain as [Hplain Hpath%Nat.ltb_lt].
  apply andb_prop in Hplain as [Hplain Hname%Nat.leb_le].
  apply andb_prop in Hplain as [Hslash%negb_true_iff Hnull%negb_true_iff].
  assert (Hno : PyStr.contains_char "/" name = false).
  { rewrite contains_char_app in Hslash. by apply orb_false_elim in Hslash as [? _]. }
  destruct (joinpath_module dir name Hno) as (Hparts & Hleaves & Hjoin).
  split; [ | done ].
  unfold open_for_writing. rewrite Hjoin, Hleaves, Hparts.
  change (dir ++ "/" ++ name ++ ".py") with (dir ++ "/" ++ (name ++ ".py")).
  rewrite Hnull.
  replace (PATH_MAX <=? String.length (dir ++ "/" ++ (name ++ ".py")))%nat with false
    by (symmetry; apply Nat.leb_gt; done).
  replace (NAME_MAX <? String.length (name ++ ".py"))%nat with false
    by (symmetry; apply Nat.ltb_ge; done).
  done.
Qed.

(** A module below a sub-directory is not written: the new directory
    has none. *)
Lemma open_for_writing_below dir sub rest :
  PyStr.contains_char "/" sub = false →
  sub ≠ "" → sub ≠ "." → sub ≠ ".." →
  (String.length sub ≤ NAME_MAX)%nat →
  let path := joinpath dir ((sub ++ "/" ++ rest) ++ ".py") in
  PyStr.contains_char "000" path = false →
  (String.length path < PATH_MAX)%nat →
  open_for_writing dir ((sub ++ "/" ++ rest) ++ ".py") = Some FileNotFoundError.
Proof.
  intros Hno Hempty Hdot Hdots Hname path Hnull Hpath.
  unfold open_for_writing. fold path. rewrite Hnull.
  assert (Hshape : (sub ++ "/" ++ rest) ++ ".py" = sub ++ String "/" (rest ++ ".py")).
  { by rewrite string_app_assoc. }
  destruct (path_parts_below sub (rest ++ ".py") Hno Hempty Hdot) as [Hroot Hparts].
  rewrite <- Hshape in Hroot, Hparts.
  unfold leaves_directory. rewrite Hroot, Hparts. simpl.
  apply String.eqb_neq in Hdots. rewrite Hdots.
  replace (PATH_MAX <=? String.length path)%nat with false
    by (symmetry; apply Nat.leb_gt; done).
  replace (NAME_MAX <? String.length sub)%nat with false
    by (symmetry; apply Nat.ltb_ge; done).
  pose proof (path_parts_module rest) as Hlast.
  by destruct (path_parts (rest ++ ".py")).
Qed.

(** The files once the module and the marker are there. *)
Lemma materialized_plain temp name text st :
  let module := joinpath temp (name ++ ".py") in
  let marker := joinpath temp "__init__.py" in
  let st' := materialized temp name text st in
  files (outside st') !! module = Some text
  ∧ is_Some (files (outside st') !! marker)
  ∧ (files (outside st) !! marker = None → module ≠ marker →
     files (outside st') !! marker = Some "")
  ∧ (∀ p, p ≠ module → p ≠ marker → files (outside st') !! p = files (outside st) !! p)
  ∧ tempdirs (outside st') = (tempdirs (outside st) ++ [temp])%list
  ∧ log (outside st') = log (outside st)
  ∧ config st' = config st.
Proof.
  intros module marker st'.
  destruct (materialized_files temp name text st) as [Hmodule Hmarker].
  split_and!; try done.
  - intros Hfresh Hne. unfold st', materialized. cbn [outside files].
    fold module marker. rewrite lookup_insert_ne by done. rewrite Hfresh.
    apply lookup_insert_eq.
  - intros p Hmod Hmark. unfold st', materialized. cbn [outside files].
    fold module marker.
    destruct (<[module:=text]> (files (outside st)) !! marker);
      rewrite ?lookup_insert_ne by done; done.
Qed.

Lemma encoded_strategy_config nm paths st r st' :
  encoded_strategy nm paths st = (r, st') → config st' = config st.
Proof.
  destruct (PyStr.contains_char ":" nm) eqn:Hc.
  - destruct (PyStr.split ":" nm) as [|name [|payload [|more rest]]] eqn:Hsplit.
    + rewrite encoded_strategy_other_count by (rewrite ?Hsplit; done). by intros [= <- <-].
    + rewrite encoded_strategy_other_count by (rewrite ?Hsplit; done). by intros [= <- <-].
    + rewrite (encoded_strategy_two_parts _ _ _ name payload) by done.
      destruct (urlsafe_b64decode_utf8 payload); [ destruct (open_for_writing _ _) | ];
        by intros [= <- <-].
    + rewrite encoded_strategy_other_count by (rewrite ?Hsplit; done). by intros [= <- <-].
  - rewrite encoded_strategy_plain by done. by intros [= <- <-].
Qed.

(** A successful load: the loader found an object for the name and the
    path that the name yields, and the rest is done to that object. *)
Lemma _load_strategy_Ok nm extra_dir st s st' :
  _load_strategy nm extra_dir st = (Ok s, st') →
  config st' = config st
  ∧ ∃ nm' paths s0,
      encoded_strategy nm (build_search_paths (config st) USERPATH_STRATEGIES extra_dir) st
        = (Ok (nm', paths), st')
      ∧ _load_object (files (outside st')) paths nm' (config st') = Some s0
      ∧ infer_interface_version s0 = Ok s.
Proof.
  unfold _load_strategy, get_config, get_files. intros Hrun.
  apply M_bind_Ok in Hrun as (cfg & st1 & [= <- <-] & Hrun).
  apply M_bind_Ok in Hrun as ([nm' paths] & st1 & Henc & Hrun).
  apply M_bind_Ok in Hrun as (present & st2 & [= <- <-] & Hrun).
  apply M_bind_Ok in Hrun as (cfg & st2 & [= <- <-] & Hrun).
  destruct (_load_object _ paths nm' _) as [s0|] eqn:Hload; [ | discriminate ].
  apply lift_Ok in Hrun as [Hrun ->].
  split; [ by eapply encoded_strategy_config | ].
  exists nm', paths, s0. done.
Qed.

(** Nothing found: the resolution failure names the name looked for. *)
Lemma _load_strategy_not_found nm extra_dir st nm' paths st' :
  encoded_strategy nm (build_search_paths (config st) USERPATH_STRATEGIES extra_dir) st
    = (Ok (nm', paths), st') →
  _load_object (files (outside st')) paths nm' (config st') = None →
  _load_strategy nm extra_dir st = (Err (not_found nm'), st').
Proof.
  intros Henc Hload. unfold _load_strategy, get_config, get_files.
  unfold mbind, M_bind, bind. rewrite Henc, Hload. reflexivity.
Qed.

(** A name that is not a string: whatever the outcome, nothing but the
    log changes, and the log at most by the one line. *)
Lemma _load_strategy_other_outcome v extra_dir st (r : result IStrategy) st' :
  _load_strategy_other v extra_dir st = (r, st') →
  st' = st ∨ (st' = with_log INFO_loading_base64 st ∧ r = Err AttributeError).
Proof.
  unfold _load_strategy_other, get_config, get_files.
  unfold mbind, M_bind, bind, lift, logger, on_world, raise, mret, M_ret, ret.
  destruct (py_contains ":" v) as [[|]|e]; simpl.
  - intros [= <- <-]. by right.
  - destruct (_load_object_other _ _ _ _); intros [= <- <-]; by left.
  - intros [= <- <-]. by left.
Qed.

Lemma load_strategy_Ok (c : option (gmap string value)) w s st :
  load_strategy c w = (Ok s, st) →
  ∃ cfg v s0 st0,
    c = Some cfg ∧ cfg !! "strategy" = Some v ∧ truthy v = true
    ∧ loaded v (default VNone (cfg !! "strategy_path"))
        {| config := cfg; outside := w |} = (Ok s0, st0)
    ∧ config st0 = cfg
    ∧ resolve_loaded s0 st0 = (Ok s, st).
Proof.
  unfold load_strategy, load_strategy_body, get_config. intros Hrun.
  apply M_bind_Ok in Hrun as (cfg & st1 & [= <- <-] & Hrun). simpl in Hrun.
  destruct c as [cfg|]; simpl in Hrun; [ | by rewrite lookup_empty in Hrun ].
  destruct (cfg !! "strategy") as [v|] eqn:Hname; [ | discriminate ].
  destruct (truthy v) eqn:Htruthy; [ | discriminate ].
  apply M_bind_Ok in Hrun as (s0 & st0 & Hload & Hres).
  exists cfg, v, s0, st0. split_and!; try done.
  destruct v as [| | | |nm| |]; simpl in Hload;
    try (by apply _load_strategy_other_outcome in Hload as [-> | [_ [=]]]).
  by apply _load_strategy_Ok in Hload as [-> _].
Qed.

End Loading.

(** * The claims *)

Section OverrideClaims.

Context `{Imports}.

(** The classes of the stages of a resolution are one class, and the
    configuration reaches the override pass as it was given. *)
Lemma resolve_loaded_stages s0 st0 s st :
  resolve_loaded s0 st0 = (Ok s, st) →
  ∃ s1 st1 s2 s3 st3,
    ticker_interval_compat s0 st0 = (Ok s1, st1)
    ∧ params_from_file s1 = Ok s2
    ∧ override_attributes attributes s2 st1 = (Ok s3, st3)
    ∧ _normalize_attributes s3 = Ok s
    ∧ config st1 = config st0 ∧ config st = config st3
    ∧ __class__ s1 = __class__ s0 ∧ __class__ s2 = __class__ s0
    ∧ __class__ s3 = __class__ s0 ∧ __class__ s = __class__ s0.
Proof.
  intros (s1 & st1 & s2 & s3 & st3 & Hcompat & Hparams & Hover & Hcfg & Hnorm & _)%resolve_loaded_Ok.
  exists s1, st1, s2, s3, st3.
  pose proof (ticker_interval_compat_Ok _ _ _ _ Hcompat) as [Hc1 _].
  assert (Hcl1 : __class__ s1 = __class__ s0).
  { by destruct (ticker_interval_compat_frame _ _ _ _ "" Hcompat) as [? _]; [ by left | ]. }
  assert (Hcl2 : __class__ s2 = __class__ s1).
  { destruct (params_from_file_frame _ _ "" Hparams) as [? _]; [ | done ].
    left. unfold params_attributes. intros Hin.
    repeat (apply elem_of_cons in Hin as [? | Hin]; [ discriminate | ]).
    by apply elem_of_nil in Hin. }
  pose proof (override_attributes_class _ _ _ _ _ Hover) as Hcl3.
  pose proof (_normalize_attributes_class _ _ Hnorm) as Hcl4.
  split_and!; try done; congruence.
Qed.

(** C1, as amended.  For every attribute of the catalog that the
    configuration holds and that is not a property of the class of the
    strategy: after a successful resolution the attribute of the strategy
    is the value of the configuration in normal form, that is the
    value itself except for [minimal_roi] (rebuilt with integer keys in
    ascending order) and [stoploss] (converted to a float). *)
Theorem C1_configuration_wins cfg w s st name default v :
  load_strategy (Some cfg) w = (Ok s, st) →
  (name, default) ∈ attributes →
  cfg !! name = Some v →
  is_property s name = false →
  ∃ v', normal_form name v = Ok v'
        ∧ getattr s name = Ok v'
        ∧ (name ≠ "minimal_roi" → name ≠ "stoploss" → v' = v).
Proof.
  intros Hload Hin Hcfg Hprop.
  apply load_strategy_Ok in Hload as (cfg' & nm & s0 & st0 & [= <-] & _ & _ & _ & Hcfg0 & Hres).
  apply resolve_loaded_stages in Hres
    as (s1 & st1 & s2 & s3 & st3 & _ & _ & Hover & Hnorm & Hc1 & _ & _ & Hcl2 & _ & Hcl).
  destruct (override_attributes_focus _ _ _ _ _ _ _ attributes_NoDup Hin Hover)
    as (sa & sta & sb & stb & Hsa & Hca & Hstep & Hsb & _).
  assert (Hprop_a : is_property sa name = false).
  { rewrite <- Hprop. unfold is_property. destruct Hsa as [-> _]. by rewrite Hcl2, Hcl. }
  assert (Hcfg_a : config sta !! name = Some v) by (rewrite Hca, Hc1, Hcfg0; done).
  destruct (helper_from_config sa name default sta v Hcfg_a Hprop_a)
    as (sb' & stb' & Hstep' & Hset & _).
  rewrite Hstep in Hstep'. injection Hstep' as <- <-.
  assert (Hget3 : getattr s3 name = Ok v).
  { rewrite (same_attr_getattr _ _ _ Hsb). by eapply setattr_getattr. }
  destruct (_normalize_attributes_value _ _ name v Hnorm) as (v' & Hnf & Hget);
    [ by eapply attributes_not_ticker_interval | done | ].
  exists v'. split_and!; [ done | done | ].
  intros Hroi Hsl. unfold normal_form in Hnf.
  apply String.eqb_neq in Hroi, Hsl. rewrite Hroi, Hsl in Hnf. congruence.
Qed.

(** The defaults of the catalog that are not [None] belong to
    attributes other than [timeframe]. *)
Lemma attributes_default_not_timeframe name default :
  (name, default) ∈ attributes → default ≠ VNone → name ≠ "timeframe".
Proof.
  intros Hin Hd ->. unfold attributes in Hin.
  repeat (apply elem_of_cons in Hin as [Heq | Hin]; [ by simplify_eq | ]).
  by apply elem_of_nil in Hin.
Qed.

Lemma not_params_attribute name :
  name ∉ params_attributes → name ≠ "minimal_roi" ∧ name ≠ "stoploss".
Proof.
  intros Hnot. split; intros ->; apply Hnot; in_list.
Qed.

(** C2, as amended.  [resolve_loaded s0 st0] is [load_strategy] from line
    48 on, [s0] being the strategy as loaded.  For every attribute of the
    catalog whose default is not [None] and that the configuration lacks:
    if the loaded strategy does not expose the attribute at all, then
    after a successful resolution the configuration holds the default and
    the strategy holds it in normal form (the default of [minimal_roi]
    with its key as an integer, every other default as it is); if the
    strategy exposes the attribute with the value [None], and the
    attribute is none of those a results file can set, then the attribute
    stays [None] and the configuration gets no entry. *)
Theorem C2_default_fills_gap s0 st0 s st name default :
  resolve_loaded s0 st0 = (Ok s, st) →
  (name, default) ∈ attributes →
  default ≠ VNone →
  config st0 !! name = None →
  (hasattr s0 name = Ok false →
     config st !! name = Some default
     ∧ ∃ v', normal_form name default = Ok v' ∧ getattr s name = Ok v')
  ∧ (getattr s0 name = Ok VNone → name ∉ params_attributes →
       config st !! name = None ∧ getattr s name = Ok VNone).
Proof.
  intros Hres Hin Hd Hcfg.
  pose proof (attributes_not_ticker_interval _ _ Hin) as Hti.
  apply resolve_loaded_stages in Hres
    as (s1 & st1 & s2 & s3 & st3 & Hcompat & Hparams & Hover & Hnorm & Hc1 & Hc & _).
  destruct (override_attributes_focus _ _ _ _ _ _ _ attributes_NoDup Hin Hover)
    as (sa & sta & sb & stb & Hsa & Hca & Hstep & Hsb & Hcb).
  assert (Hcfg_a : config sta !! name = None) by (rewrite Hca, Hc1; done).
  split.
  - intros Hhas.
    assert (H01 : same_attr name s0 s1).
    { eapply ticker_interval_compat_frame; [ done | ].
      left. by eapply attributes_default_not_timeframe. }
    assert (H12 : same_attr name s1 s2).
    { eapply params_from_file_frame; [ done | ].
      right. by rewrite (same_attr_hasattr _ _ _ H01). }
    assert (Hhas_a : hasattr sa name = Ok false).
    { rewrite (same_attr_hasattr _ _ _ Hsa), (same_attr_hasattr _ _ _ H12),
        (same_attr_hasattr _ _ _ H01). done. }
    destruct (helper_default _ _ _ _ _ _ (or_introl Hcfg_a) Hhas_a Hd Hstep) as [Hset ->].
    split.
    + rewrite Hc, Hcb. simpl. apply lookup_insert_eq.
    + eapply _normalize_attributes_value; [ done | done | ].
      rewrite (same_attr_getattr _ _ _ Hsb). by eapply setattr_getattr.
  - intros Hget Hnot.
    assert (Hhas : hasattr s0 name = Ok true) by (apply hasattr_true; eauto).
    assert (H01 : same_attr name s0 s1).
    { eapply ticker_interval_compat_frame; [ done | by right ]. }
    assert (H12 : same_attr name s1 s2).
    { eapply params_from_file_frame; [ done | by left ]. }
    assert (Hget_a : getattr sa name = Ok VNone).
    { rewrite (same_attr_getattr _ _ _ Hsa), (same_attr_getattr _ _ _ H12),
        (same_attr_getattr _ _ _ H01). done. }
    rewrite helper_explicit_None in Hstep by auto.
    injection Hstep as <- <-.
    split; [ by rewrite Hc, Hcb | ].
    destruct (_normalize_attributes_value _ _ name VNone Hnorm) as (v' & Hnf & Hget');
      [ done | by rewrite (same_attr_getattr _ _ _ Hsb) | ].
    destruct (not_params_attribute _ Hnot) as [Hroi%String.eqb_neq Hsl%String.eqb_neq].
    unfold normal_form in Hnf. rewrite Hroi, Hsl in Hnf. congruence.
Qed.

(** C3, as amended.  For every attribute of the catalog that the
    configuration lacks and that the loaded strategy exposes with a
    value other than [None]: after a successful resolution the
    configuration holds that value, unless the record that the strategy
    carries from a results file has an entry for the attribute; then the
    configuration holds the value of that entry, and nothing for the
    attribute when that value is [None]. *)
Theorem C3_strategy_value_published s0 st0 s st name default v :
  resolve_loaded s0 st0 = (Ok s, st) →
  (name, default) ∈ attributes →
  config st0 !! name = None →
  getattr s0 name = Ok v →
  v ≠ VNone →
  ∃ params,
    getattr s0 "_ft_params_from_file" = Ok params
    ∧ match file_entry params name with
      | None => config st !! name = Some v
      | Some entry => config st !! name = if is_None entry then None else Some entry
      end.
Proof.
  intros Hres Hin Hcfg Hget Hv.
  apply resolve_loaded_stages in Hres
    as (s1 & st1 & s2 & s3 & st3 & Hcompat & Hparams & Hover & Hnorm & Hc1 & Hc & _).
  destruct (override_attributes_focus _ _ _ _ _ _ _ attributes_NoDup Hin Hover)
    as (sa & sta & sb & stb & Hsa & Hca & Hstep & Hsb & Hcb).
  assert (Hcfg_a : config sta !! name = None) by (rewrite Hca, Hc1; done).
  assert (Hhas : hasattr s0 name = Ok true) by (apply hasattr_true; eauto).
  assert (H01 : same_attr name s0 s1).
  { eapply ticker_interval_compat_frame; [ done | by right ]. }
  assert (Hget1 : getattr s1 name = Ok v) by (by rewrite (same_attr_getattr _ _ _ H01)).
  destruct (params_from_file_value _ _ _ _ Hparams Hget1) as (params & Hp1 & Hget2).
  assert (Hp : getattr s0 "_ft_params_from_file" = Ok params).
  { rewrite <- Hp1. symmetry. apply same_attr_getattr.
    eapply ticker_interval_compat_frame; [ done | by left ]. }
  exists params. split; [ done | ].
  rewrite <- (same_attr_getattr _ _ _ Hsa) in Hget2. rename Hget2 into Hget_a.
  assert (Hpublished : ∀ w, w ≠ VNone → getattr sa name = Ok w → config st !! name = Some w).
  { intros w Hw Hgw. rewrite (helper_publish _ _ _ _ w) in Hstep by auto.
    injection Hstep as <- <-. rewrite Hc, Hcb. simpl. apply lookup_insert_eq. }
  destruct (file_entry params name) as [entry|]; simpl in Hget_a; [ | by apply Hpublished ].
  destruct (value_None_cases entry) as [-> | Hentry].
  - simpl. rewrite helper_explicit_None in Hstep by auto.
    injection Hstep as <- <-. by rewrite Hc, Hcb.
  - replace (is_None entry) with false by (by destruct entry).
    by apply Hpublished.
Qed.

(** C10.  For every attribute of the catalog that is a property of the
    class of the strategy and that the configuration holds: the override
    pass does not assign the attribute (the instance entry is as before
    and the strategy still answers with the property), and the entry of
    the configuration is overwritten with the value of the property
    when that value is not [None]; a property whose value is [None]
    leaves the entry as the caller gave it. *)
Theorem C10_property_overwrites_configuration s0 st0 s1 st1 name default fget v0 :
  override_attributes attributes s0 st0 = (Ok s1, st1) →
  (name, default) ∈ attributes →
  class_dict (__class__ s0) !! name = Some (Property fget) →
  config st0 !! name = Some v0 →
  __dict__ s1 !! name = __dict__ s0 !! name
  ∧ getattr s1 name = fget
  ∧ (∀ v, fget = Ok v → v ≠ VNone → config st1 !! name = Some v)
  ∧ (fget = Ok VNone → config st1 !! name = Some v0).
Proof.
  intros Hover Hin Hclass Hcfg.
  destruct (override_attributes_focus _ _ _ _ _ _ _ attributes_NoDup Hin Hover)
    as (sa & sta & sb & stb & Hsa & Hca & Hstep & Hsb & Hcb).
  assert (Hclass_a : class_dict (__class__ sa) !! name = Some (Property fget)).
  { destruct Hsa as [-> _]. done. }
  assert (Hprop_a : is_property sa name = true).
  { unfold is_property. by rewrite Hclass_a. }
  assert (Hget_a : getattr sa name = fget) by (by apply getattr_property).
  assert (Hcl1 : __class__ s1 = __class__ s0) by (by eapply override_attributes_class).
  assert (Hsame : sb = sa ∧ (∀ v, fget = Ok v → v ≠ VNone → config stb !! name = Some v)
                  ∧ (fget = Ok VNone → stb = sta)).
  { destruct (helper_Ok _ _ _ _ _ _ Hstep)
      as [(v & _ & Hp & _)
         | (_ & [(v & Hv & Hne & -> & Hc) | [(Hv & -> & ->) | [(_ & _ & Hset & _) | (Hh & _ & -> & ->)]]])].
    - congruence.
    - split_and!; [ done | | congruence ].
      intros v' Hv' _. rewrite Hc, lookup_insert_eq. congruence.
    - split_and!; [ done | | done ]. intros v' Hv' Hne. congruence.
    - apply setattr_Ok in Hset as (Hp & _). congruence.
    - apply hasattr_false in Hh. split_and!; [ done | | ]; intros; congruence. }
  destruct Hsame as (-> & Hpub & Hnone).
  split_and!.
  - destruct Hsb as [_ ->]. by destruct Hsa as [_ ->].
  - apply getattr_property. by rewrite Hcl1.
  - intros v Hv Hne. rewrite Hcb. by apply Hpub.
  - intros Hv. rewrite Hcb, (Hnone Hv), Hca. done.
Qed.

End OverrideClaims.

(** C1 at the stop-loss of a configuration: the string ["-0.10"] reaches
    the strategy as the float [-0.10]. *)
Lemma C1_configuration_wins_witness :
  ∃ v', normal_form "stoploss" (VStr "-0.10") = Ok v'
        ∧ resolved_attr (Sample.resolve (Sample.instance Sample.base_attrs)
                           [("stoploss", VStr "-0.10")]) "stoploss" = Ok v'
        ∧ ("stoploss" ≠ "minimal_roi" → "stoploss" ≠ "stoploss" → v' = VStr "-0.10").
Proof.
  pose (r := Sample.resolve (Sample.instance Sample.base_attrs) [("stoploss", VStr "-0.10")]).
  pose (s := strategy_of r (Sample.instance Sample.base_attrs)).
  assert (Hs : resolved_attr r "stoploss" = getattr s "stoploss") by (vm_compute; reflexivity).
  fold r. rewrite Hs.
  apply (C1_configuration_wins
           (H := Sample.imports_for (Sample.instance Sample.base_attrs))
           (Sample.config_with [("stoploss", VStr "-0.10")]) Sample.nothing_outside
           s r.2 "stoploss" VNone (VStr "-0.10")).
  - vm_compute. reflexivity.
  - in_list.
  - vm_compute. reflexivity.
  - vm_compute. reflexivity.
Defined.

(** C1 as stated fails: the configuration's
    [minimal_roi = {"20": 0.05, "0": 0.10}] is in the catalog, present and
    no property, yet the resolved strategy holds [{0: 0.10, 20: 0.05}],
    which is another value. *)
Lemma C1_counterexample :
  let r := Sample.resolve (Sample.instance Sample.base_attrs)
             [("minimal_roi", Sample.minimal_roi_20_0)] in
  ("minimal_roi", VDict [(VStr "0", VFloat (PyNum.float_of_Z 10))]) ∈ attributes
  ∧ Sample.config_with [("minimal_roi", Sample.minimal_roi_20_0)] !! "minimal_roi"
    = Some Sample.minimal_roi_20_0
  ∧ is_property (Sample.instance Sample.base_attrs) "minimal_roi" = false
  ∧ resolved_attr r "minimal_roi"
    = Ok (VDict [(VInt 0, VFloat Sample.float_0_10); (VInt 20, VFloat Sample.float_0_05)])
  ∧ resolved_attr r "minimal_roi" ≠ Ok Sample.minimal_roi_20_0.
Proof.
  split_and!; [ in_list | by vm_compute | by vm_compute | by vm_compute | ].
  vm_compute. discriminate.
Qed.

(** C2 on two strategies and a configuration that names the strategy and
    nothing else: one does not expose [use_sell_signal] and ends with the
    default [True] on both sides, one sets it to [None] and keeps that. *)
Lemma C2_default_fills_gap_witness :
  (resolved_config (Sample.resolve_as_loaded (Sample.instance Sample.base_attrs) [])
     "use_sell_signal" = Some (VBool true)
   ∧ resolved_attr (Sample.resolve_as_loaded (Sample.instance Sample.base_attrs) [])
       "use_sell_signal" = Ok (VBool true))
  ∧ (resolved_config (Sample.resolve_as_loaded Sample.unset_sell_signal [])
       "use_sell_signal" = None
     ∧ resolved_attr (Sample.resolve_as_loaded Sample.unset_sell_signal [])
         "use_sell_signal" = Ok VNone).
Proof.
  split.
  - pose (s0 := Sample.instance Sample.base_attrs).
    pose (r := Sample.resolve_as_loaded s0 []).
    destruct (C2_default_fills_gap (H := Sample.imports_for s0)
                s0 (Sample.initially []) (strategy_of r s0) r.2
                "use_sell_signal" (VBool true)) as [Habsent _].
    + vm_compute. reflexivity.
    + in_list.
    + discriminate.
    + vm_compute. reflexivity.
    + destruct Habsent as (Hcfg & v' & Hnf & Hget); [ vm_compute; reflexivity | ].
      injection Hnf as <-. split; [ exact Hcfg | ].
      change (getattr (strategy_of r s0) "use_sell_signal" = Ok (VBool true)) in Hget.
      assert (Hs : resolved_attr r "use_sell_signal"
                   = getattr (strategy_of r s0) "use_sell_signal") by (vm_compute; reflexivity).
      fold s0. fold r. rewrite Hs. exact Hget.
  - pose (s0 := Sample.unset_sell_signal).
    pose (r := Sample.resolve_as_loaded s0 []).
    destruct (C2_default_fills_gap (H := Sample.imports_for s0)
                s0 (Sample.initially []) (strategy_of r s0) r.2
                "use_sell_signal" (VBool true)) as [_ Hnone].
    + vm_compute. reflexivity.
    + in_list.
    + discriminate.
    + vm_compute. reflexivity.
    + destruct Hnone as (Hcfg & Hget).
      * vm_compute. reflexivity.
      * unfold params_attributes. intros Hin.
        repeat (apply elem_of_cons in Hin as [? | Hin]; [ discriminate | ]).
        by apply elem_of_nil in Hin.
      * split; [ exact Hcfg | ].
        assert (Hs : resolved_attr r "use_sell_signal"
                     = getattr (strategy_of r s0) "use_sell_signal") by (vm_compute; reflexivity).
        fold s0. fold r. rewrite Hs. exact Hget.
Defined.

(** C2 as stated fails: [use_sell_signal] has the default [True], the
    configuration lacks it and the strategy exposes it with the value
    [None], hence with no value other than [None]; yet after resolution
    the strategy still holds [None] and the configuration has no entry. *)
Lemma C2_counterexample :
  let r := Sample.resolve Sample.unset_sell_signal [] in
  ("use_sell_signal", VBool true) ∈ attributes
  ∧ Sample.config_with [] !! "use_sell_signal" = None
  ∧ getattr Sample.unset_sell_signal "use_sell_signal" = Ok VNone
  ∧ resolved_attr r "use_sell_signal" = Ok VNone
  ∧ resolved_attr r "use_sell_signal" ≠ Ok (VBool true)
  ∧ resolved_config r "use_sell_signal" = None.
Proof.
  split_and!; [ in_list | by vm_compute | by vm_compute | by vm_compute | | by vm_compute ].
  vm_compute. discriminate.
Qed.

(** C3 on a strategy that carries [{"roi": {"0": 0.5}}] from a results
    file: its [stoploss], for which the record has no entry, is
    published as the strategy has it. *)
Lemma C3_strategy_value_published_witness :
  let s0 := Sample.with_roi_from_file in
  let r := Sample.resolve_as_loaded s0 [] in
  getattr s0 "stoploss" = Ok (VFloat (S754_finite true 7205759403792794 (-56)))
  ∧ file_entry (VDict [(VStr "roi", VDict [(VStr "0", VFloat Sample.float_0_5)])]) "stoploss"
    = None
  ∧ resolved_config r "stoploss" = Some (VFloat (S754_finite true 7205759403792794 (-56))).
Proof.
  intros s0 r.
  destruct (C3_strategy_value_published (H := Sample.imports_for s0)
              s0 (Sample.initially []) (strategy_of r s0) r.2 "stoploss" VNone
              (VFloat (S754_finite true 7205759403792794 (-56))))
    as (params & Hparams & Hpublished).
  - vm_compute. reflexivity.
  - in_list.
  - vm_compute. reflexivity.
  - vm_compute. reflexivity.
  - discriminate.
  - assert (params = VDict [(VStr "roi", VDict [(VStr "0", VFloat Sample.float_0_5)])]) as ->.
    { vm_compute in Hparams. by injection Hparams as <-. }
    split_and!; [ by vm_compute | by vm_compute | exact Hpublished ].
Defined.

(** C3 as stated fails: the configuration lacks [minimal_roi], the loaded
    strategy exposes [{"0": 0.10}], and the configuration ends with
    [{"0": 0.5}], the table of the results file. *)
Lemma C3_counterexample :
  let r := Sample.resolve Sample.with_roi_from_file [] in
  ("minimal_roi", VDict [(VStr "0", VFloat (PyNum.float_of_Z 10))]) ∈ attributes
  ∧ Sample.config_with [] !! "minimal_roi" = None
  ∧ getattr Sample.with_roi_from_file "minimal_roi"
    = Ok (VDict [(VStr "0", VFloat Sample.float_0_10)])
  ∧ resolved_config r "minimal_roi" = Some (VDict [(VStr "0", VFloat Sample.float_0_5)])
  ∧ resolved_config r "minimal_roi" ≠ Some (VDict [(VStr "0", VFloat Sample.float_0_10)]).
Proof.
  split_and!; [ in_list | by vm_compute | by vm_compute | by vm_compute | ].
  vm_compute. discriminate.
Qed.

(** C10 on a strategy whose [protections] is a property, resolved with
    [protections = []] in the configuration. *)
Lemma C10_property_overwrites_configuration_witness :
  let s0 := Sample.with_protections_property in
  let r := override_attributes attributes s0 (Sample.initially [("protections", VList [])]) in
  __dict__ (strategy_of r s0) !! "protections" = None
  ∧ getattr (strategy_of r s0) "protections" = Ok Sample.cooldown
  ∧ config r.2 !! "protections" = Some Sample.cooldown.
Proof.
  intros s0 r.
  destruct (C10_property_overwrites_configuration
              s0 (Sample.initially [("protections", VList [])]) (strategy_of r s0) r.2
              "protections" VNone (Ok Sample.cooldown) (VList []))
    as (Hdict & Hget & Hpub & _).
  - vm_compute. reflexivity.
  - in_list.
  - vm_compute. reflexivity.
  - vm_compute. reflexivity.
  - split_and!; [ rewrite Hdict; reflexivity | exact Hget | ].
    apply Hpub; [ reflexivity | unfold Sample.cooldown; discriminate ].
Defined.

(** ** The compatibility pass, normalisation, validation *)

(** C4, as amended.  The pass that runs before the override pass acts in
    one combination: the strategy exposes [ticker_interval], does not
    expose [timeframe], and the configuration has no [timeframe].  Then a
    deprecation warning is logged and [ticker_interval] is assigned to
    [timeframe] (the assignment goes through unless [timeframe] is a
    property).  In every other combination nothing changes. *)
Theorem C4_ticker_interval_to_timeframe s st (has_ticker_interval has_timeframe : bool) :
  hasattr s "ticker_interval" = Ok has_ticker_interval →
  hasattr s "timeframe" = Ok has_timeframe →
  if has_ticker_interval && negb has_timeframe && negb (configured st "timeframe")
  then ∃ v, getattr s "ticker_interval" = Ok v
            ∧ ticker_interval_compat s st
              = (setattr s "timeframe" v, with_log WARNING_deprecated_ticker_interval st)
            ∧ (is_property s "timeframe" = false →
               ∃ s', setattr s "timeframe" v = Ok s'
                     ∧ getattr s' "timeframe" = Ok v
                     ∧ getattr s' "ticker_interval" = Ok v)
  else ticker_interval_compat s st = (Ok s, st).
Proof.
  intros Hti Htf. unfold configured.
  destruct has_ticker_interval; simpl;
    [ | by apply ticker_interval_compat_no_ticker_interval ].
  destruct has_timeframe; simpl;
    [ by apply ticker_interval_compat_has_timeframe | ].
  destruct (config st !! "timeframe") as [v0|] eqn:Hcfg; simpl;
    [ by eapply ticker_interval_compat_configured | ].
  apply hasattr_true in Hti as [v Hv]. exists v.
  split_and!; [ done | by apply ticker_interval_compat_acts | ].
  intros Hprop. destruct (not_property_setattr s "timeframe" v Hprop) as [s' Hset].
  exists s'. split_and!; [ done | by eapply setattr_getattr | ].
  rewrite <- Hv. apply same_attr_getattr. by eapply setattr_same_attr.
Qed.

(** C4 on a strategy with [ticker_interval = "5m"] and no [timeframe]. *)
Lemma C4_ticker_interval_to_timeframe_witness :
  let s := Sample.instance Sample.legacy_attrs in
  ∃ v, getattr s "ticker_interval" = Ok v
       ∧ ticker_interval_compat s (Sample.initially [])
         = (setattr s "timeframe" v,
            with_log WARNING_deprecated_ticker_interval (Sample.initially []))
       ∧ (is_property s "timeframe" = false →
          ∃ s', setattr s "timeframe" v = Ok s'
                ∧ getattr s' "timeframe" = Ok v
                ∧ getattr s' "ticker_interval" = Ok v).
Proof.
  exact (C4_ticker_interval_to_timeframe
           (Sample.instance Sample.legacy_attrs) (Sample.initially []) true false
           eq_refl eq_refl).
Defined.

(** C4 as stated fails both ways.  A strategy with [timeframe = "5m"] and
    no [ticker_interval], under a configuration without [timeframe], is
    left as it is: no warning, no [ticker_interval].  A strategy with
    [ticker_interval = "5m"] and no [timeframe] is another combination,
    and the pass does change it: a warning is logged and [timeframe]
    becomes ["5m"]. *)
Lemma C4_counterexample :
  let s := Sample.instance Sample.base_attrs in
  let old := Sample.instance Sample.legacy_attrs in
  let st := Sample.initially [] in
  (hasattr s "ticker_interval" = Ok false
   ∧ hasattr s "timeframe" = Ok true
   ∧ config st !! "timeframe" = None
   ∧ ticker_interval_compat s st = (Ok s, st)
   ∧ getattr s "ticker_interval" = Err AttributeError)
  ∧ (hasattr old "ticker_interval" = Ok true
     ∧ hasattr old "timeframe" = Ok false
     ∧ log (outside (ticker_interval_compat old st).2) = [WARNING_deprecated_ticker_interval]
     ∧ resolved_attr (ticker_interval_compat old st) "timeframe" = Ok (VStr "5m")).
Proof. by vm_compute. Qed.

(** C5.  After a successful normalisation, a [minimal_roi] that the
    strategy exposes is a dictionary whose keys are integers in strictly
    ascending order, each the conversion [int(key)] of a key of the
    dictionary it replaces, with the value of such a key, and no key of
    that dictionary is left out; a [stoploss] that the strategy exposes is
    the float [float(x)] of the value [x] it replaces. *)
Theorem C5_normalized_attributes s s' :
  _normalize_attributes s = Ok s' →
  (∀ v, getattr s' "minimal_roi" = Ok v →
     ∃ roi items d,
       getattr s "minimal_roi" = Ok roi ∧ py_items roi = Ok items
       ∧ v = VDict (map (λ kv, (VInt kv.1, kv.2)) d)
       ∧ StronglySorted Z.lt d.*1
       ∧ (∀ k x, (k, x) ∈ d → ∃ key, (key, x) ∈ items ∧ py_int key = Ok k)
       ∧ (∀ key x, (key, x) ∈ items → ∃ k, py_int key = Ok k ∧ k ∈ d.*1))
  ∧ (∀ v, getattr s' "stoploss" = Ok v →
       ∃ sl f, getattr s "stoploss" = Ok sl ∧ py_float sl = Ok f ∧ v = VFloat f).
Proof.
  intros Hnorm.
  assert (Hexposed : ∀ name v, name = "minimal_roi" ∨ name = "stoploss" →
            getattr s' name = Ok v → ∃ v0, getattr s name = Ok v0).
  { intros name v Hname Hget.
    assert (Hti : name ≠ "ticker_interval") by (destruct Hname as [-> | ->]; done).
    destruct (getattr s name) as [v0|e] eqn:Hget0; [ eauto | ].
    destruct (exn_AttributeError_cases e) as [-> | He].
    - apply hasattr_false in Hget0.
      pose proof (_normalize_attributes_absent _ _ _ Hnorm Hti Hget0) as Hsame.
      rewrite <- (same_attr_hasattr _ _ _ Hsame) in Hget0.
      apply hasattr_false in Hget0. congruence.
    - exfalso. rewrite _normalize_attributes_steps in Hnorm. inv_run Hnorm.
      pose proof (assign_if_present_frame _ _ _ _ _ name Hres Hti) as H1.
      destruct Hname as [-> | ->].
      + apply assign_if_present_Ok in Hres0 as [[Hh _] | (? & ? & Hg & _)].
        * rewrite (same_attr_hasattr _ _ _ H1) in Hh. apply hasattr_false in Hh. congruence.
        * rewrite (same_attr_getattr _ _ _ H1) in Hg. congruence.
      + pose proof (assign_if_present_frame _ _ _ _ _ "stoploss" Hres0) as H2.
        apply assign_if_present_Ok in Hnorm as [[Hh _] | (? & ? & Hg & _)].
        * rewrite (same_attr_hasattr _ _ _ (H2 ltac:(done))),
            (same_attr_hasattr _ _ _ H1) in Hh.
          apply hasattr_false in Hh. congruence.
        * rewrite (same_attr_getattr _ _ _ (H2 ltac:(done))),
            (same_attr_getattr _ _ _ H1) in Hg. congruence. }
  split.
  - intros v Hget.
    destruct (Hexposed _ _ (or_introl eq_refl) Hget) as [roi Hroi].
    destruct (_normalize_attributes_value _ _ "minimal_roi" _ Hnorm ltac:(done) Hroi)
      as (v' & Hnf & Hget').
    assert (v' = v) as -> by congruence.
    unfold normal_form, roi_normal_form in Hnf. simpl in Hnf. inv_run Hnf.
    injection Hnf as <-. rename a into items, a0 into d0.
    destruct (int_key_dict_Ok _ _ _ Hres0 (NoDup_nil_2)) as (Hnd & Hsrc & _ & Hall).
    pose proof (sorted_by_key_Permutation d0) as Hperm.
    assert (Hnd' : NoDup (sorted_by_key d0).*1) by (by rewrite Hperm).
    exists roi, items, (sorted_by_key d0).
    split_and!; [ done | done | by apply int_dict_NoDup | | | ].
    + apply sorted_NoDup_strict; [ apply sorted_by_key_sorted | done ].
    + intros k x Hin. rewrite Hperm in Hin.
      destruct (Hsrc _ _ Hin) as [[]%elem_of_nil | ?]. done.
    + intros key x Hin. destruct (Hall _ _ Hin) as (k & Hk & Hkin).
      exists k. split; [ done | by rewrite Hperm ].
  - intros v Hget.
    destruct (Hexposed _ _ (or_intror eq_refl) Hget) as [sl Hsl].
    destruct (_normalize_attributes_value _ _ "stoploss" _ Hnorm ltac:(done) Hsl)
      as (v' & Hnf & Hget').
    assert (v' = v) as -> by congruence.
    unfold normal_form, stoploss_normal_form in Hnf. simpl in Hnf. inv_run Hnf.
    injection Hnf as <-. eauto.
Qed.

(** C5 on the examples: [{"20": 0.05, "0": 0.10}] becomes
    [{0: 0.10, 20: 0.05}] and ["-0.10"] becomes the float [-0.10]. *)
Lemma C5_normalized_attributes_witness :
  let s := Sample.instance [("minimal_roi", ClassValue Sample.minimal_roi_20_0);
                            ("stoploss", ClassValue (VStr "-0.10"))] in
  let s' := Sample.normalized s in
  (getattr s' "minimal_roi"
   = Ok (VDict [(VInt 0, VFloat Sample.float_0_10); (VInt 20, VFloat Sample.float_0_05)])
   ∧ getattr s' "stoploss" = Ok (VFloat (S754_finite true 7205759403792794 (-56))))
  ∧ (∀ v, getattr s' "minimal_roi" = Ok v →
       ∃ roi items d,
         getattr s "minimal_roi" = Ok roi ∧ py_items roi = Ok items
         ∧ v = VDict (map (λ kv, (VInt kv.1, kv.2)) d)
         ∧ StronglySorted Z.lt d.*1
         ∧ (∀ k x, (k, x) ∈ d → ∃ key, (key, x) ∈ items ∧ py_int key = Ok k)
         ∧ (∀ key x, (key, x) ∈ items → ∃ k, py_int key = Ok k ∧ k ∈ d.*1))
  ∧ (∀ v, getattr s' "stoploss" = Ok v →
       ∃ sl f, getattr s "stoploss" = Ok sl ∧ py_float sl = Ok f ∧ v = VFloat f).
Proof.
  intros s s'. split; [ by vm_compute | ].
  apply (C5_normalized_attributes s s'). vm_compute. reflexivity.
Defined.

Section ValidationClaim.

Context `{Imports}.

Lemma resolve_loaded_validates s0 st0 :
  resolve_loaded s0 st0 =
    (s ← before_validation s0; lift (_strategy_sanity_validations s);; mret s) st0.
Proof.
  unfold resolve_loaded, before_validation, mbind, M_bind, bind.
  destruct (ticker_interval_compat s0 st0) as [[s1|] st1]; [ | done ].
  destruct (lift (params_from_file s1) st1) as [[s2|] st2]; [ | done ].
  destruct (override_attributes attributes s2 st2) as [[s3|] st3]; [ | done ].
  destruct (log_attributes attributes st3) as [[[]|] st4]; [ | done ].
  done.
Qed.

(** C6.  Once resolution has come to validation with a strategy whose
    [order_types] and [order_time_in_force] are dictionaries, it fails
    with the validation failure, which names the class of the strategy,
    exactly when one of the two lacks a required key; with all required
    keys present it returns the strategy and leaves no trace.  The
    validation failure differs from the failure of a strategy that is
    not found. *)
Theorem C6_sanity_validations s0 st0 s st
    (order_types order_time_in_force : list (value * value)) :
  before_validation s0 st0 = (Ok s, st) →
  getattr s "order_types" = Ok (VDict order_types) →
  getattr s "order_time_in_force" = Ok (VDict order_time_in_force) →
  ((missing_key REQUIRED_ORDERTYPES order_types
    ∨ missing_key REQUIRED_ORDERTIF order_time_in_force)
   ↔ ∃ what, resolve_loaded s0 st0 = (Err (incomplete s what), st))
  ∧ (¬ missing_key REQUIRED_ORDERTYPES order_types →
     ¬ missing_key REQUIRED_ORDERTIF order_time_in_force →
     resolve_loaded s0 st0 = (Ok s, st))
  ∧ (∀ what nm, incomplete s what ≠ not_found nm).
Proof.
  intros Hbefore Hot Htif.
  assert (Hrun : resolve_loaded s0 st0 =
                 (match _strategy_sanity_validations s with
                  | Ok _ => Ok s
                  | Err e => Err e
                  end, st)).
  { rewrite resolve_loaded_validates. unfold mbind, M_bind, bind. rewrite Hbefore.
    unfold lift. by destruct (_strategy_sanity_validations s). }
  rewrite (_strategy_sanity_validations_dicts _ _ _ Hot Htif) in Hrun.
  rewrite Hrun.
  destruct (forallb (has_key order_types) REQUIRED_ORDERTYPES) eqn:H1; simpl.
  - destruct (forallb (has_key order_time_in_force) REQUIRED_ORDERTIF) eqn:H2; simpl.
    + apply forallb_has_key_true in H1, H2.
      split_and!; [ | done | done ].
      split; [ intros [? | ?]; done | intros [what [=]] ].
    + apply forallb_has_key_true in H1. apply forallb_has_key_false in H2.
      split_and!; [ | done | done ].
      split; [ intros _; by exists "Order-time-in-force" | auto ].
  - apply forallb_has_key_false in H1.
    split_and!; [ | done | done ].
    split; [ intros _; by exists "Order-types" | auto ].
Qed.

End ValidationClaim.

(** ** Loading *)

Lemma two_args_fun_len (args : list string) :
  match fun_len args with VInt 2 => true | _ => false end = two_args args.
Proof.
  unfold fun_len, two_args.
  destruct (Nat.eqb_spec (length args) 2) as [-> | Hne]; [ done | ].
  destruct (Z.of_nat (length args)) as [|p|p] eqn:Hz; try done.
  destruct p as [[?|?|]|[?|?|]|]; try done. lia.
Qed.

Section LoadingClaims.

Context `{Imports}.

(** What is done to the object found: the three lengths are recorded and
    the marker is set, or left alone. *)
Lemma infer_interface_version_Ok s0 s :
  infer_interface_version s0 = Ok s →
  __class__ s = __class__ s0
  ∧ getattr s "_populate_fun_len" = Ok (fun_len (populate_indicators_args (__class__ s0)))
  ∧ getattr s "_buy_fun_len" = Ok (fun_len (populate_buy_trend_args (__class__ s0)))
  ∧ getattr s "_sell_fun_len" = Ok (fun_len (populate_sell_trend_args (__class__ s0)))
  ∧ getattr s "INTERFACE_VERSION"
    = if legacy_signature (__class__ s0) then Ok (VInt 1) else getattr s0 "INTERFACE_VERSION".
Proof.
  unfold infer_interface_version. intros Hrun. inv_run Hrun.
  rename a into s1, a0 into s2, a1 into s3.
  pose proof (setattr_getattr _ _ _ _ Hres) as G1.
  pose proof (setattr_getattr _ _ _ _ Hres0) as G2.
  pose proof (setattr_getattr _ _ _ _ Hres1) as G3.
  assert (G1' : getattr s3 "_populate_fun_len" = getattr s1 "_populate_fun_len").
  { rewrite <- (same_attr_getattr _ s1 s2); [ | by eapply setattr_same_attr ].
    apply same_attr_getattr. by eapply setattr_same_attr. }
  assert (G2' : getattr s3 "_buy_fun_len" = getattr s2 "_buy_fun_len").
  { apply same_attr_getattr. by eapply setattr_same_attr. }
  rewrite G1', G1 in Hres2. injection Hres2 as <-.
  rewrite G2', G2 in Hres3. injection Hres3 as <-.
  rewrite G3 in Hres4. injection Hres4 as <-.
  assert (Hany : any_is_2 [fun_len (populate_indicators_args (__class__ s0));
                           fun_len (populate_buy_trend_args (__class__ s0));
                           fun_len (populate_sell_trend_args (__class__ s0))]
                 = legacy_signature (__class__ s0)).
  { unfold any_is_2, legacy_signature. cbn [existsb]. rewrite !two_args_fun_len.
    by rewrite orb_false_r, orb_assoc. }
  rewrite Hany in Hrun.
  assert (Hcl3 : __class__ s3 = __class__ s0).
  { apply setattr_Ok in Hres as (_ & ? & _), Hres0 as (_ & ? & _), Hres1 as (_ & ? & _).
    congruence. }
  assert (Hiv3 : getattr s3 "INTERFACE_VERSION" = getattr s0 "INTERFACE_VERSION").
  { rewrite <- (same_attr_getattr _ s0 s1); [ | by eapply setattr_same_attr ].
    rewrite <- (same_attr_getattr _ s1 s2); [ | by eapply setattr_same_attr ].
    apply same_attr_getattr. by eapply setattr_same_attr. }
  destruct (legacy_signature (__class__ s0)).
  - pose proof (setattr_getattr _ _ _ _ Hrun) as G4.
    assert (Hs : ∀ b, b ≠ "INTERFACE_VERSION" → getattr s b = getattr s3 b).
    { intros b Hb. apply same_attr_getattr. eapply setattr_same_attr; [ done | congruence ]. }
    apply setattr_Ok in Hrun as (_ & Hcl & _).
    split_and!; [ congruence | | | | done ]; rewrite Hs by done; congruence.
  - injection Hrun as <-. split_and!; congruence.
Qed.

(** C7.  A strategy that [_load_strategy] returns is the object the loader
    found, with its marker [INTERFACE_VERSION] set to the legacy value 1
    when one of the three inspected methods declares exactly two
    parameters, and with the marker of the object as found otherwise; two
    parameters of [populate_indicators] alone are enough. *)
Theorem C7_interface_version nm extra_dir st s st' :
  _load_strategy nm extra_dir st = (Ok s, st') →
  ∃ nm' paths s0,
    _load_object (files (outside st')) paths nm' (config st') = Some s0
    ∧ __class__ s = __class__ s0
    ∧ getattr s "INTERFACE_VERSION"
      = (if legacy_signature (__class__ s0) then Ok (VInt 1)
         else getattr s0 "INTERFACE_VERSION")
    ∧ (length (populate_indicators_args (__class__ s0)) = 2%nat →
       getattr s "INTERFACE_VERSION" = Ok (VInt 1)).
Proof.
  intros Hrun.
  apply _load_strategy_Ok in Hrun as (_ & nm' & paths & s0 & _ & Hload & Hinfer).
  apply infer_interface_version_Ok in Hinfer as (Hcl & _ & _ & _ & Hiv).
  exists nm', paths, s0. split_and!; [ done | done | done | ].
  intros Hlen. rewrite Hiv. unfold legacy_signature, two_args. by rewrite Hlen.
Qed.

(** C8.  For a name that contains a colon, the line of the log is
    written and the configuration is left alone.  Splitting yields two
    parts exactly when the name has one colon, that is for the names
    [name:payload] without a colon in either part, and a temporary
    directory is made exactly then.  With any other number of parts the
    name and the search path are used as they are, and nothing but the
    line of the log remains.  With two parts, when the payload decodes
    and [name.py] is a plain file name, the text is written as
    [name.py] in the new directory, the package marker is created beside
    it (empty, in a directory that had none), no other file changes, the
    directory goes to the front of the search path and the first part
    is the name to look for.  When the payload does not decode, or the
    file cannot be opened, that error ends the load with the directory
    left behind and no file written; a name that leads into a
    sub-directory is such a case, for the new directory has none. *)
Theorem C8_encoded_strategy nm paths st :
  PyStr.contains_char ":" nm = true →
  let temp := mkdtemp "freq" "strategy" (tempdirs (outside st)) in
  let run := encoded_strategy nm paths st in
  (config run.2 = config st
   ∧ log (outside run.2) = (log (outside st) ++ [INFO_loading_base64])%list)
  ∧ (length (PyStr.split ":" nm) = 2%nat ↔ PyStr.count_char ":" nm = 1%nat)
  ∧ (∀ name payload,
       PyStr.split ":" nm = [name; payload]
       ↔ nm = name ++ ":" ++ payload
         ∧ PyStr.contains_char ":" name = false
         ∧ PyStr.contains_char ":" payload = false)
  ∧ (length (PyStr.split ":" nm) = 2%nat
     ↔ tempdirs (outside run.2) ≠ tempdirs (outside st))
  ∧ (length (PyStr.split ":" nm) ≠ 2%nat →
     run = (Ok (nm, paths), with_log INFO_loading_base64 st))
  ∧ (∀ name payload,
       PyStr.split ":" nm = [name; payload] →
       tempdirs (outside run.2) = (tempdirs (outside st) ++ [temp])%list
       ∧ (∀ text,
            urlsafe_b64decode_utf8 payload = Ok text →
            plain_file_name temp (name ++ ".py") = true →
            let module := temp ++ "/" ++ name ++ ".py" in
            let marker := temp ++ "/__init__.py" in
            run.1 = Ok (name, temp :: paths)
            ∧ files (outside run.2) !! module = Some text
            ∧ is_Some (files (outside run.2) !! marker)
            ∧ (files (outside st) !! marker = None → name ≠ "__init__" →
               files (outside run.2) !! marker = Some "")
            ∧ (∀ p, p ≠ module → p ≠ marker →
                    files (outside run.2) !! p = files (outside st) !! p))
       ∧ (∀ e,
            urlsafe_b64decode_utf8 payload = Err e →
            run.1 = Err e ∧ files (outside run.2) = files (outside st))
       ∧ (∀ text e,
            urlsafe_b64decode_utf8 payload = Ok text →
            open_for_writing temp (name ++ ".py") = Some e →
            run.1 = Err e ∧ files (outside run.2) = files (outside st))
       ∧ (∀ text sub rest,
            urlsafe_b64decode_utf8 payload = Ok text →
            name = sub ++ "/" ++ rest →
            PyStr.contains_char "/" sub = false →
            sub ≠ "" → sub ≠ "." → sub ≠ ".." →
            (String.length sub ≤ NAME_MAX)%nat →
            PyStr.contains_char "000" (joinpath temp (name ++ ".py")) = false →
            (String.length (joinpath temp (name ++ ".py")) < PATH_MAX)%nat →
            run.1 = Err FileNotFoundError
            ∧ files (outside run.2) = files (outside st))).
Proof.
  intros Hc temp run.
  assert (Hgrow : ∀ l : list string, (l ++ [temp])%list ≠ l).
  { intros l Heq. apply (f_equal length) in Heq. rewrite length_app in Heq. simpl in Heq. lia. }
  assert (Hother : length (PyStr.split ":" nm) ≠ 2%nat →
            run = (Ok (nm, paths), with_log INFO_loading_base64 st)).
  { intros Hlen. by apply encoded_strategy_other_count. }
  assert (Htwo : ∀ name payload, PyStr.split ":" nm = [name; payload] →
            run = match urlsafe_b64decode_utf8 payload with
                  | Ok text =>
                      match open_for_writing temp (name ++ ".py") with
                      | None => (Ok (name, temp :: paths),
                                 materialized temp name text (with_log INFO_loading_base64 st))
                      | Some e => (Err e, with_tempdir temp (with_log INFO_loading_base64 st))
                      end
                  | Err e => (Err e, with_tempdir temp (with_log INFO_loading_base64 st))
                  end).
  { intros name payload Hparts. by apply encoded_strategy_two_parts. }
  split_and!.
  - by eapply encoded_strategy_config, surjective_pairing.
  - destruct (PyStr.split ":" nm) as [|name [|payload [|more rest]]] eqn:Hparts;
      try (rewrite Hother by done; done).
    rewrite (Htwo name payload eq_refl).
    destruct (urlsafe_b64decode_utf8 payload); [ destruct (open_for_writing _ _) | ]; done.
  - rewrite split_length. lia.
  - intros name payload. apply split_two_parts_iff.
  - destruct (decide (length (PyStr.split ":" nm) = 2%nat)) as [Hlen | Hlen].
    + split; [ intros _ | done ].
      destruct (PyStr.split ":" nm) as [|name [|payload [|more rest]]] eqn:Hparts;
        try discriminate.
      rewrite (Htwo name payload eq_refl).
      destruct (urlsafe_b64decode_utf8 payload); [ destruct (open_for_writing _ _) | ];
        simpl; apply Hgrow.
    + rewrite Hother by done. simpl. done.
  - exact Hother.
  - intros name payload Hparts. specialize (Htwo name payload Hparts).
    split_and!.
    + rewrite Htwo.
      destruct (urlsafe_b64decode_utf8 payload); [ destruct (open_for_writing _ _) | ]; done.
    + intros text Hdecode Hplain module marker.
      destruct (open_for_writing_plain _ _ Hplain) as [Hopen Hmodule].
      rewrite Hdecode, Hopen in Htwo. rewrite Htwo. cbn [fst snd].
      destruct (materialized_plain temp name text (with_log INFO_loading_base64 st))
        as (Hwritten & Hmarker & Hempty & Hrest & _).
      cbv zeta in Hwritten, Hmarker, Hempty, Hrest.
      subst module marker. rewrite <- Hmodule, <- (joinpath_marker temp).
      split_and!; [ done | exact Hwritten | exact Hmarker | | exact Hrest ].
      intros Hfresh Hname. apply Hempty; [ exact Hfresh | ].
      rewrite Hmodule, joinpath_marker. intros Heq. by apply Hname, (module_is_marker temp).
    + intros e Hdecode. rewrite Hdecode in Htwo. by rewrite Htwo.
    + intros text e Hdecode Hopen. rewrite Hdecode, Hopen in Htwo. by rewrite Htwo.
    + intros text sub rest Hdecode -> Hsub Hempty Hdot Hdots Hlen Hnull Hpath.
      rewrite Hdecode, (open_for_writing_below temp sub rest) in Htwo by done.
      by rewrite Htwo.
Qed.

(** C9.  Without a configuration, without a [strategy] entry, or with one
    that is empty, [load_strategy] fails at once with the message that
    asks for a strategy: the log, the files and the configuration are as
    before, whatever the loader would find, and the failure is not the
    one of a strategy that is not found. *)
Theorem C9_no_strategy_set (c : option (gmap string value)) w :
  c = None
  ∨ (∃ cfg, c = Some cfg ∧ cfg !! "strategy" = None)
  ∨ (∃ cfg v, c = Some cfg ∧ cfg !! "strategy" = Some v ∧ truthy v = false) →
  load_strategy c w
  = (Err (OperationalException no_strategy_set), {| config := default ∅ c; outside := w |})
  ∧ ∀ nm, OperationalException no_strategy_set ≠ not_found nm.
Proof.
  intros Hc. split; [ | intros nm; unfold not_found, no_strategy_set; discriminate ].
  unfold load_strategy, load_strategy_body, get_config, mbind, M_bind, bind. simpl.
  destruct Hc as [-> | [(cfg & -> & Hnone) | (cfg & v & -> & Hsome & Hfalsy)]]; simpl.
  - by rewrite lookup_empty.
  - by rewrite Hnone.
  - by rewrite Hsome, Hfalsy.
Qed.

End LoadingClaims.

(** C6 on two strategies: with the four required order types validation
    passes and resolution returns the strategy; without
    [stoploss_on_exchange] it fails and names [SampleStrategy]. *)
Lemma C6_sanity_validations_witness :
  let complete := Sample.instance Sample.base_attrs in
  let lacking := Sample.lacking_stoploss_on_exchange in
  let r := before_validation complete (Sample.initially []) in
  let r' := before_validation lacking (Sample.initially []) in
  @resolve_loaded (Sample.imports_for complete) complete (Sample.initially [])
  = (Ok (strategy_of r complete), r.2)
  ∧ ∃ what,
      @resolve_loaded (Sample.imports_for lacking) lacking (Sample.initially [])
      = (Err (incomplete (strategy_of r' lacking) what), r'.2).
Proof.
  intros complete lacking r r'. split.
  - destruct (C6_sanity_validations (H := Sample.imports_for complete)
                complete (Sample.initially []) (strategy_of r complete) r.2
                [ (VStr "buy", VStr "limit"); (VStr "sell", VStr "limit");
                  (VStr "stoploss", VStr "limit");
                  (VStr "stoploss_on_exchange", VBool false) ]
                [ (VStr "buy", VStr "gtc"); (VStr "sell", VStr "gtc") ])
      as (_ & Hpass & _).
    + vm_compute. reflexivity.
    + vm_compute. reflexivity.
    + vm_compute. reflexivity.
    + apply Hpass; apply forallb_has_key_true; vm_compute; reflexivity.
  - destruct (C6_sanity_validations (H := Sample.imports_for lacking)
                lacking (Sample.initially []) (strategy_of r' lacking) r'.2
                [ (VStr "buy", VStr "limit"); (VStr "sell", VStr "limit");
                  (VStr "stoploss", VStr "limit") ]
                [ (VStr "buy", VStr "gtc"); (VStr "sell", VStr "gtc") ])
      as (Hfail & _ & _).
    + vm_compute. reflexivity.
    + vm_compute. reflexivity.
    + vm_compute. reflexivity.
    + apply Hfail. left. exists "stoploss_on_exchange".
      split; [ simpl; in_list | reflexivity ].
Defined.

(** C7 on a strategy whose [populate_indicators] takes [(self, dataframe)]
    and whose other two methods take three parameters. *)
Lemma C7_interface_version_witness :
  let r := @_load_strategy (Sample.imports_for Sample.old_populate_indicators)
             "SampleStrategy" VNone (Sample.initially []) in
  resolved_attr r "INTERFACE_VERSION" = Ok (VInt 1)
  ∧ ∃ nm' paths s0,
      @_load_object (Sample.imports_for Sample.old_populate_indicators)
        (files (outside r.2)) paths nm' (config r.2) = Some s0
      ∧ __class__ (strategy_of r Sample.old_populate_indicators) = __class__ s0
      ∧ getattr (strategy_of r Sample.old_populate_indicators) "INTERFACE_VERSION"
        = (if legacy_signature (__class__ s0) then Ok (VInt 1)
           else getattr s0 "INTERFACE_VERSION")
      ∧ (length (populate_indicators_args (__class__ s0)) = 2%nat →
         getattr (strategy_of r Sample.old_populate_indicators) "INTERFACE_VERSION"
         = Ok (VInt 1)).
Proof.
  intros r. split; [ by vm_compute | ].
  apply (C7_interface_version (H := Sample.imports_for Sample.old_populate_indicators)
           "SampleStrategy" VNone (Sample.initially [])).
  vm_compute. reflexivity.
Defined.

(** C8 on the name ["SampleStrategy:cGFzcw=="], with a decoder that
    answers [pass], and on the name ["sub/SampleStrategy:cGFzcw=="],
    whose module would lie in a sub-directory that the new directory
    does not have. *)
Lemma C8_encoded_strategy_witness :
  let imp := Sample.imports_nothing_found in
  let st := Sample.initially [] in
  let run := @encoded_strategy imp "SampleStrategy:cGFzcw==" ["user_data/strategies"] st in
  let refused :=
    @encoded_strategy imp "sub/SampleStrategy:cGFzcw==" ["user_data/strategies"] st in
  (run.1 = Ok ("SampleStrategy", ["/tmp/strategyafreq"; "user_data/strategies"])
   ∧ files (outside run.2) !! "/tmp/strategyafreq/SampleStrategy.py" = Some "pass"
   ∧ files (outside run.2) !! "/tmp/strategyafreq/__init__.py" = Some ""
   ∧ tempdirs (outside run.2) = ["/tmp/strategyafreq"]
   ∧ log (outside run.2) = [INFO_loading_base64])
  ∧ (refused.1 = Err FileNotFoundError
     ∧ files (outside refused.2) = ∅
     ∧ tempdirs (outside refused.2) = ["/tmp/strategyafreq"]).
Proof.
  intros imp st run refused. split.
  - destruct (C8_encoded_strategy (H := imp) "SampleStrategy:cGFzcw=="
                ["user_data/strategies"] st eq_refl)
      as ((_ & Hlog) & _ & _ & _ & _ & Htwo).
    destruct (Htwo "SampleStrategy" "cGFzcw==" eq_refl) as (Hdirs & Hwritten & _ & _).
    destruct (Hwritten "pass" eq_refl eq_refl) as (Hname & Hmodule & _ & Hmarker & _).
    split_and!; [ exact Hname | exact Hmodule | | exact Hdirs | exact Hlog ].
    apply Hmarker; [ reflexivity | discriminate ].
  - destruct (C8_encoded_strategy (H := imp) "sub/SampleStrategy:cGFzcw=="
                ["user_data/strategies"] st eq_refl)
      as (_ & _ & _ & _ & _ & Htwo).
    destruct (Htwo "sub/SampleStrategy" "cGFzcw==" eq_refl) as (Hdirs & _ & _ & _ & Hbelow).
    destruct (Hbelow "pass" "sub" "SampleStrategy") as (Herr & Hfiles);
      [ reflexivity | reflexivity | reflexivity | discriminate | discriminate | discriminate
      | vm_compute; lia | reflexivity | vm_compute; lia | ].
    split_and!; [ exact Herr | exact Hfiles | exact Hdirs ].
Defined.

(** C9 without a configuration and with an empty one. *)
Lemma C9_no_strategy_set_witness :
  let imp := Sample.imports_for (Sample.instance Sample.base_attrs) in
  (@load_strategy imp None Sample.nothing_outside
   = (Err (OperationalException no_strategy_set),
      {| config := ∅; outside := Sample.nothing_outside |})
   ∧ ∀ nm, OperationalException no_strategy_set ≠ not_found nm)
  ∧ (@load_strategy imp (Some ∅) Sample.nothing_outside
     = (Err (OperationalException no_strategy_set),
        {| config := ∅; outside := Sample.nothing_outside |})
     ∧ ∀ nm, OperationalException no_strategy_set ≠ not_found nm).
Proof.
  intros imp. split.
  - apply (C9_no_strategy_set (H := imp) None Sample.nothing_outside). by left.
  - apply (C9_no_strategy_set (H := imp) (Some ∅) Sample.nothing_outside).
    right. left. exists ∅. split; [ done | apply lookup_empty ].
Defined.

(** * Further properties *)

(** ** What resolution leaves alone *)

Lemma touches_only_refl (names : list string) st : touches_only names st st.
Proof. split_and!; try done. exists []. by rewrite app_nil_r. Qed.

Lemma touches_only_trans (names : list string) st1 st2 st3 :
  touches_only names st1 st2 → touches_only names st2 st3 → touches_only names st1 st3.
Proof.
  intros (Hc1 & Hk1 & Hf1 & Ht1 & l1 & Hl1) (Hc2 & Hk2 & Hf2 & Ht2 & l2 & Hl2).
  split_and!.
  - intros b Hb. by rewrite Hc2, Hc1.
  - intros k Hk. by apply Hk2, Hk1.
  - congruence.
  - congruence.
  - exists (l1 ++ l2)%list. by rewrite Hl2, Hl1, app_assoc.
Qed.

Lemma touches_only_mono (names names' : list string) st st' :
  (∀ b, b ∈ names → b ∈ names') → touches_only names st st' → touches_only names' st st'.
Proof.
  intros Hsub (Hc & Hrest). split; [ | done ].
  intros b Hb. apply Hc. intros Hin. by apply Hb, Hsub.
Qed.

Lemma every_run_bind {A B} (R : state → state → Prop) (m : M A) (f : A → M B) :
  (∀ st1 st2 st3, R st1 st2 → R st2 st3 → R st1 st3) →
  every_run R m → (∀ x, every_run R (f x)) → every_run R (m ≫= f).
Proof.
  intros Htrans Hm Hf st r st'. unfold mbind, M_bind, bind.
  destruct (m st) as [[x|e] st1] eqn:Hrun.
  - intros Hrun'. eapply Htrans; [ by eapply Hm | by eapply Hf ].
  - intros [= <- <-]. by eapply Hm.
Qed.

Lemma every_run_mono {A} (R R' : state → state → Prop) (m : M A) :
  (∀ st st', R st st' → R' st st') → every_run R m → every_run R' m.
Proof. intros Himp Hm st r st' Hrun. by eapply Himp, Hm. Qed.

Section Confined.

Variable names : list string.

Lemma every_run_lift {A} (r : result A) : every_run (touches_only names) (lift r).
Proof. intros st r' st' [= <- <-]. apply touches_only_refl. Qed.

Lemma every_run_mret {A} (x : A) : every_run (touches_only names) (mret x : M A).
Proof. intros st r' st' [= <- <-]. apply touches_only_refl. Qed.

Lemma every_run_raise {A} (e : exn) : every_run (touches_only names) (raise e : M A).
Proof. intros st r' st' [= <- <-]. apply touches_only_refl. Qed.

Lemma every_run_get_config : every_run (touches_only names) get_config.
Proof. intros st r' st' [= <- <-]. apply touches_only_refl. Qed.

Lemma every_run_logger (r : log_record) : every_run (touches_only names) (logger r).
Proof.
  intros st r' st' [= <- <-]. split_and!; try done. by exists [r].
Qed.

Lemma every_run_set_config a v : a ∈ names → every_run (touches_only names) (set_config a v).
Proof.
  intros Ha st r' st' [= <- <-]. split_and!; simpl; try done.
  - intros b Hb. apply lookup_insert_ne. by intros ->.
  - intros k Hk. destruct (decide (a = k)) as [-> | Hne].
    + by rewrite lookup_insert_eq.
    + by rewrite lookup_insert_ne.
  - exists []. by rewrite app_nil_r.
Qed.

End Confined.

(** Goes through a computation built from the pieces above. *)
Ltac confined :=
  repeat first
    [ apply every_run_bind; [ apply touches_only_trans | | intros ? ]
    | apply every_run_lift
    | apply every_run_mret
    | apply every_run_raise
    | apply every_run_get_config
    | apply every_run_logger
    | apply every_run_set_config; in_list
    | match goal with
      | |- every_run _ (if ?c then _ else _) => destruct c
      | |- every_run _ (match ?x with _ => _ end) => destruct x
      end ].

Lemma helper_confined s a default :
  every_run (touches_only [a]) (_override_attribute_helper s a default).
Proof. unfold _override_attribute_helper. confined. Qed.

Lemma override_attributes_confined attrs s :
  every_run (touches_only attrs.*1) (override_attributes attrs s).
Proof.
  revert s. induction attrs as [|[a d] attrs IH]; intros s.
  - simpl. confined.
  - rewrite fmap_cons. simpl.
    apply every_run_bind; [ apply touches_only_trans | | intros s1 ].
    + eapply every_run_mono; [ | apply helper_confined ].
      intros st st'. apply touches_only_mono. intros b Hb%list_elem_of_singleton.
      subst. apply list_elem_of_here.
    + eapply every_run_mono; [ | apply IH ].
      intros st st'. apply touches_only_mono. intros b Hb. by apply list_elem_of_further.
Qed.

Lemma log_attributes_confined (names : list string) attrs :
  every_run (touches_only names) (log_attributes attrs).
Proof. induction attrs as [|[a d] attrs IH]; simpl; confined; exact IH. Qed.

Lemma ticker_interval_compat_confined (names : list string) s :
  every_run (touches_only names) (ticker_interval_compat s).
Proof. unfold ticker_interval_compat. confined. Qed.

Section Frame.

Context `{Imports}.

Lemma resolve_loaded_confined s0 :
  every_run (touches_only attributes.*1) (resolve_loaded s0).
Proof.
  unfold resolve_loaded.
  apply every_run_bind; [ apply touches_only_trans | apply ticker_interval_compat_confined | intros s1 ].
  apply every_run_bind; [ apply touches_only_trans | apply every_run_lift | intros s2 ].
  apply every_run_bind; [ apply touches_only_trans | apply override_attributes_confined | intros s3 ].
  apply every_run_bind; [ apply touches_only_trans | apply log_attributes_confined | intros [] ].
  confined.
Qed.

(** X1.  Whatever lines 48 to 109 of [load_strategy] do to a loaded
    strategy, and whether they end with a strategy or with an exception:
    every entry of the configuration whose key is not in the catalog keeps
    its value, no entry disappears, no file is written, no directory is
    made, and the log only grows at its end. *)
Theorem X1_resolution_confined_to_catalog s0 st0 (r : result IStrategy) st :
  resolve_loaded s0 st0 = (r, st) →
  (∀ b, b ∉ attributes.*1 → config st !! b = config st0 !! b)
  ∧ (∀ k, is_Some (config st0 !! k) → is_Some (config st !! k))
  ∧ files (outside st) = files (outside st0)
  ∧ tempdirs (outside st) = tempdirs (outside st0)
  ∧ ∃ l, log (outside st) = (log (outside st0) ++ l)%list.
Proof. intros Hrun. exact (resolve_loaded_confined _ _ _ _ Hrun). Qed.

End Frame.

(** X1 on a strategy without [order_types], whose resolution fails, under
    a configuration with the foreign entry [dry_run]. *)
Lemma X1_resolution_confined_to_catalog_witness :
  let st0 := Sample.initially [("dry_run", VBool true)] in
  let run := @resolve_loaded (Sample.imports_for Sample.without_order_types)
               Sample.without_order_types st0 in
  run.1 = Err AttributeError
  ∧ (∀ b, b ∉ attributes.*1 → config run.2 !! b = config st0 !! b)
  ∧ (∀ k, is_Some (config st0 !! k) → is_Some (config run.2 !! k))
  ∧ files (outside run.2) = files (outside st0)
  ∧ tempdirs (outside run.2) = tempdirs (outside st0)
  ∧ ∃ l, log (outside run.2) = (log (outside st0) ++ l)%list.
Proof.
  intros st0 run. split; [ by vm_compute | ].
  apply (X1_resolution_confined_to_catalog
           (H := Sample.imports_for Sample.without_order_types)
           Sample.without_order_types st0 run.1 run.2).
  apply surjective_pairing.
Defined.

(** ** The two loops over the catalog *)

Lemma omap_agree {A B} (f g : A → option B) (l : list A) :
  (∀ x, x ∈ l → f x = g x) → omap f l = omap g l.
Proof.
  induction l as [|x l IH]; intros Hfg; [ done | ].
  pose proof (Hfg x (list_elem_of_here _ _)) as Hx.
  pose proof (IH (λ y Hy, Hfg y (list_elem_of_further _ _ _ Hy))) as IH'.
  csimpl. by rewrite Hx, IH'.
Qed.

(** X2.  The second loop of [load_strategy] never fails and changes
    nothing but the log, to which it adds, in the order of the catalog,
    one record for each attribute that the configuration holds, with the
    value held. *)
Theorem X2_second_loop_log attrs st :
  ∃ st', log_attributes attrs st = (Ok tt, st')
         ∧ config st' = config st
         ∧ files (outside st') = files (outside st)
         ∧ tempdirs (outside st') = tempdirs (outside st)
         ∧ log (outside st') = (log (outside st) ++ using_records (config st) attrs)%list.
Proof.
  revert st. induction attrs as [|[a d] attrs IH]; intros st.
  - exists st. split_and!; try done. unfold using_records. simpl. by rewrite app_nil_r.
  - simpl. unfold mbind, M_bind, bind, get_config, using_records. simpl.
    destruct (config st !! a) as [v|]; simpl;
      match goal with
      | |- context [log_attributes attrs ?st1] =>
          destruct (IH st1) as (st' & -> & Hc & Hf & Ht & Hl)
      end; exists st'; simpl in *; split_and!; try done.
    rewrite Hl. unfold using_records. by rewrite <- app_assoc.
Qed.

(** A step outside its first branch logs nothing and writes nothing. *)
Lemma helper_outside_kept s a default st s' st' :
  config st !! a = None ∨ is_property s a = true →
  _override_attribute_helper s a default st = (Ok s', st') →
  outside st' = outside st.
Proof.
  intros Hcase Hrun.
  destruct (helper_Ok _ _ _ _ _ _ Hrun)
    as [(v & Hc & Hp & _)
       | (_ & [(v & Hv & Hne & -> & _) | [(_ & _ & ->) | [(Hh & Hd & _) | (_ & _ & _ & ->)]]])];
    try done.
  - destruct Hcase; congruence.
  - rewrite (helper_publish _ _ _ _ v) in Hrun by done. by injection Hrun as <-.
  - by destruct (helper_default _ _ _ _ _ _ Hcase Hh Hd Hrun) as [_ ->].
Qed.

(** X3.  A successful override pass over a catalog with pairwise distinct
    names adds to the log, in the order of the catalog, one notice for
    each attribute that the configuration held at the start and that is no
    property of the class of the strategy, with the value of the
    configuration; it logs nothing else. *)
Theorem X3_override_notices attrs s st s' st' :
  NoDup attrs.*1 →
  override_attributes attrs s st = (Ok s', st') →
  log (outside st') = (log (outside st) ++ override_records s (config st) attrs)%list
  ∧ files (outside st') = files (outside st)
  ∧ tempdirs (outside st') = tempdirs (outside st).
Proof.
  revert s st. induction attrs as [|[a d] attrs IH]; intros s st Hnd Hrun.
  - apply mret_Ok in Hrun as [-> ->]. unfold override_records. simpl.
    by rewrite app_nil_r.
  - rewrite override_attributes_cons in Hrun.
    apply M_bind_Ok in Hrun as (s1 & st1 & Hstep & Hrun).
    rewrite fmap_cons in Hnd. apply NoDup_cons in Hnd as [Hfresh Hnd]. simpl in Hfresh.
    destruct (IH _ _ Hnd Hrun) as (Hl & Hf & Ht).
    assert (Hsame : override_records s1 (config st1) attrs
                    = override_records s (config st) attrs).
    { apply omap_agree. intros [b db] Hb. simpl.
      assert (Hne : a ≠ b).
      { intros ->. apply Hfresh. apply list_elem_of_fmap. by exists (b, db). }
      destruct (helper_frame _ _ _ _ _ _ b Hstep Hne) as [[Hcl _] Hc].
      unfold is_property. by rewrite Hcl, Hc. }
    rewrite Hl, Hf, Ht, Hsame. unfold override_records at 2. simpl.
    fold (override_records s (config st) attrs).
    destruct (config st !! a) as [v|] eqn:Hcfg;
      [ destruct (is_property s a) eqn:Hprop | ].
    + rewrite (helper_outside_kept _ _ _ _ _ _ (or_intror Hprop) Hstep). done.
    + destruct (helper_from_config s a d st v Hcfg Hprop)
        as (s2 & st2 & Hstep' & _ & _ & Hlog).
      rewrite Hstep in Hstep'. injection Hstep' as <- <-.
      assert (Hrest : files (outside st1) = files (outside st)
                      ∧ tempdirs (outside st1) = tempdirs (outside st)).
      { destruct (helper_confined s a d st _ _ Hstep) as (_ & _ & ? & ? & _). done. }
      destruct Hrest as [-> ->]. rewrite Hlog. simpl. by rewrite <- app_assoc.
    + rewrite (helper_outside_kept _ _ _ _ _ _ (or_introl Hcfg) Hstep).
      by destruct (is_property s a).
Qed.

(** X3 on the catalog of [load_strategy], with [stoploss] and [protections]
    in the configuration and [protections] a property: one notice, for
    [stoploss]. *)
Lemma X3_override_notices_witness :
  let s := Sample.with_protections_property in
  let st := Sample.initially [("stoploss", VStr "-0.10"); ("protections", VList [])] in
  let run := override_attributes attributes s st in
  log (outside run.2) = [INFO_override "stoploss" (VStr "-0.10")]
  ∧ files (outside run.2) = files (outside st)
  ∧ tempdirs (outside run.2) = tempdirs (outside st).
Proof.
  intros s st run.
  destruct (X3_override_notices attributes s st (strategy_of run s) run.2)
    as (Hlog & Hfiles & Hdirs).
  - apply attributes_NoDup.
  - vm_compute. reflexivity.
  - split_and!; [ | exact Hfiles | exact Hdirs ].
    rewrite Hlog. vm_compute. reflexivity.
Defined.

(** X4.  After a successful override pass over the catalog, the
    configuration and the strategy agree on every attribute of the
    catalog that is no property of the class: what the configuration
    holds for the name is what the strategy answers, and a value other
    than [None] that the strategy answers is in the configuration. *)
Theorem X4_configuration_is_merged_view s0 st0 s1 st1 name default :
  override_attributes attributes s0 st0 = (Ok s1, st1) →
  (name, default) ∈ attributes →
  is_property s0 name = false →
  (∀ v, config st1 !! name = Some v → getattr s1 name = Ok v)
  ∧ (∀ v, getattr s1 name = Ok v → v ≠ VNone → config st1 !! name = Some v).
Proof.
  intros Hover Hin Hprop.
  destruct (override_attributes_focus _ _ _ _ _ _ _ attributes_NoDup Hin Hover)
    as (sa & sta & sb & stb & Hsa & Hca & Hstep & Hsb & Hcb).
  assert (Hprop_a : is_property sa name = false).
  { rewrite <- Hprop. unfold is_property. by destruct Hsa as [-> _]. }
  rewrite (same_attr_getattr _ _ _ Hsb), Hcb.
  destruct (helper_Ok _ _ _ _ _ _ Hstep)
    as [(v & Hc & _ & Hset & Hcfg)
       | ([Hnone | Hp] & [(v & Hv & Hne & -> & Hcfg) | [(Hv & -> & ->) | [(Hh & Hd & Hset & Hcfg) | (Hh & _ & -> & ->)]]])];
    try congruence.
  - rewrite Hcfg, Hc, (setattr_getattr _ _ _ _ Hset). split; intros; congruence.
  - rewrite Hcfg, lookup_insert_eq, Hv. split; intros; congruence.
  - rewrite Hnone, Hv. split; intros; congruence.
  - rewrite Hcfg, lookup_insert_eq, (setattr_getattr _ _ _ _ Hset). split; intros; congruence.
  - apply hasattr_false in Hh. rewrite Hnone, Hh. split; intros; congruence.
Qed.

(** X4 on [timeframe], which the sample strategy declares and the
    configuration lacks. *)
Lemma X4_configuration_is_merged_view_witness :
  let s0 := Sample.instance Sample.base_attrs in
  let run := override_attributes attributes s0 (Sample.initially []) in
  config run.2 !! "timeframe" = Some (VStr "5m")
  ∧ getattr (strategy_of run s0) "timeframe" = Ok (VStr "5m").
Proof.
  intros s0 run.
  destruct (X4_configuration_is_merged_view s0 (Sample.initially [])
              (strategy_of run s0) run.2 "timeframe" VNone) as [Hcfg Hget].
  - vm_compute. reflexivity.
  - in_list.
  - vm_compute. reflexivity.
  - assert (Hc : config run.2 !! "timeframe" = Some (VStr "5m")) by (vm_compute; reflexivity).
    split; [ exact Hc | exact (Hcfg _ Hc) ].
Defined.

Section Exposure.

Context `{Imports}.

(** X5.  After a successful resolution the strategy exposes every
    attribute of the catalog whose default is not [None]. *)
Theorem X5_defaults_are_exposed s0 st0 s st name default :
  resolve_loaded s0 st0 = (Ok s, st) →
  (name, default) ∈ attributes →
  default ≠ VNone →
  ∃ v, getattr s name = Ok v.
Proof.
  intros Hres Hin Hd.
  pose proof (attributes_not_ticker_interval _ _ Hin) as Hti.
  apply resolve_loaded_stages in Hres
    as (s1 & st1 & s2 & s3 & st3 & _ & _ & Hover & Hnorm & _).
  destruct (override_attributes_focus _ _ _ _ _ _ _ attributes_NoDup Hin Hover)
    as (sa & sta & sb & stb & _ & _ & Hstep & Hsb & _).
  assert (Hexposed : ∃ v, getattr s3 name = Ok v).
  { rewrite (same_attr_getattr _ _ _ Hsb).
    destruct (helper_Ok _ _ _ _ _ _ Hstep)
      as [(v & _ & _ & Hset & _)
         | (_ & [(v & Hv & _ & -> & _) | [(Hv & -> & _) | [(_ & _ & Hset & _) | (_ & Hnone & _)]]])];
      eauto using setattr_getattr. done. }
  destruct Hexposed as [v Hv].
  destruct (_normalize_attributes_value _ _ name v Hnorm Hti Hv) as (v' & _ & Hget).
  eauto.
Qed.

End Exposure.

(** X5 on [sell_profit_only], which the sample strategy does not declare. *)
Lemma X5_defaults_are_exposed_witness :
  ∃ v, getattr (strategy_of (Sample.resolve_as_loaded (Sample.instance Sample.base_attrs) [])
                  (Sample.instance Sample.base_attrs)) "sell_profit_only" = Ok v.
Proof.
  pose (s0 := Sample.instance Sample.base_attrs).
  pose (r := Sample.resolve_as_loaded s0 []).
  apply (X5_defaults_are_exposed (H := Sample.imports_for s0)
           s0 (Sample.initially []) (strategy_of r s0) r.2 "sell_profit_only" (VBool false)).
  - vm_compute. reflexivity.
  - in_list.
  - discriminate.
Defined.

(** ** Normalisation, further *)

(** Normalisation leaves [timeframe] alone and makes [ticker_interval]
    follow it. *)
Lemma _normalize_attributes_alias s s' :
  _normalize_attributes s = Ok s' →
  getattr s' "timeframe" = getattr s "timeframe"
  ∧ (∀ v, getattr s "timeframe" = Ok v → getattr s' "ticker_interval" = Ok v)
  ∧ (hasattr s "timeframe" = Ok false →
     getattr s' "ticker_interval" = getattr s "ticker_interval").
Proof.
  rewrite _normalize_attributes_steps. intros Hrun. inv_run Hrun.
  rename a into s1, a0 into s2.
  pose proof (assign_if_present_frame _ _ _ _ _ "timeframe" Hres ltac:(done)) as T1.
  pose proof (assign_if_present_frame _ _ _ _ _ "timeframe" Hres0 ltac:(done)) as T2.
  pose proof (assign_if_present_frame _ _ _ _ _ "timeframe" Hrun ltac:(done)) as T3.
  pose proof (assign_if_present_frame _ _ _ _ _ "ticker_interval" Hres0 ltac:(done)) as I2.
  pose proof (assign_if_present_frame _ _ _ _ _ "ticker_interval" Hrun ltac:(done)) as I3.
  assert (Hti : getattr s' "ticker_interval" = getattr s1 "ticker_interval").
  { by rewrite (same_attr_getattr _ _ _ I3), (same_attr_getattr _ _ _ I2). }
  split_and!.
  - by rewrite (same_attr_getattr _ _ _ T3), (same_attr_getattr _ _ _ T2),
      (same_attr_getattr _ _ _ T1).
  - intros v Hv. rewrite Hti.
    apply assign_if_present_Ok in Hres as [[Hh _] | (v0 & v' & Hg & [= <-] & Hset)].
    + apply hasattr_false in Hh. congruence.
    + assert (v0 = v) as -> by congruence. by eapply setattr_getattr.
  - intros Hh. rewrite Hti.
    apply assign_if_present_Ok in Hres as [[_ ->] | (v0 & v' & Hg & _)]; [ done | ].
    apply hasattr_false in Hh. congruence.
Qed.

(** X6.  A successful normalisation does not change [timeframe]; when the
    strategy exposes [timeframe], [ticker_interval] holds the same value
    afterwards, whatever it held before, and when it does not,
    [ticker_interval] is as before. *)
Theorem X6_ticker_interval_mirrors_timeframe s s' :
  _normalize_attributes s = Ok s' →
  getattr s' "timeframe" = getattr s "timeframe"
  ∧ (∀ v, getattr s "timeframe" = Ok v → getattr s' "ticker_interval" = Ok v)
  ∧ (hasattr s "timeframe" = Ok false →
     getattr s' "ticker_interval" = getattr s "ticker_interval").
Proof. apply _normalize_attributes_alias. Qed.

(** X6 on a strategy with [timeframe = "5m"] and [ticker_interval = "1h"]. *)
Lemma X6_ticker_interval_mirrors_timeframe_witness :
  let s := Sample.instance [("timeframe", ClassValue (VStr "5m"));
                            ("ticker_interval", ClassValue (VStr "1h"))] in
  getattr (Sample.normalized s) "timeframe" = Ok (VStr "5m")
  ∧ getattr (Sample.normalized s) "ticker_interval" = Ok (VStr "5m").
Proof.
  intros s.
  destruct (X6_ticker_interval_mirrors_timeframe s (Sample.normalized s))
    as (Htf & Hti & _).
  - vm_compute. reflexivity.
  - split; [ rewrite Htf; reflexivity | apply Hti; reflexivity ].
Defined.

Lemma insert_by_key_least x d :
  Forall (λ y, x.1 ≤ y) d.*1 → insert_by_key x d = x :: d.
Proof.
  destruct d as [|y d]; [ done | ]. rewrite fmap_cons. intros [Hle _]%Forall_cons.
  simpl. apply Z.leb_le in Hle. by rewrite Hle.
Qed.

Lemma sorted_by_key_of_sorted d : StronglySorted Z.le d.*1 → sorted_by_key d = d.
Proof.
  induction d as [|x d IH]; [ done | ]. rewrite fmap_cons.
  intros [Hs Hx]%StronglySorted_inv. simpl.
  fold (sorted_by_key d). rewrite IH by done. by apply insert_by_key_least.
Qed.

Lemma int_key_dict_of_int_keys d acc :
  NoDup (acc.*1 ++ d.*1) →
  int_key_dict (map (λ kv, (VInt kv.1, kv.2)) d) acc = Ok (acc ++ d)%list.
Proof.
  revert acc. induction d as [|[k x] d IH]; intros acc Hnd; simpl.
  - by rewrite app_nil_r.
  - rewrite int_dict_set_fresh.
    + rewrite IH; [ by rewrite <- app_assoc | ].
      rewrite fmap_app. simpl. by rewrite <- app_assoc.
    + apply NoDup_app in Hnd as (_ & Hdisj & _). intros Hin.
      apply (Hdisj k Hin). apply list_elem_of_here.
Qed.

(** What [roi_normal_form] returns is in normal form. *)
Lemma roi_normal_form_again v v' :
  roi_normal_form v = Ok v' → roi_normal_form v' = Ok v'.
Proof.
  unfold roi_normal_form. intros Hrun. inv_run Hrun. injection Hrun as <-.
  rename a0 into d0.
  destruct (int_key_dict_Ok _ _ _ Hres0 (NoDup_nil_2)) as (Hnd & _).
  pose proof (sorted_by_key_Permutation d0) as Hperm.
  assert (Hnd' : NoDup (sorted_by_key d0).*1) by (by rewrite Hperm).
  rewrite (int_dict_NoDup _ Hnd'). simpl.
  rewrite (int_key_dict_of_int_keys _ []) by done. simpl.
  rewrite (sorted_by_key_of_sorted (sorted_by_key d0)) by apply sorted_by_key_sorted.
  by rewrite (int_dict_NoDup _ Hnd').
Qed.

Lemma stoploss_normal_form_again v v' :
  stoploss_normal_form v = Ok v' → stoploss_normal_form v' = Ok v'.
Proof.
  unfold stoploss_normal_form. intros Hrun. inv_run Hrun. by injection Hrun as <-.
Qed.

(** Assigning what is there already changes nothing. *)
Lemma setattr_same s a v :
  is_property s a = false → __dict__ s !! a = Some v → setattr s a v = Ok s.
Proof.
  unfold is_property, setattr. intros Hprop Hd.
  destruct (class_dict (__class__ s) !! a) as [[?|?]|]; try done;
    rewrite (insert_id _ _ _ Hd); by destruct s.
Qed.

Lemma assign_if_present_settled src dst f s v v' :
  getattr s src = Ok v → f v = Ok v' →
  is_property s dst = false → __dict__ s !! dst = Some v' →
  assign_if_present src dst f s = Ok s.
Proof.
  intros Hget Hf Hprop Hd. unfold assign_if_present, hasattr.
  rewrite Hget. simpl. rewrite Hf. simpl. by apply setattr_same.
Qed.

Lemma assign_if_present_nothing src dst f s :
  hasattr s src = Ok false → assign_if_present src dst f s = Ok s.
Proof. intros Hh. unfold assign_if_present. by rewrite Hh. Qed.

Lemma getattr_instance s a v :
  is_property s a = false → __dict__ s !! a = Some v → getattr s a = Ok v.
Proof.
  unfold is_property, getattr. intros Hprop Hd. rewrite Hd.
  by destruct (class_dict (__class__ s) !! a) as [[?|?]|].
Qed.

(** One assignment of the three, seen from a later strategy [s'] of the
    same class that agrees with its result on source and destination: on
    [s'] the assignment changes nothing, provided [f] gives back what it
    made. *)
Lemma assign_if_present_again src dst f s s1 s' :
  assign_if_present src dst f s = Ok s1 →
  (src = dst ∧ (∀ v v', f v = Ok v' → f v' = Ok v')
   ∨ src ≠ dst ∧ f = Ok) →
  same_attr src s1 s' → same_attr dst s1 s' →
  assign_if_present src dst f s' = Ok s'.
Proof.
  intros Hrun Hf Hsrc Hdst.
  apply assign_if_present_Ok in Hrun as [[Hh ->] | (v & v' & Hget & Hfv & Hset)].
  - apply assign_if_present_nothing. by rewrite (same_attr_hasattr _ _ _ Hsrc).
  - pose proof (setattr_Ok _ _ _ _ Hset) as (Hprop & Hcl & Hd).
    assert (Hprop' : is_property s' dst = false).
    { unfold is_property in *. destruct Hdst as [-> _]. by rewrite Hcl. }
    assert (Hd' : __dict__ s' !! dst = Some v').
    { destruct Hdst as [_ ->]. by rewrite Hd, lookup_insert_eq. }
    destruct Hf as [[-> Hidem] | [Hne ->]].
    + eapply assign_if_present_settled; [ | by eapply Hidem | done | done ].
      by apply getattr_instance.
    + injection Hfv as <-.
      eapply assign_if_present_settled; [ | done | done | done ].
      rewrite (same_attr_getattr _ _ _ Hsrc).
      rewrite <- Hget. apply same_attr_getattr. eapply setattr_same_attr; [ done | congruence ].
Qed.

(** X7.  Normalisation is idempotent: applied to a strategy that it
    returned, it returns that strategy unchanged. *)
Theorem X7_normalisation_idempotent s s' :
  _normalize_attributes s = Ok s' → _normalize_attributes s' = Ok s'.
Proof.
  intros Hnorm. pose proof Hnorm as Hrun.
  rewrite _normalize_attributes_steps in Hrun. inv_run Hrun.
  rename a into s1, a0 into s2.
  pose proof (assign_if_present_frame _ _ _ _ _ "timeframe" Hres0 ltac:(done)) as T2.
  pose proof (assign_if_present_frame _ _ _ _ _ "timeframe" Hrun ltac:(done)) as T3.
  pose proof (assign_if_present_frame _ _ _ _ _ "ticker_interval" Hres0 ltac:(done)) as I2.
  pose proof (assign_if_present_frame _ _ _ _ _ "ticker_interval" Hrun ltac:(done)) as I3.
  pose proof (assign_if_present_frame _ _ _ _ _ "minimal_roi" Hrun ltac:(done)) as R3.
  rewrite _normalize_attributes_steps.
  rewrite (assign_if_present_again _ _ _ _ _ s' Hres); simpl.
  - rewrite (assign_if_present_again _ _ _ _ _ s' Hres0); simpl.
    + eapply assign_if_present_again; [ exact Hrun | | done | done ].
      left. split; [ done | apply stoploss_normal_form_again ].
    + left. split; [ done | apply roi_normal_form_again ].
    + done.
    + done.
  - right. done.
  - by eapply same_attr_trans.
  - by eapply same_attr_trans.
Qed.

(** X7 on the examples of C5. *)
Lemma X7_normalisation_idempotent_witness :
  let s := Sample.instance [("minimal_roi", ClassValue Sample.minimal_roi_20_0);
                            ("stoploss", ClassValue (VStr "-0.10"))] in
  _normalize_attributes (Sample.normalized s) = Ok (Sample.normalized s).
Proof.
  intros s. apply (X7_normalisation_idempotent s). vm_compute. reflexivity.
Defined.

(** ** Colliding keys of [minimal_roi] *)

Lemma int_dict_get_set k k' v d :
  int_dict_get k (int_dict_set k' v d) = if k' =? k then Some v else int_dict_get k d.
Proof.
  induction d as [|[k0 v0] d IH]; simpl.
  - by destruct (k' =? k).
  - destruct (Z.eqb_spec k0 k') as [-> | Hne]; simpl.
    + by destruct (k' =? k).
    + rewrite IH. destruct (Z.eqb_spec k0 k) as [-> | Hne']; [ | done ].
      destruct (Z.eqb_spec k' k); [ congruence | done ].
Qed.

Lemma int_key_dict_get items acc d k :
  int_key_dict items acc = Ok d →
  int_dict_get k d = last_for k (int_dict_get k acc) items.
Proof.
  revert acc. induction items as [|[key x] items IH]; intros acc Hrun.
  - by injection Hrun as <-.
  - simpl in Hrun. unfold last_for. simpl.
    destruct (py_int key) as [k'|e]; [ | discriminate ].
    rewrite (IH _ Hrun), int_dict_get_set. done.
Qed.

Lemma int_dict_get_elem d k x :
  NoDup d.*1 → int_dict_get k d = Some x ↔ (k, x) ∈ d.
Proof.
  induction d as [|[k0 v0] d IH]; intros Hnd.
  - split; [ done | intros []%elem_of_nil ].
  - rewrite fmap_cons in Hnd. apply NoDup_cons in Hnd as [Hfresh Hnd].
    simpl in Hfresh. simpl.
    destruct (Z.eqb_spec k0 k) as [-> | Hne].
    + split.
      * intros [= ->]. apply list_elem_of_here.
      * intros [[= ->] | Hin]%elem_of_cons; [ done | ].
        exfalso. apply Hfresh. apply list_elem_of_fmap. by exists (k, x).
    + rewrite (IH Hnd). split.
      * intros Hin. by apply list_elem_of_further.
      * intros [[= -> ->] | Hin]%elem_of_cons; done.
Qed.

Lemma int_dict_get_Permutation d d' k :
  NoDup d.*1 → d ≡ₚ d' → int_dict_get k d' = int_dict_get k d.
Proof.
  intros Hnd Hperm.
  assert (Hnd' : NoDup d'.*1) by (by rewrite <- Hperm).
  destruct (int_dict_get k d) as [x|] eqn:Hget.
  - apply int_dict_get_elem; [ done | ]. rewrite <- Hperm. by apply int_dict_get_elem.
  - destruct (int_dict_get k d') as [x'|] eqn:Hget'; [ | done ].
    apply int_dict_get_elem in Hget'; [ | done ]. rewrite <- Hperm in Hget'.
    apply int_dict_get_elem in Hget'; [ congruence | done ].
Qed.

(** X8.  When the keys of [minimal_roi] convert, the rebuilt dictionary
    holds under each integer the value of the last item of the source
    whose key converts to that integer, and holds no other integer: of
    two keys that convert alike, such as ["0"] and [0], the later one
    gives the value. *)
Theorem X8_last_of_colliding_keys_wins items v :
  roi_normal_form (VDict items) = Ok v →
  ∃ d, v = VDict (map (λ kv, (VInt kv.1, kv.2)) d)
       ∧ ∀ k, int_dict_get k d = last_for k None items.
Proof.
  unfold roi_normal_form. simpl. intros Hrun. inv_run Hrun. injection Hrun as <-.
  rename a into d0.
  destruct (int_key_dict_Ok _ _ _ Hres (NoDup_nil_2)) as (Hnd & _).
  pose proof (sorted_by_key_Permutation d0) as Hperm.
  assert (Hnd' : NoDup (sorted_by_key d0).*1) by (by rewrite Hperm).
  exists (sorted_by_key d0). split; [ by apply int_dict_NoDup | ].
  intros k. rewrite (int_dict_get_Permutation d0) by done.
  by rewrite (int_key_dict_get _ _ _ k Hres).
Qed.

(** X8 on [{"0": 1, 0: 2, "-5": 3}]. *)
Lemma X8_last_of_colliding_keys_wins_witness :
  ∃ d, VDict [(VInt (-5), VInt 3); (VInt 0, VInt 2)]
       = VDict (map (λ kv, (VInt kv.1, kv.2)) d)
       ∧ ∀ k, int_dict_get k d
              = last_for k None [(VStr "0", VInt 1); (VInt 0, VInt 2); (VStr "-5", VInt 3)].
Proof.
  apply (X8_last_of_colliding_keys_wins
           [(VStr "0", VInt 1); (VInt 0, VInt 2); (VStr "-5", VInt 3)]).
  vm_compute. reflexivity.
Defined.

(** ** Parameters from a results file, further *)

(** X9.  When a strategy carries a non-empty record from a results file
    and lines 56 to 69 of [load_strategy] go through, the record is a
    dictionary, and so are its [stoploss] and [trailing] entries when
    present; each of the six attributes was exposed before and is no
    property; [minimal_roi] is the [roi] entry of the record, [stoploss]
    the [stoploss] entry of its [stoploss] entry, each attribute of the
    trailing stop the entry of its name in the [trailing] entry, and an
    attribute whose entry is missing keeps the value it had; every other
    attribute is left alone. *)
Theorem X9_params_from_file_values s s' params :
  params_from_file s = Ok s' →
  getattr s "_ft_params_from_file" = Ok params →
  truthy params = true →
  ∃ get get_stoploss get_trailing,
    py_get params = Ok get
    ∧ py_get (get "stoploss" (VDict [])) = Ok get_stoploss
    ∧ py_get (get "trailing" (VDict [])) = Ok get_trailing
    ∧ (∃ current, getattr s "minimal_roi" = Ok current
                  ∧ getattr s' "minimal_roi" = Ok (get "roi" current))
    ∧ (∃ current, getattr s "stoploss" = Ok current
                  ∧ getattr s' "stoploss" = Ok (get_stoploss "stoploss" current))
    ∧ (∀ a, a ∈ trailing_attributes →
         ∃ current, getattr s a = Ok current ∧ getattr s' a = Ok (get_trailing a current))
    ∧ (∀ a, a ∈ params_attributes → is_property s a = false)
    ∧ (∀ b, b ∉ params_attributes → same_attr b s s').
Proof.
  intros Hrun Hp Ht.
  assert (Hget : ∃ get, py_get params = Ok get).
  { destruct (py_get params) as [get|e] eqn:Hget; [ eauto | exfalso ].
    unfold params_from_file in Hrun. rewrite Hp in Hrun. simpl in Hrun. rewrite Ht in Hrun.
    simpl in Hrun. unfold set_from in Hrun. rewrite Hget in Hrun. discriminate. }
  destruct Hget as [get Hget].
  rewrite (params_from_file_set_all _ _ _ Hp Ht Hget) in Hrun.
  match type of Hrun with set_all ?l _ = _ => set (assignments := l) in * end.
  assert (Hnd : NoDup assignments.*2) by (apply (bool_decide_unpack _); by vm_compute).
  assert (Hvalue : ∀ source key attr, (source, key, attr) ∈ assignments →
            ∃ get0 current, py_get source = Ok get0 ∧ getattr s attr = Ok current
                            ∧ is_property s attr = false
                            ∧ getattr s' attr = Ok (get0 key current)).
  { intros source key attr Hin. by eapply set_all_values. }
  destruct (Hvalue params "roi" "minimal_roi") as (g1 & c1 & Hg1 & Hc1 & Hp1 & Hf1);
    [ subst assignments; in_list | ].
  destruct (Hvalue (get "stoploss" (VDict [])) "stoploss" "stoploss")
    as (get_sl & c2 & Hg2 & Hc2 & Hp2 & Hf2); [ subst assignments; in_list | ].
  destruct (Hvalue (get "trailing" (VDict [])) "trailing_stop" "trailing_stop")
    as (get_tr & c3 & Hg3 & Hc3 & Hp3 & Hf3); [ subst assignments; in_list | ].
  assert (g1 = get) as -> by congruence.
  assert (Htrailing : ∀ a, a ∈ trailing_attributes →
            ∃ current, getattr s a = Ok current ∧ is_property s a = false
                       ∧ getattr s' a = Ok (get_tr a current)).
  { intros a Ha. destruct (Hvalue (get "trailing" (VDict [])) a a)
      as (g & c & Hg & Hc & Hpa & Hf).
    - unfold trailing_attributes in Ha. subst assignments.
      repeat (apply elem_of_cons in Ha as [-> | Ha]; [ in_list | ]).
      by apply elem_of_nil in Ha.
    - assert (g = get_tr) as -> by congruence. eauto. }
  exists get, get_sl, get_tr. split_and!; try done; eauto.
  - intros a Ha. destruct (Htrailing a Ha) as (c & ? & _ & ?). eauto.
  - intros a Ha. unfold params_attributes in Ha.
    apply elem_of_cons in Ha as [-> | Ha]; [ done | ].
    apply elem_of_cons in Ha as [-> | Ha]; [ done | ].
    destruct (Htrailing a Ha) as (c & _ & ? & _). done.
  - intros b Hb. eapply set_all_frame; [ exact Hrun | ].
    intros Hin. apply Hb. subst assignments. simpl in Hin. exact Hin.
Qed.

(** X9 on a strategy with the record
    [{"roi": {"0": 0.5}, "stoploss": {"stoploss": 0.05}, "trailing": {"trailing_stop": True}}]. *)
Lemma X9_params_from_file_values_witness :
  let s := Sample.with_params_from_file in
  let s' := match params_from_file s with Ok s' => s' | Err _ => s end in
  getattr s' "minimal_roi" = Ok (VDict [(VStr "0", VFloat Sample.float_0_5)])
  ∧ getattr s' "stoploss" = Ok (VFloat Sample.float_0_05)
  ∧ getattr s' "trailing_stop" = Ok (VBool true)
  ∧ getattr s' "trailing_stop_positive" = Ok VNone
  ∧ getattr s' "timeframe" = Ok (VStr "5m").
Proof.
  intros s s'.
  destruct (X9_params_from_file_values s s'
              (VDict [ (VStr "roi", VDict [(VStr "0", VFloat Sample.float_0_5)]);
                       (VStr "stoploss", VDict [(VStr "stoploss", VFloat Sample.float_0_05)]);
                       (VStr "trailing", VDict [(VStr "trailing_stop", VBool true)]) ]))
    as (get & get_sl & get_tr & Hget & Hsl & Htr & (c1 & Hc1 & Hroi) & (c2 & Hc2 & Hstop)
        & Htrail & _ & Hframe).
  - vm_compute. reflexivity.
  - vm_compute. reflexivity.
  - reflexivity.
  - injection Hget as <-. injection Hsl as <-. injection Htr as <-.
    destruct (Htrail "trailing_stop") as (c3 & Hc3 & Ht3); [ in_list | ].
    destruct (Htrail "trailing_stop_positive") as (c4 & Hc4 & Ht4); [ in_list | ].
    injection Hc4 as <-.
    split_and!; [ exact Hroi | exact Hstop | exact Ht3 | exact Ht4 | ].
    rewrite (same_attr_getattr _ s s'); [ reflexivity | ].
    apply Hframe. unfold params_attributes. intros Hin.
    repeat (apply elem_of_cons in Hin as [? | Hin]; [ discriminate | ]).
    by apply elem_of_nil in Hin.
Defined.

(** ** Validation, further *)

Section ValidationOrder.

Context `{Imports}.

(** X10.  With a required order type, [order_types] is examined first and
    decides alone in these cases, whatever [order_time_in_force] is: when
    reading it raises, that exception is the outcome ([AttributeError]
    for a strategy without the attribute); when it is [None], a boolean
    or a number, the outcome is [TypeError]; when it is a dictionary that
    lacks a required key, the outcome is the failure of the order types,
    which names the class. *)
Theorem X10_order_types_first s k (ks : list string) :
  REQUIRED_ORDERTYPES = k :: ks →
  match getattr s "order_types" with
  | Err e => _strategy_sanity_validations s = Err e
  | Ok (VDict order_types) =>
      missing_key REQUIRED_ORDERTYPES order_types →
      _strategy_sanity_validations s = Err (incomplete s "Order-types")
  | Ok (VNone | VBool _ | VInt _ | VFloat _) =>
      _strategy_sanity_validations s = Err TypeError
  | Ok (VStr _ | VList _) => True
  end.
Proof.
  intros Hreq. unfold _strategy_sanity_validations.
  destruct (getattr s "order_types") as [[| | | | | |order_types]|e] eqn:Hget;
    try done; try (rewrite Hreq; simpl; rewrite Hget; done).
  intros Hmissing. rewrite (all_in_dict _ _ _ _ Hget).
  apply forallb_has_key_false in Hmissing. rewrite Hmissing. done.
Qed.

End ValidationOrder.

(** X10 on a strategy without [order_types]. *)
Lemma X10_order_types_first_witness :
  @_strategy_sanity_validations (Sample.imports_for Sample.without_order_types)
    Sample.without_order_types = Err AttributeError.
Proof.
  exact (X10_order_types_first (H := Sample.imports_for Sample.without_order_types)
           Sample.without_order_types "buy" ["sell"; "stoploss"; "stoploss_on_exchange"]
           eq_refl).
Defined.

(** ** Strategies given by their source, further *)

Section Encoded.

Context `{Imports}.


(** X12.  A name of the form [name:payload] whose payload decodes and
    whose [name.py] is a plain file name, and for which the loader finds
    nothing: [_load_strategy] fails with the failure of a strategy that
    is not found, which names the part before the colon and not the name
    given, and the temporary directory with its two files stays
    behind. *)
Theorem X12_not_found_leaves_files nm extra_dir st name payload text :
  PyStr.split ":" nm = [name; payload] →
  urlsafe_b64decode_utf8 payload = Ok text →
  let temp := mkdtemp "freq" "strategy" (tempdirs (outside st)) in
  plain_file_name temp (name ++ ".py") = true →
  let st' := materialized temp name text (with_log INFO_loading_base64 st) in
  _load_object (files (outside st'))
    (temp :: build_search_paths (config st) USERPATH_STRATEGIES extra_dir) name (config st)
  = None →
  _load_strategy nm extra_dir st = (Err (not_found name), st')
  ∧ files (outside st') !! (temp ++ "/" ++ name ++ ".py") = Some text
  ∧ is_Some (files (outside st') !! (temp ++ "/__init__.py"))
  ∧ tempdirs (outside st') = (tempdirs (outside st) ++ [temp])%list.
Proof.
  intros Hsplit Hdecode temp Hplain st' Hload.
  destruct (open_for_writing_plain _ _ Hplain) as [Hopen Hmodule].
  destruct (materialized_files temp name text (with_log INFO_loading_base64 st))
    as [Hwritten Hmarker].
  rewrite Hmodule in Hwritten. rewrite joinpath_marker in Hmarker.
  split_and!; [ | exact Hwritten | exact Hmarker | done ].
  apply _load_strategy_not_found with (paths := temp :: build_search_paths (config st) USERPATH_STRATEGIES extra_dir).
  - rewrite (encoded_strategy_two_parts _ _ _ name payload);
      [ unfold temp in Hopen; by rewrite Hdecode, Hopen | by eapply split_two_contains | done ].
  - exact Hload.
Qed.

End Encoded.


(** X12 on the same name, with a loader that finds nothing. *)
Lemma X12_not_found_leaves_files_witness :
  let st := Sample.initially [] in
  let run := @_load_strategy Sample.imports_nothing_found "SampleStrategy:cGFzcw==" VNone st in
  run.1 = Err (not_found "SampleStrategy")
  ∧ files (outside run.2) !! "/tmp/strategyafreq/SampleStrategy.py" = Some "pass"
  ∧ tempdirs (outside run.2) = ["/tmp/strategyafreq"].
Proof.
  intros st run.
  destruct (X12_not_found_leaves_files (H := Sample.imports_nothing_found)
              "SampleStrategy:cGFzcw==" VNone st "SampleStrategy" "cGFzcw==" "pass")
    as (Hrun & Hfile & _ & Hdirs).
  - reflexivity.
  - reflexivity.
  - reflexivity.
  - reflexivity.
  - unfold run. rewrite Hrun. split_and!; [ reflexivity | exact Hfile | exact Hdirs ].
Defined.

(** ** A strategy of the old interface, from loading to the end *)

Section Legacy.

Context `{Imports}.

(** X13.  A loaded strategy that exposes [ticker_interval] with a value
    other than [None] and no [timeframe], under a configuration without
    [timeframe]: after a successful resolution [timeframe] and
    [ticker_interval] of the strategy both hold that value, and so does
    [timeframe] in the configuration. *)
Theorem X13_legacy_ticker_interval_resolved s0 st0 s st v :
  resolve_loaded s0 st0 = (Ok s, st) →
  getattr s0 "ticker_interval" = Ok v →
  v ≠ VNone →
  hasattr s0 "timeframe" = Ok false →
  config st0 !! "timeframe" = None →
  getattr s "timeframe" = Ok v
  ∧ getattr s "ticker_interval" = Ok v
  ∧ config st !! "timeframe" = Some v.
Proof.
  intros Hres Hti Hv Htf Hcfg.
  apply resolve_loaded_stages in Hres
    as (s1 & st1 & s2 & s3 & st3 & Hcompat & Hparams & Hover & Hnorm & Hc1 & Hc & _).
  rewrite (ticker_interval_compat_acts _ _ v) in Hcompat by done.
  injection Hcompat as Hset _.
  assert (Hin : ("timeframe", VNone) ∈ attributes) by in_list.
  assert (H12 : same_attr "timeframe" s1 s2).
  { eapply params_from_file_frame; [ done | ]. left. unfold params_attributes. intros Hb.
    repeat (apply elem_of_cons in Hb as [? | Hb]; [ discriminate | ]).
    by apply elem_of_nil in Hb. }
  destruct (override_attributes_focus _ _ _ _ _ _ _ attributes_NoDup Hin Hover)
    as (sa & sta & sb & stb & Hsa & Hca & Hstep & Hsb & Hcb).
  assert (Hget_a : getattr sa "timeframe" = Ok v).
  { rewrite (same_attr_getattr _ _ _ Hsa), (same_attr_getattr _ _ _ H12).
    by eapply setattr_getattr. }
  assert (Hcfg_a : config sta !! "timeframe" = None) by (rewrite Hca, Hc1; done).
  rewrite (helper_publish _ _ _ _ v) in Hstep by auto.
  injection Hstep as <- <-.
  assert (Hget3 : getattr s3 "timeframe" = Ok v) by (by rewrite (same_attr_getattr _ _ _ Hsb)).
  destruct (_normalize_attributes_alias _ _ Hnorm) as (Htf' & Halias & _).
  split_and!.
  - by rewrite Htf'.
  - by apply Halias.
  - rewrite Hc, Hcb. simpl. apply lookup_insert_eq.
Qed.

End Legacy.

(** X13 on a strategy with [ticker_interval = "5m"] and no [timeframe]. *)
Lemma X13_legacy_ticker_interval_resolved_witness :
  let r := Sample.resolve_as_loaded Sample.legacy [] in
  getattr (strategy_of r Sample.legacy) "timeframe" = Ok (VStr "5m")
  ∧ getattr (strategy_of r Sample.legacy) "ticker_interval" = Ok (VStr "5m")
  ∧ config r.2 !! "timeframe" = Some (VStr "5m").
Proof.
  intros r.
  apply (X13_legacy_ticker_interval_resolved (H := Sample.imports_for Sample.legacy)
           Sample.legacy (Sample.initially []) (strategy_of r Sample.legacy) r.2 (VStr "5m")).
  - vm_compute. reflexivity.
  - vm_compute. reflexivity.
  - discriminate.
  - vm_compute. reflexivity.
  - vm_compute. reflexivity.
Defined.

(** ** The configuration, from the entry point *)

Lemma encoded_strategy_log nm paths `{Imports} st (r : result (string * list string)) st' :
  encoded_strategy nm paths st = (r, st') →
  ∃ l, log (outside st') = (log (outside st) ++ l)%list.
Proof.
  destruct (PyStr.contains_char ":" nm) eqn:Hc.
  - destruct (PyStr.split ":" nm) as [|name [|payload [|more rest]]] eqn:Hsplit.
    + rewrite encoded_strategy_other_count by (rewrite ?Hsplit; done).
      intros [= <- <-]. by eexists.
    + rewrite encoded_strategy_other_count by (rewrite ?Hsplit; done).
      intros [= <- <-]. by eexists.
    + rewrite (encoded_strategy_two_parts _ _ _ name payload) by done.
      destruct (urlsafe_b64decode_utf8 payload); [ destruct (open_for_writing _ _) | ];
        intros [= <- <-]; by eexists.
    + rewrite encoded_strategy_other_count by (rewrite ?Hsplit; done).
      intros [= <- <-]. by eexists.
  - rewrite encoded_strategy_plain by done. intros [= <- <-]. exists []. by rewrite app_nil_r.
Qed.

(** [_load_strategy] reads the configuration and never writes it, however
    it ends. *)
Lemma _load_strategy_config `{Imports} nm extra_dir st (r : result IStrategy) st' :
  _load_strategy nm extra_dir st = (r, st') →
  config st' = config st ∧ ∃ l, log (outside st') = (log (outside st) ++ l)%list.
Proof.
  unfold _load_strategy, get_config, get_files. intros Hrun.
  cbv [mbind M_bind bind] in Hrun.
  destruct (encoded_strategy nm (build_search_paths (config st) USERPATH_STRATEGIES extra_dir) st)
    as [[[nm' paths]|e] st1] eqn:Henc.
  - assert (st' = st1) as ->.
    { destruct (_load_object (files (outside st1)) paths nm' (config st1));
        unfold lift, raise in Hrun; by injection Hrun. }
    split; [ by eapply encoded_strategy_config | by eapply encoded_strategy_log ].
  - injection Hrun as _ <-.
    split; [ by eapply encoded_strategy_config | by eapply encoded_strategy_log ].
Qed.

(** The loading step, whatever the name is. *)
Lemma loaded_config `{Imports} v extra_dir st (r : result IStrategy) st' :
  loaded v extra_dir st = (r, st') →
  config st' = config st ∧ ∃ l, log (outside st') = (log (outside st) ++ l)%list.
Proof.
  assert (Hother : _load_strategy_other v extra_dir st = (r, st') →
            config st' = config st ∧ ∃ l, log (outside st') = (log (outside st) ++ l)%list).
  { intros Hrun. apply _load_strategy_other_outcome in Hrun as [-> | [-> _]].
    - split; [ done | ]. exists []. by rewrite app_nil_r.
    - split; [ done | ]. by eexists. }
  destruct v; try exact Hother. apply _load_strategy_config.
Qed.

Section EntryPoint.

Context `{Imports}.

(** X14.  [load_strategy] as a whole, however it ends: every entry of
    the configuration it was given ([None] counting as empty) whose key
    is not in the catalog is there afterwards with the same value, no
    entry of it is missing afterwards, and the log is the one before with
    records added at its end.  When the loading step fails, the
    configuration afterwards is the one given. *)
Theorem X14_entry_point_keeps_configuration (c : option (gmap string value)) w
    (r : result IStrategy) st :
  load_strategy c w = (r, st) →
  (∀ b, b ∉ attributes.*1 → config st !! b = default ∅ c !! b)
  ∧ (∀ k, is_Some (default ∅ c !! k) → is_Some (config st !! k))
  ∧ (∃ l, log (outside st) = (log w ++ l)%list)
  ∧ (∀ nm e st1,
       default ∅ c !! "strategy" = Some (VStr nm) →
       _load_strategy nm (default VNone (default ∅ c !! "strategy_path"))
         {| config := default ∅ c; outside := w |} = (Err e, st1) →
       config st = default ∅ c).
Proof.
  unfold load_strategy, load_strategy_body, get_config.
  set (st0 := {| config := default ∅ c; outside := w |}).
  change (default ∅ c) with (config st0). change (log w) with (log (outside st0)).
  clearbody st0. intros Hrun. cbv [mbind M_bind bind] in Hrun.
  assert (Hsame : (∀ b, b ∉ attributes.*1 → config st0 !! b = config st0 !! b)
            ∧ (∀ k, is_Some (config st0 !! k) → is_Some (config st0 !! k))
            ∧ (∃ l, log (outside st0) = (log (outside st0) ++ l)%list)).
  { split_and!; try done. exists []. by rewrite app_nil_r. }
  destruct Hsame as (Hs1 & Hs2 & Hs3).
  destruct (config st0 !! "strategy") as [v|] eqn:Hstrategy.
  - destruct (truthy v) eqn:Htruthy.
    + destruct (loaded v (default VNone (config st0 !! "strategy_path")) st0)
        as [[s1|e] st1] eqn:Hload.
      * destruct (loaded_config _ _ _ _ _ Hload) as (Hc1 & l1 & Hl1).
        destruct (resolve_loaded_confined s1 st1 r st Hrun) as (Hout & Hkeys & _ & _ & l2 & Hl2).
        rewrite Hc1 in Hout, Hkeys. split_and!; try done.
        -- exists (l1 ++ l2)%list. by rewrite Hl2, Hl1, app_assoc.
        -- intros nm' e st2 [= ->] Hfail. simpl in Hload. rewrite Hload in Hfail. discriminate.
      * injection Hrun as _ <-.
        destruct (loaded_config _ _ _ _ _ Hload) as (Hc1 & l1 & Hl1).
        rewrite Hc1. split_and!; try done. by exists l1.
    + unfold raise in Hrun. injection Hrun as _ <-. split_and!; done.
  - unfold raise in Hrun. injection Hrun as _ <-. split_and!; done.
Qed.

End EntryPoint.

(** X14 on an encoded name for which the loader finds nothing, under a
    configuration with the foreign entry [dry_run]. *)
Lemma X14_entry_point_keeps_configuration_witness :
  let c := <["strategy" := VStr "SampleStrategy:cGFzcw=="]> (Sample.config_with [("dry_run", VBool true)]) in
  let run := @load_strategy Sample.imports_nothing_found (Some c) Sample.nothing_outside in
  run.1 = Err (not_found "SampleStrategy")
  ∧ config run.2 !! "dry_run" = Some (VBool true).
Proof.
  intros c run.
  destruct (X14_entry_point_keeps_configuration (H := Sample.imports_nothing_found)
              (Some c) Sample.nothing_outside run.1 run.2 (surjective_pairing _))
    as (Hout & _).
  split.
  - vm_compute. reflexivity.
  - rewrite Hout; [ vm_compute; reflexivity | ].
    apply (bool_decide_unpack _). vm_compute. reflexivity.
Defined.
